(** * life-coach: goal tracking, goal analysis, error handling, chat feedback
      and brute-force protection, embedded from the JavaScript sources.

    Conventions of the embedding.
    - A JavaScript number that carries a progress value is a rational
      ([Q]): every finite double is one.  Comparisons, [Math.max],
      [Math.min], [Math.abs] and [Math.round] are exact on doubles and are
      the exact functions; [+], [-] and [/] round their exact result to
      the nearest double, ties to even, as module [Double] writes out.
      Status codes, error codes, counters and millisecond time stamps are
      integers ([Z]).
    - [new Date()] and [Date.now()] are read from explicit arguments, one
      for each reading of the clock.
    - The result of a database query ([findOne], [save]) is an explicit
      argument or an explicit collection that is passed around; what
      Mongoose does with a schema (strict mode, [timestamps]) is written
      out where a document is built or updated.
    - Mongoose enums are inductive types; documents are records.
    - [NaN] and the infinities are not numbers of the model.
    - Calls to the logger exported by utils/logger.js change neither a
      response nor stored data and are left out.  In errorHandler.js the
      name [logger] is bound to the module object instead, and a call of
      [logger.error] there throws: module [ErrorHandler] writes that
      out. *)

From Stdlib Require Import ZArith QArith Qminmax Qround Qabs Qpower String
  List Lia Lqa Sorting.Sorted Sorting.Permutation.
From Stdlib Require Floats.
From stdpp Require Import gmap strings list pretty.
Import ListNotations.

Local Open Scope string_scope.
Local Open Scope list_scope.
Local Open Scope Z_scope.

(** ** JavaScript numbers used for progress values *)

Module Math.

Definition max (a b : Q) : Q := Qmax a b.
Definition min (a b : Q) : Q := Qmin a b.

(** [Math.round] rounds to the nearest integer, ties towards +infinity. *)
Definition round (x : Q) : Z := Qfloor (x + (1 # 2)).

(** [Math.ceil(a / b)] for integers [a] and [b > 0]. *)
Definition ceil_div (a b : Z) : Z := - ((- a) / b).

End Math.

(** ** Double-precision arithmetic

    The arithmetic operators of JavaScript work on IEEE 754 binary64
    numbers: the exact result is rounded to the nearest number of the form
    [m * 2^e] with [|m| < 2^53] and [e >= -1074], ties going to the even
    [m].  Results beyond the largest double (infinities) are not numbers of
    the model, and the divisions of the code have a divisor that is a
    positive length. *)

Module Double.

Definition pow2 (e : Z) : Q := (2 ^ e)%Q.

(** [floor (log2 q)] for a positive [q]. *)
Definition ilog2 (q : Q) : Z :=
  let t := Z.log2 (Qnum q) - Z.log2 (Zpos (Qden q)) in
  if Qle_bool (pow2 t) q then t else t - 1.

(** The nearest integer, a tie going to the even one. *)
Definition nearestEven (q : Q) : Z :=
  let f := Qfloor q in
  match (q - inject_Z f ?= 1 # 2)%Q with
  | Lt => f
  | Gt => f + 1
  | Eq => if Z.even f then f else f + 1
  end.

(** The exponent of the last bit of the 53-bit significand of a positive
    [q]; subnormal numbers share the exponent -1074. *)
Definition exponent (q : Q) : Z := Z.max (ilog2 q - 52) (-1074).

Definition roundPos (q : Q) : Q :=
  (inject_Z (nearestEven (q / pow2 (exponent q))) * pow2 (exponent q))%Q.

(** The double nearest to [q], as a reduced fraction. *)
Definition round (q : Q) : Q :=
  match Qnum q with
  | Z0 => 0%Q
  | Zpos _ => Qred (roundPos q)
  | Zneg _ => Qred (- roundPos (- q))
  end.

(** [x + y], [x - y] and [x / y] on doubles. *)
Definition add (x y : Q) : Q := round (x + y).
Definition sub (x y : Q) : Q := round (x - y).
Definition div (x y : Q) : Q := round (x / y).

End Double.

(** ** models/Goal.js *)

Module Goals.

Inductive Category :=
  fitness | career | personal | learning | relationships | finance | health.

Inductive GoalType := short_term | long_term.

Inductive Status := active | paused | completed | archived.

Inductive Priority := low | medium | high.

Record Milestone := {
  text : string;
  ms_completed : bool;
  completedAt : option Z;
  dueDate : option Z
}.

Record ProgressEntry := {
  pe_date : Z;
  pe_progress : Q;
  pe_note : option string
}.

Record CheckIn := {
  ci_date : Z;
  mood : option Q;
  confidence : option Q;
  obstacles : list string;
  wins : list string;
  ci_note : option string
}.

Record Goal := {
  userId : string;
  title : string;
  description : option string;
  category : Category;
  type : GoalType;
  status : Status;
  progress : Q;
  targetDate : option Z;
  startDate : Z;
  completedDate : option Z;
  milestones : list Milestone;
  tags : list string;
  priority : Priority;
  progressHistory : list ProgressEntry;
  checkIns : list CheckIn
}.

Definition status_eqb (a b : Status) : bool :=
  match a, b with
  | active, active | paused, paused
  | completed, completed | archived, archived => true
  | _, _ => false
  end.

(** [this.progress = ...; this.progressHistory.push(...); if (...) {...}]
    The method reads the clock twice: [now] is the [new Date()] of the
    history entry and [later] the [new Date()] stored as [completedDate]. *)
Definition updateProgress (this : Goal) (newProgress : Q)
    (note : option string) (now later : Z) : Goal :=
  let progress' := Math.max 0 (Math.min 100 newProgress) in
  let history' :=
    progressHistory this ++
      [ {| pe_date := now; pe_progress := progress'; pe_note := note |} ] in
  let finished :=
    Qeq_bool progress' 100 && negb (status_eqb (status this) completed) in
  {| userId := userId this;
     title := title this;
     description := description this;
     category := category this;
     type := type this;
     status := if finished then completed else status this;
     progress := progress';
     targetDate := targetDate this;
     startDate := startDate this;
     completedDate := if finished then Some later else completedDate this;
     milestones := milestones this;
     tags := tags this;
     priority := priority this;
     progressHistory := history';
     checkIns := checkIns this |}.

(** The body of a check-in request, after the destructuring defaults
    [obstacles = []] and [wins = []]. *)
Record CheckInBody := {
  b_mood : option Q;
  b_confidence : option Q;
  b_obstacles : list string;
  b_wins : list string;
  b_note : option string
}.

(** [goal.checkIns.push({ date: new Date(), mood, ... })] *)
Definition pushCheckIn (goal : Goal) (body : CheckInBody) (now : Z) : Goal :=
  {| userId := userId goal;
     title := title goal;
     description := description goal;
     category := category goal;
     type := type goal;
     status := status goal;
     progress := progress goal;
     targetDate := targetDate goal;
     startDate := startDate goal;
     completedDate := completedDate goal;
     milestones := milestones goal;
     tags := tags goal;
     priority := priority goal;
     progressHistory := progressHistory goal;
     checkIns := checkIns goal ++
       [ {| ci_date := now; mood := b_mood body;
            confidence := b_confidence body;
            obstacles := b_obstacles body; wins := b_wins body;
            ci_note := b_note body |} ] |}.

(** The fields of [POST /api/goals] that the route copies into the new
    document; every other field takes its schema default. *)
Record NewGoalBody := {
  n_title : string;
  n_description : option string;
  n_category : Category;
  n_type : GoalType;
  n_targetDate : option Z;
  n_milestones : list (string * option Z)
}.

Definition newGoal (uid : string) (body : NewGoalBody) (now : Z) : Goal :=
  {| userId := uid;
     title := n_title body;
     description := n_description body;
     category := n_category body;
     type := n_type body;
     status := active;
     progress := 0;
     targetDate := n_targetDate body;
     startDate := now;
     completedDate := None;
     milestones :=
       List.map (fun m => {| text := fst m; ms_completed := false;
                             completedAt := None; dueDate := snd m |})
                (n_milestones body);
     tags := [];
     priority := medium;
     progressHistory := [];
     checkIns := [] |}.

(** *** routes/goals.js: the two mutating routes on one goal.
    [found] is the result of [Goal.findOne({ _id: goalId, userId })] and
    [Saved goal] carries the document handed to [save].  (The counter that
    the progress route increments in the user's metrics belongs to the user
    document.) *)

Inductive RouteResult :=
| NotFound404
| Saved (goal : Goal).

Definition putProgress (found : option Goal) (newProgress : Q)
    (note : option string) (now later : Z) : RouteResult :=
  match found with
  | None => NotFound404
  | Some goal => Saved (updateProgress goal newProgress note now later)
  end.


(** The operations that mutate a stored goal, and their effect. *)
Inductive Op :=
| OpUpdateProgress (newProgress : Q) (note : option string) (now later : Z)
| OpCheckIn (body : CheckInBody) (now : Z).

Definition applyOp (goal : Goal) (op : Op) : Goal :=
  match op with
  | OpUpdateProgress p note now later =>
      updateProgress goal p note now later
  | OpCheckIn body now => pushCheckIn goal body now
  end.

Definition applyOps (goal : Goal) (ops : list Op) : Goal :=
  fold_left applyOp ops goal.

(** A goal reachable from a freshly created one. *)
Definition reachable (goal : Goal) : Prop :=
  exists uid body now ops, goal = applyOps (newGoal uid body now) ops.

End Goals.

(** ** services/goalAnalysis.js *)

Module GoalAnalysis.

(** [a < b] and [a >= b] on numbers. *)
Definition lt (a b : Q) : bool := negb (Qle_bool b a).
Definition ge (a b : Q) : bool := Qle_bool b a.

(** [this.progressThresholds] *)
Record Thresholds := {
  excellent : Q;
  good : Q;
  fair : Q;
  needsAttention : Q
}.

Definition progressThresholds : Thresholds :=
  {| excellent := 80; good := 60; fair := 40; needsAttention := 20 |}.

Record OverallProgress := {
  averageProgress : Z;
  activeCount : nat;
  completedCount : nat;
  status : string
}.

Definition getProgressStatus (avgProgress : Q) : string :=
  if ge avgProgress (excellent progressThresholds) then "excellent"
  else if ge avgProgress (good progressThresholds) then "good"
  else if ge avgProgress (fair progressThresholds) then "fair"
  else "needs_attention".

Definition isActive (goal : Goals.Goal) : bool :=
  Goals.status_eqb (Goals.status goal) Goals.active.

Definition isCompleted (goal : Goals.Goal) : bool :=
  Goals.status_eqb (Goals.status goal) Goals.completed.

Definition calculateOverallProgress (goals : list Goals.Goal)
    : OverallProgress :=
  let activeGoals := List.filter isActive goals in
  let completedGoals := List.filter isCompleted goals in
  if Nat.eqb (length activeGoals) 0 then
    {| averageProgress :=
         if Nat.ltb 0 (length completedGoals) then 100 else 0;
       activeCount := 0;
       completedCount := length completedGoals;
       status :=
         if Nat.ltb 0 (length completedGoals)
         then "all_completed" else "no_goals" |}
  else
    let avgProgress :=
      Double.div
        (fold_left (fun sum goal => Double.add sum (Goals.progress goal))
           activeGoals 0%Q)
        (inject_Z (Z.of_nat (length activeGoals))) in
    {| averageProgress := Math.round avgProgress;
       activeCount := length activeGoals;
       completedCount := length completedGoals;
       status := getProgressStatus avgProgress |}.

Record Recommendation := {
  priority : Goals.Priority;
  type : string;
  message : string;
  action : string
}.

(** [Array.prototype.sort(compareFn)]: a stable sort that places [a]
    before [b] when [compareFn(a, b) < 0] (stability: ECMAScript 2019). *)
Section Sort.
Context {A : Type} (compareFn : A -> A -> Z).

Fixpoint insertSorted (x : A) (l : list A) : list A :=
  match l with
  | [] => [x]
  | y :: l' =>
      if compareFn x y <=? 0 then x :: l else y :: insertSorted x l'
  end.

Definition sort (l : list A) : list A := fold_right insertSorted [] l.
End Sort.

(** [const priority = { high: 3, medium: 2, low: 1 }] *)
Definition priorityValue (p : Goals.Priority) : Z :=
  match p with
  | Goals.high => 3
  | Goals.medium => 2
  | Goals.low => 1
  end.

Definition comparePriority (a b : Recommendation) : Z :=
  priorityValue (priority b) - priorityValue (priority a).

(** [goal.checkIns[goal.checkIns.length - 1]] *)
Definition lastCheckIn (goal : Goals.Goal) : option Goals.CheckIn :=
  List.last (List.map Some (Goals.checkIns goal)) None.

Definition needsCheckIn (now : Z) (goal : Goals.Goal) : bool :=
  match lastCheckIn goal with
  | None => true
  | Some c =>
      let daysSinceCheckIn :=
        (inject_Z (now - Goals.ci_date c)
           / inject_Z (1000 * 60 * 60 * 24))%Q in
      lt 7 daysSinceCheckIn
  end.

Definition withoutMilestones (goal : Goals.Goal) : bool :=
  Nat.eqb (length (Goals.milestones goal)) 0
  && lt (Goals.progress goal) 50.

(** [recommendations.push(r)] under the guard [cond]. *)
Definition pushIf {A} (cond : bool) (r : A) (l : list A) : list A :=
  if cond then l ++ [r] else l.

Definition generateRecommendations (goals : list Goals.Goal) (now : Z)
    : list Recommendation :=
  let activeGoals := List.filter isActive goals in
  let goalsNeedingCheckIn := List.filter (needsCheckIn now) activeGoals in
  let goalsWithoutMilestones := List.filter withoutMilestones activeGoals in
  let recommendations := [] in
  let recommendations :=
    pushIf (Nat.ltb 5 (length activeGoals))
      {| priority := Goals.high;
         type := "focus";
         message :=
           "Consider focusing on fewer goals. You have "
           +:+ pretty (length activeGoals)
           +:+ " active goals. Research shows 2-3 goals is optimal for success.";
         action := "Prioritize top 3 goals and pause others" |}
      recommendations in
  let recommendations :=
    pushIf (Nat.ltb 0 (length goalsNeedingCheckIn))
      {| priority := Goals.medium;
         type := "checkin";
         message :=
           pretty (length goalsNeedingCheckIn)
           +:+ " goal(s) need a progress check-in.";
         action := "Schedule weekly goal reviews" |}
      recommendations in
  let recommendations :=
    pushIf (Nat.ltb 0 (length goalsWithoutMilestones))
      {| priority := Goals.medium;
         type := "structure";
         message :=
           pretty (length goalsWithoutMilestones)
           +:+ " goal(s) would benefit from milestone planning.";
         action := "Break down goals into smaller, measurable milestones" |}
      recommendations in
  sort comparePriority recommendations.

End GoalAnalysis.

(** ** JavaScript values, as far as the middleware inspects them *)

Module JS.

#[local] Set Warnings "-register-all".

(** [Native name] is a function or object of the runtime itself, such as
    the methods every object inherits from [Object.prototype]. *)
Inductive value :=
| Undefined
| Null
| Bool (b : bool)
| Num (z : Z)
| Str (s : string)
| Arr (items : list value)
| Obj (props : list (string * value))
| Native (name : string).

(** Own enumerable properties of an object, in insertion order. *)
Definition properties := list (string * value).

Definition truthy (v : value) : bool :=
  match v with
  | Undefined | Null => false
  | Bool b => b
  | Num z => negb (z =? 0)
  | Str s => negb (String.eqb s "")
  | Arr _ | Obj _ | Native _ => true
  end.

(** [a || b] *)
Definition orElse (a b : value) : value := if truthy a then a else b.

(** [a === b] where one side is a primitive. *)
Definition strictEq (a b : value) : bool :=
  match a, b with
  | Undefined, Undefined | Null, Null => true
  | Bool x, Bool y => Bool.eqb x y
  | Num x, Num y => x =? y
  | Str x, Str y => String.eqb x y
  | Native x, Native y => String.eqb x y
  | _, _ => false
  end.

Fixpoint lookupProp (ps : properties) (k : string) : option value :=
  match ps with
  | [] => None
  | (k', v) :: ps' => if String.eqb k' k then Some v else lookupProp ps' k
  end.

Definition get (ps : properties) (k : string) : value :=
  match lookupProp ps k with
  | Some v => v
  | None => Undefined
  end.

(** [o[k] = v]: overwrite in place or append. *)
Fixpoint set (ps : properties) (k : string) (v : value) : properties :=
  match ps with
  | [] => [(k, v)]
  | (k', v') :: ps' =>
      if String.eqb k' k then (k, v) :: ps' else (k', v') :: set ps' k v
  end.

(** [v.k] for a value that is not [undefined] or [null]; only objects
    carry the properties read by the middleware. *)
Definition member (v : value) (k : string) : value :=
  match v with
  | Obj ps => get ps k
  | _ => Undefined
  end.

(** Template-literal conversion [`${v}`]. *)
Fixpoint toString (v : value) : string :=
  match v with
  | Undefined => "undefined"
  | Null => "null"
  | Bool true => "true"
  | Bool false => "false"
  | Num z => pretty z
  | Str s => s
  | Arr items =>
      (fix join (l : list value) : string :=
         match l with
         | [] => ""
         | x :: rest =>
             let sx := match x with
                       | Undefined | Null => ""
                       | _ => toString x
                       end in
             match rest with
             | [] => sx
             | _ :: _ => sx +:+ "," +:+ join rest
             end
         end) items
  | Obj _ => "[object Object]"
  | Native name => "function " +:+ name +:+ "() { [native code] }"
  end.

(** [Array.prototype.join(sep)] *)
Fixpoint join (sep : string) (l : list value) : string :=
  match l with
  | [] => ""
  | x :: rest =>
      let sx := match x with
                | Undefined | Null => ""
                | _ => toString x
                end in
      match rest with
      | [] => sx
      | _ :: _ => sx +:+ sep +:+ join sep rest
      end
  end.

(** [Object.keys(v)]; [None] when the call throws a [TypeError]. *)
Definition keys (v : value) : option (list string) :=
  match v with
  | Undefined | Null => None
  | Obj ps => Some (List.map fst ps)
  | Arr items => Some (List.map (fun i => pretty i) (seq 0 (length items)))
  | Str s =>
      Some (List.map (fun i => pretty i) (seq 0 (String.length s)))
  | Bool _ | Num _ | Native _ => Some []
  end.

(** [Object.values(v)]; [None] when the call throws a [TypeError]. *)
Definition values (v : value) : option (list value) :=
  match v with
  | Undefined | Null => None
  | Obj ps => Some (List.map snd ps)
  | Arr items => Some items
  | Str s =>
      Some (List.map (fun c => Str (String c EmptyString))
              (list_ascii_of_string s))
  | Bool _ | Num _ | Native _ => Some []
  end.

(** The names every object inherits from [Object.prototype], and the
    further ones an array inherits from [Array.prototype]
    (ECMAScript 2023). *)
Definition objectPrototype : list string :=
  [ "constructor"; "hasOwnProperty"; "isPrototypeOf";
    "propertyIsEnumerable"; "toLocaleString"; "toString"; "valueOf";
    "__defineGetter__"; "__defineSetter__"; "__lookupGetter__";
    "__lookupSetter__" ].

Definition arrayPrototype : list string :=
  [ "at"; "concat"; "copyWithin"; "entries"; "every"; "fill"; "filter";
    "find"; "findIndex"; "findLast"; "findLastIndex"; "flat"; "flatMap";
    "forEach"; "includes"; "indexOf"; "join"; "keys"; "lastIndexOf"; "map";
    "pop"; "push"; "reduce"; "reduceRight"; "reverse"; "shift"; "slice";
    "some"; "sort"; "splice"; "toReversed"; "toSorted"; "toSpliced";
    "unshift"; "values"; "with" ].

(** What a read of [k] finds on the prototypes when the value has no own
    property [k]: [__proto__] is the prototype object itself. *)
Definition inherited (names : list string) (k : string) : value :=
  if String.eqb k "__proto__" then Obj []
  else if List.existsb (String.eqb k) names then Native k
  else Undefined.

(** [v[k]] for a string key [k]: an own property, or else an inherited
    one.  For a string only its characters, its [length] and what
    [Object.prototype] provides are modelled. *)
Definition index (v : value) (k : string) : value :=
  match v with
  | Obj ps =>
      match lookupProp ps k with
      | Some v => v
      | None => inherited objectPrototype k
      end
  | Arr items =>
      match List.find (fun p => String.eqb (pretty (fst p)) k)
              (combine (seq 0 (length items)) items) with
      | Some p => snd p
      | None =>
          if String.eqb k "length" then Num (Z.of_nat (length items))
          else inherited (arrayPrototype ++ objectPrototype) k
      end
  | Str s =>
      match List.find (fun p => String.eqb (pretty (fst p)) k)
              (combine (seq 0 (String.length s)) (list_ascii_of_string s)) with
      | Some p => Str (String (snd p) EmptyString)
      | None =>
          if String.eqb k "length" then Num (Z.of_nat (String.length s))
          else inherited objectPrototype k
      end
  | _ => Undefined
  end.

(** An error object as the handler sees it: its own enumerable properties
    (the ones copied by [{ ...err }]), the [message] and [stack] set by the
    [Error] constructor (own, not enumerable) and the [name] inherited
    from the prototype.  A plain object has the last three undefined. *)
Record ErrorObject := {
  props : properties;
  ctorMessage : value;
  ctorStack : value;
  protoName : value
}.

(** [err.k] *)
Definition prop (err : ErrorObject) (k : string) : value :=
  match lookupProp (props err) k with
  | Some v => v
  | None =>
      if String.eqb k "message" then ctorMessage err
      else if String.eqb k "stack" then ctorStack err
      else if String.eqb k "name" then protoName err
      else Undefined
  end.

(** [err.k = v]: an own property is overwritten where it is (also the
    non-enumerable [message] and [stack]); a new one is enumerable. *)
Definition assign (err : ErrorObject) (k : string) (v : value)
    : ErrorObject :=
  let hidden (field : value) :=
    match lookupProp (props err) k, field with
    | None, Undefined => false
    | None, _ => true
    | Some _, _ => false
    end in
  if String.eqb k "message" && hidden (ctorMessage err) then
    {| props := props err;
       ctorMessage := v;
       ctorStack := ctorStack err;
       protoName := protoName err |}
  else if String.eqb k "stack" && hidden (ctorStack err) then
    {| props := props err;
       ctorMessage := ctorMessage err;
       ctorStack := v;
       protoName := protoName err |}
  else
    {| props := set (props err) k v;
       ctorMessage := ctorMessage err;
       ctorStack := ctorStack err;
       protoName := protoName err |}.

(** [{ ...err }] *)
Definition spread (err : ErrorObject) : ErrorObject :=
  {| props := props err;
     ctorMessage := Undefined;
     ctorStack := Undefined;
     protoName := Undefined |}.

End JS.

(** ** Requests and responses of the HTTP layer *)

Module Http.

Record Request := {
  originalUrl : string;
  method : string;
  ip : string
}.

(** A response is sent with [res.status(code).json(body)] or with
    [res.status(code).render(view, locals)]. *)
Inductive Response :=
| Json (statusCode : JS.value) (body : JS.properties)
| Render (statusCode : JS.value) (view : string) (locals : JS.properties).

Definition statusOf (r : Response) : JS.value :=
  match r with
  | Json c _ | Render c _ _ => c
  end.

(** The JSON body of a response, if it has one. *)
Definition jsonBody (r : Response) : option JS.properties :=
  match r with
  | Json _ body => Some body
  | Render _ _ _ => None
  end.

(** What a middleware does with a request: answer it, or call [next()]. *)
Inductive Step (A : Type) :=
| Respond (r : Response)
| Next (a : A).
Arguments Respond {A} r.
Arguments Next {A} a.

(** The result of an awaited call that may throw. *)
Inductive Attempt (A : Type) :=
| Ok (a : A)
| Throws (error : JS.ErrorObject).
Arguments Ok {A} a.
Arguments Throws {A} error.

End Http.

(** ** middleware/errorHandler.js *)

Module ErrorHandler.
Import Http.

Abbreviation ErrorObject := JS.ErrorObject.
Abbreviation prop := JS.prop.
Abbreviation assign := JS.assign.
Abbreviation spread := JS.spread.

(** [new AppError(message, statusCode)]; the text of the captured stack
    trace is not modelled. *)
Definition AppError (message : string) (statusCode : Z) : ErrorObject :=
  {| JS.props :=
       [ ("statusCode", JS.Num statusCode);
         ("status",
          JS.Str (if String.prefix "4" (pretty statusCode)
                  then "fail" else "error"));
         ("isOperational", JS.Bool true) ];
     JS.ctorMessage := JS.Str message;
     JS.ctorStack := JS.Str "";
     JS.protoName := JS.Str "Error" |}.

(** [const logger = require('../utils/logger')]: utils/logger.js has a
    default export only, so the binding is the module object, which holds
    the exported loggers under [default] and has no method of its own. *)
Definition logger : JS.value :=
  JS.Obj
    [ ("default",
       JS.Obj [ ("logger", JS.Native "SimpleLogger");
                ("httpLogger", JS.Native "httpLogger");
                ("goalLogger", JS.Native "goalLogger");
                ("chatLogger", JS.Native "chatLogger");
                ("authLogger", JS.Native "authLogger");
                ("userLogger", JS.Native "userLogger");
                ("securityLogger", JS.Native "securityLogger");
                ("performanceLogger", JS.Native "performanceLogger");
                ("metricsLogger", JS.Native "metricsLogger") ]) ].

(** The [TypeError] of a call of something that is not a function. *)
Definition notAFunction (callee : string) : ErrorObject :=
  {| JS.props := [];
     JS.ctorMessage := JS.Str (callee +:+ " is not a function");
     JS.ctorStack := JS.Str "";
     JS.protoName := JS.Str "TypeError" |}.

(** [logger.error(...)] and [logger.warn(...)] in this file: the call
    returns when the property is a function and throws otherwise. *)
Definition log (level : string) : Attempt unit :=
  match JS.member logger level with
  | JS.Native _ => Ok tt
  | _ => Throws (notAFunction ("logger." +:+ level))
  end.

Definition handleCastErrorDB (err : ErrorObject) : ErrorObject :=
  let message :=
    "Invalid " +:+ JS.toString (prop err "path") +:+ ": "
    +:+ JS.toString (prop err "value") in
  AppError message 400.

(** [None]: [Object.keys] throws because [err.keyValue] is missing. *)
Definition handleDuplicateFieldsDB (err : ErrorObject)
    : option ErrorObject :=
  match JS.keys (prop err "keyValue") with
  | None => None
  | Some ks =>
      let field := match ks with
                   | [] => JS.Undefined
                   | k :: _ => JS.Str k
                   end in
      let value := JS.index (prop err "keyValue") (JS.toString field) in
      let message :=
        JS.toString field +:+ " '" +:+ JS.toString value
        +:+ "' already exists. Please use another value." in
      Some (AppError message 400)
  end.

(** [None]: [Object.values] throws because [err.errors] is missing, or
    [el.message] is read on [undefined] or [null]. *)
Definition handleValidationErrorDB (err : ErrorObject)
    : option ErrorObject :=
  match JS.values (prop err "errors") with
  | None => None
  | Some els =>
      if List.forallb
           (fun el => match el with
                      | JS.Undefined | JS.Null => false
                      | _ => true
                      end) els
      then
        let errors := List.map (fun el => JS.member el "message") els in
        let message := "Invalid input data: " +:+ JS.join ". " errors in
        Some (AppError message 400)
      else None
  end.

Definition handleJWTError : ErrorObject :=
  AppError "Invalid token. Please log in again." 401.

Definition handleJWTExpiredError : ErrorObject :=
  AppError "Your token has expired. Please log in again." 401.

Definition handleOpenAIError (err : ErrorObject) : ErrorObject :=
  let default :=
    AppError "AI service temporarily unavailable. Please try again later."
      503 in
  if JS.truthy (prop err "response") then
    let status := JS.member (prop err "response") "status" in
    if JS.strictEq status (JS.Num 400) then
      AppError "Invalid request to AI service." 400
    else if JS.strictEq status (JS.Num 401) then
      AppError "AI service authentication failed." 500
    else if JS.strictEq status (JS.Num 429) then
      AppError "AI service rate limit exceeded. Please try again later." 429
    else if JS.strictEq status (JS.Num 500)
            || JS.strictEq status (JS.Num 502)
            || JS.strictEq status (JS.Num 503) then
      AppError "AI service temporarily unavailable." 503
    else default
  else default.

(** [None]: the call of [logger.error] throws. *)
Definition handleDBConnectionError (err : ErrorObject)
    : option ErrorObject :=
  match log "error" with
  | Throws _ => None
  | Ok _ =>
      Some (AppError
              "Database temporarily unavailable. Please try again later."
              503)
  end.

Definition handleRateLimitError (err : ErrorObject) : ErrorObject :=
  AppError "Too many requests from this IP. Please try again later." 429.

Definition isApi (req : Request) : bool :=
  String.prefix "/api" (originalUrl req).

Definition sendErrorDev (err : ErrorObject) (req : Request) : Response :=
  if isApi req then
    Json (prop err "statusCode")
      [ ("success", JS.Bool false);
        ("error", prop err "message");
        ("stack", prop err "stack");
        ("details", JS.Obj (JS.props err)) ]
  else
    Render (prop err "statusCode") "error"
      [ ("title", JS.Str "Something went wrong!");
        ("msg", prop err "message");
        ("error", JS.Obj (JS.props err)) ].

Definition genericMessage : string :=
  "Something went wrong on our end. Please try again later.".

(** A handler either sends a response or throws. *)
Inductive Outcome :=
| Sent (r : Response)
| Thrown.

(** On both paths for an error that is not operational [logger.error] is
    called before the response is sent. *)
Definition sendErrorProd (err : ErrorObject) (req : Request) : Outcome :=
  if isApi req then
    if JS.truthy (prop err "isOperational") then
      Sent (Json (prop err "statusCode")
              ([ ("success", JS.Bool false);
                 ("error", prop err "message") ]
               ++ (if JS.strictEq (prop err "statusCode") (JS.Num 429)
                   then [ ("retryAfter", prop err "retryAfter") ]
                   else [])))
    else
      match log "error" with
      | Throws _ => Thrown
      | Ok _ =>
          Sent (Json (JS.Num 500)
                  [ ("success", JS.Bool false);
                    ("error", JS.Str genericMessage) ])
      end
  else
    if JS.truthy (prop err "isOperational") then
      Sent (Render (prop err "statusCode") "error"
              [ ("title", JS.Str "Something went wrong!");
                ("msg", prop err "message") ])
    else
      match log "error" with
      | Throws _ => Thrown
      | Ok _ =>
          Sent (Render (prop err "statusCode") "error"
                  [ ("title", JS.Str "Something went wrong!");
                    ("msg", JS.Str "Please try again later.") ])
      end.

(** One [if (cond) error = handler(error);] line of the handler. *)
Definition rule (cond : ErrorObject -> bool)
    (handler : ErrorObject -> option ErrorObject)
    (error : option ErrorObject) : option ErrorObject :=
  match error with
  | None => None
  | Some e => if cond e then handler e else Some e
  end.

Definition nameIs (n : string) (e : ErrorObject) : bool :=
  JS.strictEq (prop e "name") (JS.Str n).

(** The chain of translation rules applied in production. *)
Definition translate (error : ErrorObject) : option ErrorObject :=
  let e := Some error in
  let e := rule (nameIs "CastError") (fun x => Some (handleCastErrorDB x)) e in
  let e := rule (fun x => JS.strictEq (prop x "code") (JS.Num 11000))
             handleDuplicateFieldsDB e in
  let e := rule (nameIs "ValidationError") handleValidationErrorDB e in
  let e := rule (nameIs "JsonWebTokenError")
             (fun _ => Some handleJWTError) e in
  let e := rule (nameIs "TokenExpiredError")
             (fun _ => Some handleJWTExpiredError) e in
  let e := rule (fun x => nameIs "MongoNetworkError" x
                          || nameIs "MongoTimeoutError" x)
             handleDBConnectionError e in
  let e := rule (fun x => JS.strictEq (prop x "type") (JS.Str "RateLimitError"))
             (fun x => Some (handleRateLimitError x)) e in
  let e := rule (fun x => JS.truthy (prop x "response")
                          && JS.truthy (JS.member (prop x "response") "status"))
             (fun x => Some (handleOpenAIError x)) e in
  e.

(** The first two assignments of the handler, on [err] itself. *)
Definition withDefaults (err : ErrorObject) : ErrorObject :=
  let err := assign err "statusCode"
               (JS.orElse (prop err "statusCode") (JS.Num 500)) in
  assign err "status" (JS.orElse (prop err "status") (JS.Str "error")).

(** [let error = { ...err }; error.message = err.message;] *)
Definition copyOf (err : ErrorObject) : ErrorObject :=
  assign (spread err) "message" (prop err "message").

(** [NODE_ENV] is [process.env.NODE_ENV]. *)
Definition globalErrorHandler (NODE_ENV : JS.value) (err : ErrorObject)
    (req : Request) : Outcome :=
  let err := withDefaults err in
  if JS.strictEq NODE_ENV (JS.Str "development") then
    Sent (sendErrorDev err req)
  else
    match translate (copyOf err) with
    | Some error => sendErrorProd error req
    | None => Thrown
    end.

(** [handleNotFound] builds this error and passes it to [next]. *)
Definition handleNotFound (req : Request) : ErrorObject :=
  AppError ("Can't find " +:+ originalUrl req +:+ " on this server!") 404.

End ErrorHandler.

(** ** middleware/validation.js *)

Module Validation.
Import Http.

(** One entry of [validationResult(req).array()]. *)
Record ValidationError := {
  path : JS.value;
  msg : JS.value;
  value : JS.value
}.

Definition handleValidationErrors (errors : list ValidationError)
    : Step unit :=
  match errors with
  | [] => Next tt
  | _ :: _ =>
      let errorMessages :=
        List.map (fun error =>
                    JS.Obj [ ("field", path error);
                             ("message", msg error);
                             ("value", value error) ]) errors in
      Respond (Json (JS.Num 400)
                 [ ("success", JS.Bool false);
                   ("error", JS.Str "Validation failed");
                   ("details", JS.Arr errorMessages) ])
  end.

(** The [req.file] left by the upload middleware. *)
Record File := { mimetype : string; size : Z }.

Definition badRequest (message : string) : Response :=
  Json (JS.Num 400)
    [ ("success", JS.Bool false); ("error", JS.Str message) ].

Definition validateFileUpload (file : option File) : Step unit :=
  match file with
  | None => Respond (badRequest "No file uploaded")
  | Some file =>
      let allowedTypes := [ "image/jpeg"; "image/png"; "image/gif" ] in
      let maxSize := 5 * 1024 * 1024 in
      if negb (List.existsb (String.eqb (mimetype file)) allowedTypes) then
        Respond (badRequest
                   "Invalid file type. Only JPEG, PNG, and GIF are allowed.")
      else if maxSize <? size file then
        Respond (badRequest "File too large. Maximum size is 5MB.")
      else Next tt
  end.

End Validation.

(** ** middleware/auth.js *)

Module Auth.
Import Http.

(** The calls the middleware awaits: [Jsonwebtoken.verify],
    [User.findById(...).select(...)] (a document or [null]) and
    [user.save()].  The user schema has [timestamps: true], so [save] also
    writes [updatedAt] on the document it saves; its result here is that
    stamp. *)
Record Env := {
  verify : string -> Attempt JS.value;
  findById : JS.value -> Attempt JS.value;
  save : JS.value -> Attempt JS.value
}.

Definition failure (code : Z) (message : string) : Response :=
  Json (JS.Num code)
    [ ("success", JS.Bool false); ("error", JS.Str message) ].

(** The [catch] block. *)
Definition onError (error : JS.ErrorObject) : Response :=
  if JS.strictEq (JS.prop error "name") (JS.Str "JsonWebTokenError") then
    failure 401 "Invalid token."
  else if JS.strictEq (JS.prop error "name") (JS.Str "TokenExpiredError") then
    failure 401 "Token has expired."
  else failure 500 "Authentication failed.".

(** The [TypeError] raised by [user.metrics.lastActive = ...] when the
    document has no [metrics]. *)
Definition typeError : JS.ErrorObject :=
  {| JS.props := [];
     JS.ctorMessage :=
       JS.Str "Cannot set properties of undefined (setting 'lastActive')";
     JS.ctorStack := JS.Str "";
     JS.protoName := JS.Str "TypeError" |}.

(** [authHeader] is [req.header('Authorization')]; on success the
    middleware attaches the user and the token to the request. *)
Definition auth (env : Env) (authHeader : option string) (now : Z)
    : Step (JS.value * string) :=
  match authHeader with
  | None => Respond (failure 401 "Access denied. No token provided.")
  | Some "" => Respond (failure 401 "Access denied. No token provided.")
  | Some authHeader =>
      let token :=
        if String.prefix "Bearer " authHeader
        then String.substring 7 (String.length authHeader - 7) authHeader
        else authHeader in
      if String.eqb token "" then
        Respond (failure 401 "Access denied. Invalid token format.")
      else
        match verify env token with
        | Throws error => Respond (onError error)
        | Ok decoded =>
            match findById env (JS.member decoded "userId") with
            | Throws error => Respond (onError error)
            | Ok user =>
                if negb (JS.truthy user) then
                  Respond (failure 401 "Token is valid but user not found.")
                else if JS.strictEq (JS.member user "status") (JS.Str "suspended")
                        || JS.strictEq (JS.member user "status") (JS.Str "deleted")
                then
                  Respond (failure 403 "Account has been suspended or deleted.")
                else
                  match user, JS.member user "metrics" with
                  | JS.Obj fields, JS.Obj metrics =>
                      let fields :=
                        JS.set fields "metrics"
                          (JS.Obj (JS.set metrics "lastActive" (JS.Num now))) in
                      match save env (JS.Obj fields) with
                      | Throws error => Respond (onError error)
                      | Ok updatedAt =>
                          Next (JS.Obj (JS.set fields "updatedAt" updatedAt),
                                token)
                      end
                  | _, _ => Respond (onError typeError)
                  end
            end
        end
  end.

End Auth.

(** ** routes/auth.js *)

Module AuthRoutes.
Import Http.

(** [findOne] is the result of [User.findOne({ email })] (a document or
    [null]), [save] the saved document and [sign] the signed token. *)
Definition register (findOne : Attempt JS.value) (save : Attempt JS.value)
    (sign : Attempt string) : Response :=
  let failed :=
    Json (JS.Num 500)
      [ ("success", JS.Bool false);
        ("error", JS.Str "Registration failed") ] in
  match findOne with
  | Throws _ => failed
  | Ok existingUser =>
      if JS.truthy existingUser then
        Json (JS.Num 400)
          [ ("success", JS.Bool false);
            ("error", JS.Str "User already exists") ]
      else
        match save with
        | Throws _ => failed
        | Ok user =>
            match sign with
            | Throws _ => failed
            | Ok token =>
                Json (JS.Num 201)
                  [ ("success", JS.Bool true);
                    ("token", JS.Str token);
                    ("user",
                     JS.Obj [ ("id", JS.member user "_id");
                              ("name", JS.member user "name");
                              ("email", JS.member user "email");
                              ("preferences", JS.member user "preferences") ]) ]
            end
        end
  end.

End AuthRoutes.

(** ** models/Message.js and routes/chat.js *)

Module Chat.
Import Http.

Inductive MessageType := user | ai | system.

(** A stored message; [createdAt] and [updatedAt] are the fields that the
    schema option [timestamps: true] adds. *)
Record Message := {
  _id : string;
  userId : string;
  conversationId : option string;
  type : MessageType;
  content : string;
  metadata : JS.properties;
  embedding : list Q;
  createdAt : Z;
  updatedAt : Z
}.

(** The paths that the schema declares under [metadata]. *)
Definition metadataPaths : list string :=
  [ "goalContext"; "sentiment"; "intent"; "confidence" ].

Definition declared (k : string) : bool :=
  List.existsb (String.eqb k) metadataPaths.

(** Mongoose casts what is written under [metadata] with the schema: in
    strict mode, which is the default, a path that the schema does not
    declare is dropped.  The casting of the values is not modelled. *)
Definition castSet (sets : JS.properties) : JS.properties :=
  List.filter (fun p => declared (fst p)) sets.

(** The [metadata] of [new Message({ ..., metadata })]: the declared paths
    of what is given, and [goalContext], an array in the schema, empty
    when it is not given. *)
Definition castMetadata (given : JS.properties) : JS.properties :=
  JS.set (castSet given) "goalContext"
    (match JS.lookupProp given "goalContext" with
     | Some v => v
     | None => JS.Arr []
     end).

(** The messages collection, in insertion order. *)
Definition Collection := list Message.

(** [doc.save()] of a new document. *)
Definition insert (doc : Message) (coll : Collection) : Collection :=
  coll ++ [doc].

(** [Message.deleteMany({ userId })] *)
Definition deleteMany (uid : string) (coll : Collection) : Collection :=
  List.filter (fun m => negb (String.eqb (userId m) uid)) coll.

(** [Message.findOneAndUpdate(filter, update, { new: true })]: the first
    matching document is replaced by its update and returned. *)
Fixpoint findOneAndUpdate (matches : Message -> bool)
    (update : Message -> Message) (coll : Collection)
    : option Message * Collection :=
  match coll with
  | [] => (None, [])
  | m :: rest =>
      if matches m then (Some (update m), update m :: rest)
      else
        let '(found, rest') := findOneAndUpdate matches update rest in
        (found, m :: rest')
  end.

(** [{ $set: { 'metadata.userRating': ..., ... } }] as Mongoose applies
    it to a document: the three paths are cast with the schema, and with
    [timestamps: true] the update also sets [updatedAt], to the time
    [stamp] at which the update is built; [now] is the [new Date()] of the
    route. *)
Definition setFeedback (rating feedback : JS.value) (now stamp : Z)
    (m : Message) : Message :=
  {| _id := _id m;
     userId := userId m;
     conversationId := conversationId m;
     type := type m;
     content := content m;
     metadata :=
       List.fold_left (fun md p => JS.set md (fst p) (snd p))
         (castSet [ ("userRating", rating);
                    ("userFeedback", feedback);
                    ("feedbackDate", JS.Num now) ])
         (metadata m);
     embedding := embedding m;
     createdAt := createdAt m;
     updatedAt := stamp |}.

(** [POST /api/chat/feedback] for the authenticated user [uid].  [query]
    is [Throws] when the awaited [findOneAndUpdate] throws, as it does for
    an identifier that cannot be cast or when the database cannot be
    reached; the [catch] block then answers. *)
Definition postFeedback (uid : string) (messageId : string)
    (rating feedback : JS.value) (now stamp : Z) (query : Attempt unit)
    (coll : Collection) : Response * Collection :=
  match query with
  | Throws _ =>
      (Json (JS.Num 500)
         [ ("success", JS.Bool false);
           ("error", JS.Str "Failed to record feedback") ],
       coll)
  | Ok _ =>
      let '(message, coll') :=
        findOneAndUpdate
          (fun m => String.eqb (_id m) messageId && String.eqb (userId m) uid)
          (setFeedback rating feedback now stamp) coll in
      match message with
      | None =>
          (Json (JS.Num 404)
             [ ("success", JS.Bool false);
               ("error", JS.Str "Message not found") ],
           coll')
      | Some _ =>
          (Json (JS.Num 200)
             [ ("success", JS.Bool true);
               ("message", JS.Str "Feedback recorded") ],
           coll')
      end
  end.

(** The awaited calls of [POST /api/chat/message], in program order, the
    identifiers given to the two new documents and the times at which
    the two documents are saved. *)
Record Env := {
  userMessageId : string;
  aiMessageId : string;
  userEmbedding : Attempt (option (list Q));
  saveUserMessage : Attempt unit;
  userMessageSavedAt : Z;
  loadContext : Attempt unit;
  coachingResponse : Attempt (string * JS.properties);
  aiEmbedding : Attempt (option (list Q));
  storeConversation : Attempt unit;
  saveAiMessage : Attempt unit;
  aiMessageSavedAt : Z
}.

Inductive ChatResult :=
| ChatOk (userMessage aiMessage : Message) (conversation : option string)
| ChatFailed500.

Definition nonEmpty (s : option string) : bool :=
  match s with
  | Some s => negb (String.eqb s "")
  | None => false
  end.

(** [POST /api/chat/message] for the authenticated user [uid]. *)
Definition postMessage (env : Env) (uid : string) (message : string)
    (conversation : option string) (now : Z) (coll : Collection)
    : ChatResult * Collection :=
  let conversation' :=
    if nonEmpty conversation then conversation
    else Some ("conv_" +:+ pretty now) in
  match userEmbedding env with
  | Throws _ => (ChatFailed500, coll)
  | Ok emb =>
      let userMessage :=
        {| _id := userMessageId env; userId := uid;
           conversationId := conversation'; type := user;
           content := message;
           metadata := castMetadata [];
           embedding := match emb with
                        | Some e => e
                        | None => []
                        end;
           createdAt := userMessageSavedAt env;
           updatedAt := userMessageSavedAt env |} in
      match saveUserMessage env with
      | Throws _ => (ChatFailed500, coll)
      | Ok _ =>
          let coll := insert userMessage coll in
          match loadContext env, coachingResponse env with
          | Ok _, Ok (aiContent, aiMetadata) =>
              match aiEmbedding env with
              | Throws _ => (ChatFailed500, coll)
              | Ok aiEmb =>
                  let aiMessage :=
                    {| _id := aiMessageId env; userId := uid;
                       conversationId := conversation'; type := ai;
                       content := aiContent;
                       metadata := castMetadata aiMetadata;
                       embedding := match aiEmb with
                                    | Some e => e
                                    | None => []
                                    end;
                       createdAt := aiMessageSavedAt env;
                       updatedAt := aiMessageSavedAt env |} in
                  let stored :=
                    match aiEmb with
                    | Some _ => storeConversation env
                    | None => Ok tt
                    end in
                  match stored, saveAiMessage env with
                  | Ok _, Ok _ =>
                      (ChatOk userMessage aiMessage conversation',
                       insert aiMessage coll)
                  | _, _ => (ChatFailed500, coll)
                  end
              end
          | _, _ => (ChatFailed500, coll)
          end
      end
  end.

(** The routes that write to the messages collection. *)
Inductive Operation :=
| PostMessage (env : Env) (uid message : string)
    (conversation : option string) (now : Z)
| PostFeedback (uid messageId : string) (rating feedback : JS.value)
    (now stamp : Z) (query : Attempt unit)
| DeleteAccount (uid : string).

Definition perform (op : Operation) (coll : Collection) : Collection :=
  match op with
  | PostMessage env uid message conversation now =>
      snd (postMessage env uid message conversation now coll)
  | PostFeedback uid messageId rating feedback now stamp query =>
      snd (postFeedback uid messageId rating feedback now stamp query coll)
  | DeleteAccount uid => deleteMany uid coll
  end.

End Chat.

(** ** middleware/security.js: brute force protection *)

Module Security.
Import Http.

(** [options], each field possibly left out. *)
Record Options := {
  opt_maxAttempts : option Z;
  opt_windowMs : option Z;
  opt_blockDuration : option Z
}.

Definition maxAttempts (o : Options) : Z := default 5 (opt_maxAttempts o).
Definition windowMs (o : Options) : Z :=
  default (15 * 60 * 1000) (opt_windowMs o).
Definition blockDuration (o : Options) : Z :=
  default (30 * 60 * 1000) (opt_blockDuration o).

Record AttemptInfo := { count : Z; firstAttempt : Z }.
Record BlockInfo := { until : Z }.

(** The two [Map]s captured by the middleware closure. *)
Record State := {
  attempts : gmap string AttemptInfo;
  blocked : gmap string BlockInfo
}.

Definition initial : State := {| attempts := ∅; blocked := ∅ |}.

(** The parts of the request the middleware reads. *)
Record Req := {
  ip : string;
  email : option string;
  username : option string
}.

Definition truthyString (s : option string) : bool :=
  match s with
  | Some s => negb (String.eqb s "")
  | None => false
  end.

(** [req.ip + ':' + (req.body.email || req.body.username || 'unknown')] *)
Definition keyOf (req : Req) : string :=
  ip req +:+ ":" +:+
    (if truthyString (email req) then default "" (email req)
     else if truthyString (username req) then default "" (username req)
     else "unknown").

(** The ['finish'] listener registered for a request that is let through:
    it closes over [key] and [now]. *)
Record Listener := { l_key : string; l_now : Z }.

Definition tooMany (remainingTime : Z) : Response :=
  Json (JS.Num 429)
    [ ("success", JS.Bool false);
      ("error",
       JS.Str "Too many failed attempts. Account temporarily locked.");
      ("retryAfter", JS.Num remainingTime) ].

(** The middleware returned by [bruteForceProtection(options)], for a
    request arriving at time [now]; the options are read by the listener
    only. *)
Definition bruteForceProtection (st : State) (req : Req) (now : Z)
    : State * Step Listener :=
  let key := keyOf req in
  match blocked st !! key with
  | Some blockInfo =>
      if now <? until blockInfo then
        let remainingTime := Math.ceil_div (until blockInfo - now) 1000 in
        (st, Respond (tooMany remainingTime))
      else
        ({| attempts := attempts st; blocked := delete key (blocked st) |},
         Next {| l_key := key; l_now := now |})
  | None => (st, Next {| l_key := key; l_now := now |})
  end.

(** The ['finish'] listener, run with the status code of the response. *)
Definition onFinish (o : Options) (st : State) (l : Listener)
    (statusCode : Z) : State :=
  let key := l_key l in
  let now := l_now l in
  if (statusCode =? 401) || (statusCode =? 403) then
    let attemptInfo :=
      default {| count := 0; firstAttempt := now |} (attempts st !! key) in
    let attemptInfo :=
      if windowMs o <? now - firstAttempt attemptInfo
      then {| count := 1; firstAttempt := now |}
      else {| count := count attemptInfo + 1;
              firstAttempt := firstAttempt attemptInfo |} in
    let attempts' := <[ key := attemptInfo ]> (attempts st) in
    if maxAttempts o <=? count attemptInfo then
      {| attempts := delete key attempts';
         blocked := <[ key := {| until := now + blockDuration o |} ]>
                      (blocked st) |}
    else {| attempts := attempts'; blocked := blocked st |}
  else if (200 <=? statusCode) && (statusCode <? 300) then
    {| attempts := delete key (attempts st); blocked := blocked st |}
  else st.

(** What the server observes: a request arrives, or the response of a
    request that was let through is finished. *)
Inductive Event :=
| Arrive (req : Req) (now : Z)
| Finish (l : Listener) (statusCode : Z).

Definition step (o : Options) (st : State) (ev : Event)
    : State * option (Step Listener) :=
  match ev with
  | Arrive req now =>
      let '(st', r) := bruteForceProtection st req now in (st', Some r)
  | Finish l statusCode => (onFinish o st l statusCode, None)
  end.

(** The state after a sequence of events, and what each one produced. *)
Fixpoint run (o : Options) (st : State) (evs : list Event)
    : State * list (option (Step Listener)) :=
  match evs with
  | [] => (st, [])
  | ev :: evs' =>
      let '(st', out) := step o st ev in
      let '(st'', outs) := run o st' evs' in
      (st'', out :: outs)
  end.

End Security.

(** ** services/goalAnalysis.js: trends and categories *)

Module Trends.

(** The [changes] array built by the loop of [calculateConsistency]:
    [Math.abs(progressData[i].progress - progressData[i-1].progress)]. *)
Fixpoint changesOf (progressData : list Goals.ProgressEntry) : list Q :=
  match progressData with
  | a :: (b :: _) as rest =>
      Qabs (Double.sub (Goals.pe_progress b) (Goals.pe_progress a))
        :: changesOf rest
  | _ => []
  end.

Definition calculateConsistency (progressData : list Goals.ProgressEntry)
    : string :=
  if Nat.ltb (length progressData) 3 then "insufficient_data"
  else
    let changes := changesOf progressData in
    let avgChange :=
      Double.div
        (fold_left (fun sum change => Double.add sum change) changes 0%Q)
        (inject_Z (Z.of_nat (length changes))) in
    if GoalAnalysis.lt avgChange 3 then "high"
    else if GoalAnalysis.lt avgChange 8 then "medium"
    else "low".

Record Trend := {
  direction : string;
  change : Q;
  consistency : string
}.

(** The body of the [forEach] of [analyzeTrends] for one goal; [None] when
    nothing is stored for the goal.  [cutoffDate] is the date computed from
    [new Date()] and [days]. *)
Definition trendOf (goal : Goals.Goal) (cutoffDate : Z) : option Trend :=
  let recentProgress :=
    List.filter (fun entry => cutoffDate <=? Goals.pe_date entry)
      (Goals.progressHistory goal) in
  match recentProgress with
  | first :: _ :: _ =>
      let first := Goals.pe_progress first in
      let last :=
        Goals.pe_progress (List.last recentProgress
                             {| Goals.pe_date := 0; Goals.pe_progress := 0;
                                Goals.pe_note := None |}) in
      let trend := Double.sub last first in
      Some {| direction :=
                if GoalAnalysis.lt 5 trend then "improving"
                else if GoalAnalysis.lt trend (-5) then "declining"
                else "stable";
              change := trend;
              consistency := calculateConsistency recentProgress |}
  | _ => None
  end.

(** [analyzeTrends]: the object [trends], keyed by [goal._id]; a goal is a
    stored document together with its identifier. *)
Definition analyzeTrends (goals : list (string * Goals.Goal))
    (cutoffDate : Z) : gmap string Trend :=
  fold_left
    (fun trends g =>
       match trendOf (snd g) cutoffDate with
       | Some t => <[ fst g := t ]> trends
       | None => trends
       end)
    goals ∅.

Definition category_eqb (a b : Goals.Category) : bool :=
  match a, b with
  | Goals.fitness, Goals.fitness | Goals.career, Goals.career
  | Goals.personal, Goals.personal | Goals.learning, Goals.learning
  | Goals.relationships, Goals.relationships
  | Goals.finance, Goals.finance | Goals.health, Goals.health => true
  | _, _ => false
  end.

(** An entry of the [categories] object after the first loop, with its
    fields [goals] and [totalProgress]. *)
Record Bucket := {
  cat_goals : list Goals.Goal;
  totalProgress : Q
}.

(** [categories[goal.category].goals.push(goal);
     categories[goal.category].totalProgress += goal.progress], creating
    the entry when it is missing; the keys keep their insertion order. *)
Fixpoint addGoal (categories : list (Goals.Category * Bucket))
    (goal : Goals.Goal) : list (Goals.Category * Bucket) :=
  match categories with
  | [] =>
      [ (Goals.category goal,
         {| cat_goals := [ goal ];
            totalProgress := Double.add 0 (Goals.progress goal) |}) ]
  | (c, b) :: rest =>
      if category_eqb c (Goals.category goal) then
        (c, {| cat_goals := cat_goals b ++ [ goal ];
               totalProgress :=
                 Double.add (totalProgress b) (Goals.progress goal) |})
          :: rest
      else (c, b) :: addGoal rest goal
  end.

Record CategoryStats := {
  cs_goals : list Goals.Goal;
  cs_totalProgress : Q;
  avgProgress : Q;
  count : nat
}.

Definition analyzeByCategory (goals : list Goals.Goal)
    : list (Goals.Category * CategoryStats) :=
  let categories := fold_left addGoal goals [] in
  List.map
    (fun entry =>
       let cat := snd entry in
       (fst entry,
        {| cs_goals := cat_goals cat;
           cs_totalProgress := totalProgress cat;
           avgProgress :=
             Double.div (totalProgress cat)
               (inject_Z (Z.of_nat (length (cat_goals cat))));
           count := length (cat_goals cat) |}))
    categories.

(** [categories[key]] *)
Fixpoint lookupCategory {A} (categories : list (Goals.Category * A))
    (key : Goals.Category) : option A :=
  match categories with
  | [] => None
  | (c, a) :: rest =>
      if category_eqb c key then Some a else lookupCategory rest key
  end.

End Trends.

(** ** routes/goals.js: the progress route and the user's counter *)

Module GoalRoutes.

(** [PUT /api/goals/:id/progress] with the counter
    [metrics.completedGoals] of the user document: after the save the
    route runs [$inc: { 'metrics.completedGoals': 1 }] when the goal's
    status is ['completed']. *)
Definition putProgressCounting (found : option Goals.Goal) (newProgress : Q)
    (note : option string) (now later : Z) (completedGoals : Z)
    : Goals.RouteResult * Z :=
  match Goals.putProgress found newProgress note now later with
  | Goals.NotFound404 => (Goals.NotFound404, completedGoals)
  | Goals.Saved goal =>
      (Goals.Saved goal,
       if Goals.status_eqb (Goals.status goal) Goals.completed
       then completedGoals + 1 else completedGoals)
  end.

End GoalRoutes.

(** ** middleware/auth.js: the other guards *)

Module Access.
Import Http.

(** [optionalAuth] always calls [next()]; the result is what it attaches
    to the request. *)
Definition optionalAuth (env : Auth.Env) (authHeader : option string)
    : option (JS.value * string) :=
  match authHeader with
  | None => None
  | Some "" => None
  | Some authHeader =>
      let token :=
        if String.prefix "Bearer " authHeader
        then String.substring 7 (String.length authHeader - 7) authHeader
        else authHeader in
      if String.eqb token "" then None
      else
        match Auth.verify env token with
        | Throws _ => None
        | Ok decoded =>
            match Auth.findById env (JS.member decoded "userId") with
            | Throws _ => None
            | Ok user =>
                if JS.truthy user
                   && negb (JS.strictEq (JS.member user "status")
                              (JS.Str "suspended"))
                   && negb (JS.strictEq (JS.member user "status")
                              (JS.Str "deleted"))
                then Some (user, token)
                else None
            end
        end
  end.

(** [user] is [req.user], [undefined] when nothing was attached. *)
Definition requireAdmin (user : JS.value) : Step unit :=
  if negb (JS.truthy user) then
    Respond (Auth.failure 401 "Authentication required.")
  else if negb (JS.strictEq (JS.member user "role") (JS.Str "admin")) then
    Respond (Auth.failure 403 "Admin access required.")
  else Next tt.

(** [roles.join(', ')] *)
Fixpoint joinRoles (roles : list string) : string :=
  match roles with
  | [] => ""
  | [ r ] => r
  | r :: rest => r +:+ ", " +:+ joinRoles rest
  end.

Definition requireRole (roles : list string) (user : JS.value) : Step unit :=
  if negb (JS.truthy user) then
    Respond (Auth.failure 401 "Authentication required.")
  else if negb (List.existsb
                  (fun r => JS.strictEq (JS.member user "role") (JS.Str r))
                  roles) then
    Respond (Auth.failure 403
               ("Access denied. Required roles: " +:+ joinRoles roles))
  else Next tt.

(** The parts of the request read by [requireOwnership]. *)
Record OwnershipRequest := {
  user : JS.value;
  params : JS.properties;
  body : JS.value;
  query : JS.properties
}.

Definition requireOwnership (resourceUserIdField : string)
    (req : OwnershipRequest) : Step unit :=
  let failed := Respond (Auth.failure 500 "Authorization check failed.") in
  if negb (JS.truthy (user req)) then
    Respond (Auth.failure 401 "Authentication required.")
  else if JS.strictEq (JS.member (user req) "role") (JS.Str "admin") then
    Next tt
  else
    let lookup :=
      if JS.truthy (JS.get (params req) "userId")
      then Some (JS.get (params req) "userId")
      else
        match body req with
        | JS.Undefined | JS.Null => None
        | b =>
            Some (JS.orElse (JS.index b resourceUserIdField)
                    (JS.get (query req) "userId"))
        end in
    match lookup with
    | None => failed
    | Some resourceUserId =>
        if JS.truthy resourceUserId then
          match JS.member (user req) "_id" with
          | JS.Undefined | JS.Null => failed
          | id =>
              if negb (JS.strictEq resourceUserId (JS.Str (JS.toString id)))
              then
                Respond (Auth.failure 403
                           "Access denied. You can only access your own resources.")
              else Next tt
          end
        else Next tt
    end.

End Access.

(** ** middleware/security.js: the stateless guards *)

Module Guards.
Import Http.

(** [s.includes(t)] *)
Fixpoint includes (t s : string) : bool :=
  String.prefix t s
  || match s with
     | EmptyString => false
     | String _ s' => includes t s'
     end.

(** [s.split(sep)] for a one-character separator. *)
Fixpoint split (sep : Ascii.ascii) (s : string) : list string :=
  match s with
  | EmptyString => [ "" ]
  | String c s' =>
      if Ascii.eqb c sep then "" :: split sep s'
      else
        match split sep s' with
        | [] => [ String c "" ]
        | first :: rest => String c first :: rest
        end
  end.

Definition comma : Ascii.ascii := Ascii.ascii_of_nat 44.

Definition nonEmpty (s : option string) : option string :=
  match s with
  | Some "" => None
  | other => other
  end.

Definition denied (code : Z) (message : string) : Response :=
  Json (JS.Num code)
    [ ("success", JS.Bool false); ("error", JS.Str message) ].

(** [ip] is [req.ip] and [remoteAddress] is
    [req.connection.remoteAddress]. *)
Definition ipWhitelist (allowedIPs : list string)
    (ip remoteAddress : option string) : Step unit :=
  let clientIP :=
    match nonEmpty ip with
    | Some a => Some a
    | None => remoteAddress
    end in
  if Nat.ltb 0 (length allowedIPs)
     && negb (match clientIP with
              | Some a => List.existsb (String.eqb a) allowedIPs
              | None => false
              end)
  then Respond (denied 403 "Access denied from this IP address.")
  else Next tt.

(** [VALID_API_KEYS] is [process.env.VALID_API_KEYS] and [apiKey] is
    [req.headers['x-api-key']]. *)
Definition validateApiKey (VALID_API_KEYS : option string)
    (apiKey : option string) : Step unit :=
  let validApiKeys :=
    match nonEmpty VALID_API_KEYS with
    | Some keys => split comma keys
    | None => []
    end in
  if Nat.ltb 0 (length validApiKeys)
     && negb (match apiKey with
              | Some k => List.existsb (String.eqb k) validApiKeys
              | None => false
              end)
  then Respond (denied 401 "Invalid API key.")
  else Next tt.

(** [contentType] is [req.headers['content-type']]. *)
Definition validateContentType (allowedTypes : list string)
    (method : string) (contentType : option string) : Step unit :=
  if negb (String.eqb method "GET") && negb (String.eqb method "DELETE") then
    match nonEmpty contentType with
    | None => Respond (denied 415 "Unsupported content type.")
    | Some contentType =>
        if negb (List.existsb (fun type => includes type contentType)
                   allowedTypes)
        then Respond (denied 415 "Unsupported content type.")
        else Next tt
    end
  else Next tt.

(** The default of [validateContentType(allowedTypes = ...)]. *)
Definition defaultTypes : list string := [ "application/json" ].

(** What [corsOptions.origin] passes to its callback. *)
Inductive CorsDecision :=
| Allowed
| NotAllowed (message : string).

(** [ALLOWED_ORIGINS] is [process.env.ALLOWED_ORIGINS]. *)
Definition corsOrigin (ALLOWED_ORIGINS : option string)
    (origin : option string) : CorsDecision :=
  let allowedOrigins :=
    match nonEmpty ALLOWED_ORIGINS with
    | Some origins => split comma origins
    | None => [ "http://localhost:3000"; "http://localhost:3001" ]
    end in
  match nonEmpty origin with
  | None => Allowed
  | Some origin =>
      if List.existsb (String.eqb origin) allowedOrigins then Allowed
      else NotAllowed "Not allowed by CORS"
  end.

End Guards.

(** ** middleware/validation.js and the schema enums *)

Module Enums.

(** The strings of the schema enums in models/Goal.js and models/User.js. *)
Definition categoryName (c : Goals.Category) : string :=
  match c with
  | Goals.fitness => "fitness"
  | Goals.career => "career"
  | Goals.personal => "personal"
  | Goals.learning => "learning"
  | Goals.relationships => "relationships"
  | Goals.finance => "finance"
  | Goals.health => "health"
  end.

Definition typeName (t : Goals.GoalType) : string :=
  match t with
  | Goals.short_term => "short-term"
  | Goals.long_term => "long-term"
  end.

Definition statusName (s : Goals.Status) : string :=
  match s with
  | Goals.active => "active"
  | Goals.paused => "paused"
  | Goals.completed => "completed"
  | Goals.archived => "archived"
  end.

Definition priorityName (p : Goals.Priority) : string :=
  match p with
  | Goals.low => "low"
  | Goals.medium => "medium"
  | Goals.high => "high"
  end.

(** [preferences.coachingStyle] of models/User.js. *)
Inductive CoachingStyle := supportive | direct | analytical.

Definition coachingStyleName (s : CoachingStyle) : string :=
  match s with
  | supportive => "supportive"
  | direct => "direct"
  | analytical => "analytical"
  end.

(** [list.includes(value)] for a string [value]. *)
Definition isIn (list : list string) (value : string) : bool :=
  List.existsb (String.eqb value) list.

Definition isValidGoalCategory (value : string) : bool :=
  let validCategories :=
    [ "fitness"; "career"; "personal"; "learning"; "relationships";
      "finance"; "health" ] in
  isIn validCategories value.

Definition isValidGoalType (value : string) : bool :=
  let validTypes := [ "short-term"; "long-term" ] in
  isIn validTypes value.

Definition isValidCoachingStyle (value : string) : bool :=
  let validStyles := [ "supportive"; "direct"; "analytical" ] in
  isIn validStyles value.

(** The lists given to [isIn] by [validateUpdateGoal] and
    [validateGoalQuery] for [status], and by [validateCreateGoal] for
    [priority]. *)
Definition statusFilter : list string :=
  [ "active"; "paused"; "completed"; "archived" ].

Definition priorityChoices : list string := [ "low"; "medium"; "high" ].

End Enums.

(** ** routes/chat.js: progress data for the coaching context *)

Module ChatData.

Record ProgressDatum := {
  goalId : string;
  goalTitle : string;
  date : Z;
  progress : Q;
  category : Goals.Category
}.

(** The two nested [forEach] loops: one datum per history entry, goal by
    goal. *)
Definition collect (goals : list (string * Goals.Goal)) : list ProgressDatum :=
  List.flat_map
    (fun g =>
       List.map
         (fun entry =>
            {| goalId := fst g;
               goalTitle := Goals.title (snd g);
               date := Goals.pe_date entry;
               progress := Goals.pe_progress entry;
               category := Goals.category (snd g) |})
         (Goals.progressHistory (snd g)))
    goals.

(** [goals] is the result of [Goal.find({ userId })], each document with
    its identifier. *)
Definition getProgressData (goals : list (string * Goals.Goal))
    : list ProgressDatum :=
  firstn 50
    (GoalAnalysis.sort (fun a b => date b - date a) (collect goals)).

End ChatData.

(** * Properties *)

(** ** Double-precision rounding *)

Module DoubleFacts.
Import Double.
Local Open Scope Q_scope.

(** *** Powers of two *)

Lemma pow2_pos (e : Z) : 0 < pow2 e.
Proof. apply Qpower_0_lt. reflexivity. Qed.

Lemma pow2_add (a b : Z) : pow2 (a + b) == pow2 a * pow2 b.
Proof. apply Qpower_plus. discriminate. Qed.

Lemma pow2_le (a b : Z) : (a <= b)%Z -> pow2 a <= pow2 b.
Proof. intros H. apply Qpower_le_compat_l; [exact H | discriminate]. Qed.

Lemma pow2_lt (a b : Z) : (a < b)%Z -> pow2 a < pow2 b.
Proof. intros H. apply Qpower_lt_compat_l; [exact H | reflexivity]. Qed.

Lemma pow2_lt_inv (a b : Z) : pow2 a < pow2 b -> (a < b)%Z.
Proof. intros H. apply (Qpower_lt_compat_l_inv 2); [exact H | reflexivity]. Qed.

Lemma pow2_Z (e : Z) : (0 <= e)%Z -> pow2 e == inject_Z (2 ^ e).
Proof. intros H. symmetry. apply (Zpower_Qpower 2 e H). Qed.

Lemma pow2_0 : pow2 0 == 1.
Proof. reflexivity. Qed.

Lemma pow2_opp (e : Z) : pow2 (- e) == / pow2 e.
Proof. apply Qpower_opp. Qed.

Lemma pow2_div (q : Q) (e : Z) : q / pow2 e == q * pow2 (- e).
Proof. rewrite pow2_opp. reflexivity. Qed.

Lemma pow2_cancel (e : Z) : pow2 (- e) * pow2 e == 1.
Proof. rewrite <- pow2_add. replace (- e + e)%Z with 0%Z by lia. reflexivity. Qed.

(** *** The binary logarithm *)

Lemma Qlt_num (q : Q) : 0 < q -> (0 < Qnum q)%Z.
Proof. unfold Qlt. simpl. lia. Qed.

Lemma ilog2_spec (q : Q) :
  0 < q -> pow2 (ilog2 q) <= q /\ q < pow2 (ilog2 q + 1).
Proof.
  intros Hq. pose proof (Qlt_num q Hq) as Hn.
  destruct q as [n d]. simpl in Hn. unfold ilog2. cbn [Qnum Qden].
  set (a := Z.log2 n). set (b := Z.log2 (Zpos d)).
  destruct (Z.log2_spec n Hn) as [Ha1 Ha2]. fold a in Ha1, Ha2.
  destruct (Z.log2_spec (Zpos d) ltac:(lia)) as [Hb1 Hb2].
  fold b in Hb1, Hb2.
  assert (Ha : (0 <= a)%Z) by apply Z.log2_nonneg.
  assert (Hb : (0 <= b)%Z) by apply Z.log2_nonneg.
  assert (Hq' : n # d == inject_Z n / inject_Z (Zpos d)).
  { unfold Qeq, Qdiv, Qmult, Qinv, inject_Z. simpl. lia. }
  assert (Hd : 0 < inject_Z (Zpos d)) by (unfold Qlt; simpl; lia).
  assert (Hlow : pow2 (a - b - 1) < n # d).
  { rewrite Hq'. apply Qlt_shift_div_l; [exact Hd |].
    apply Qlt_le_trans with (pow2 (a - b - 1) * pow2 (b + 1)).
    - apply Qmult_lt_l; [apply pow2_pos |].
      rewrite pow2_Z by lia. rewrite <- Zlt_Qlt. lia.
    - rewrite <- pow2_add. replace (a - b - 1 + (b + 1))%Z with a by lia.
      rewrite pow2_Z by lia. rewrite <- Zle_Qle. lia. }
  assert (Hhigh : n # d < pow2 (a - b + 1)).
  { rewrite Hq'. apply Qlt_shift_div_r; [exact Hd |].
    apply Qlt_le_trans with (pow2 (a + 1)).
    - rewrite pow2_Z by lia. rewrite <- Zlt_Qlt. lia.
    - replace (a + 1)%Z with (a - b + 1 + b)%Z by lia. rewrite pow2_add.
      apply Qmult_le_l; [apply pow2_pos |].
      rewrite pow2_Z by lia. rewrite <- Zle_Qle. lia. }
  destruct (Qle_bool (pow2 (a - b)) (n # d)) eqn:Hc.
  - apply Qle_bool_iff in Hc. split; [exact Hc | exact Hhigh].
  - assert (Hlt : n # d < pow2 (a - b)).
    { apply Qnot_le_lt. intros H. apply Qle_bool_iff in H. congruence. }
    split; [apply Qlt_le_weak; exact Hlow |].
    replace (a - b - 1 + 1)%Z with (a - b)%Z by lia. exact Hlt.
Qed.

Lemma ilog2_unique (q : Q) (t : Z) :
  pow2 t <= q -> q < pow2 (t + 1) -> ilog2 q = t.
Proof.
  intros H1 H2.
  assert (Hq : 0 < q) by (eapply Qlt_le_trans; [apply pow2_pos | exact H1]).
  destruct (ilog2_spec q Hq) as [H3 H4].
  assert (ilog2 q < t + 1)%Z.
  { apply pow2_lt_inv. eapply Qle_lt_trans; eassumption. }
  assert (t < ilog2 q + 1)%Z.
  { apply pow2_lt_inv. eapply Qle_lt_trans; eassumption. }
  lia.
Qed.

Lemma ilog2_mono (x y : Q) : 0 < x -> x <= y -> (ilog2 x <= ilog2 y)%Z.
Proof.
  intros Hx Hxy.
  assert (Hy : 0 < y) by (eapply Qlt_le_trans; eassumption).
  destruct (ilog2_spec x Hx) as [H1 _]. destruct (ilog2_spec y Hy) as [_ H2].
  assert (ilog2 x < ilog2 y + 1)%Z; [| lia].
  apply pow2_lt_inv. eapply Qle_lt_trans; [exact H1 |].
  eapply Qle_lt_trans; eassumption.
Qed.

Lemma ilog2_comp (x y : Q) : 0 < x -> x == y -> ilog2 x = ilog2 y.
Proof.
  intros Hx Hxy. destruct (ilog2_spec x Hx) as [H1 H2].
  symmetry. apply ilog2_unique; rewrite <- Hxy; assumption.
Qed.

Lemma ilog2_below (x : Q) (t : Z) : 0 < x -> x < pow2 t -> (ilog2 x < t)%Z.
Proof.
  intros Hx H. destruct (ilog2_spec x Hx) as [H1 _].
  apply pow2_lt_inv. eapply Qle_lt_trans; eassumption.
Qed.


(** *** Rounding to an integer, ties to even *)

Lemma nearestEven_cases (q : Q) :
  (nearestEven q = Qfloor q /\ q - inject_Z (Qfloor q) <= 1 # 2)
  \/ (nearestEven q = (Qfloor q + 1)%Z /\ 1 # 2 <= q - inject_Z (Qfloor q)).
Proof.
  unfold nearestEven.
  destruct (Qcompare_spec (q - inject_Z (Qfloor q)) (1 # 2)) as [H | H | H].
  - destruct (Z.even (Qfloor q)); [left | right]; split;
      first [reflexivity | rewrite H; apply Qle_refl].
  - left. split; [reflexivity | apply Qlt_le_weak; exact H].
  - right. split; [reflexivity | apply Qlt_le_weak; exact H].
Qed.

Lemma floor_bounds (q : Q) :
  inject_Z (Qfloor q) <= q /\ q < inject_Z (Qfloor q) + 1.
Proof.
  split; [apply Qfloor_le |].
  pose proof (Qlt_floor q) as H. rewrite inject_Z_plus in H. exact H.
Qed.

Lemma nearestEven_error (q : Q) :
  inject_Z (nearestEven q) - (1 # 2) <= q
  /\ q <= inject_Z (nearestEven q) + (1 # 2).
Proof.
  destruct (floor_bounds q) as [H1 H2].
  destruct (nearestEven_cases q) as [[-> H] | [-> H]].
  - split; lra.
  - rewrite inject_Z_plus. change (inject_Z 1) with 1. split; lra.
Qed.

Lemma nearestEven_comp (x y : Q) : x == y -> nearestEven x = nearestEven y.
Proof.
  intros H. unfold nearestEven. rewrite (Qfloor_comp x y H).
  rewrite (Qcompare_comp (x - inject_Z (Qfloor y)) (y - inject_Z (Qfloor y))
             ltac:(rewrite H; reflexivity) (1 # 2) (1 # 2) ltac:(reflexivity)).
  reflexivity.
Qed.

Lemma nearestEven_Z (z : Z) : nearestEven (inject_Z z) = z.
Proof.
  unfold nearestEven. rewrite Qfloor_Z.
  assert (Hc : (inject_Z z - inject_Z z ?= 1 # 2) = Lt).
  { apply Qlt_alt.
    assert (H0 : inject_Z z - inject_Z z == 0) by ring.
    rewrite H0. reflexivity. }
  rewrite Hc. reflexivity.
Qed.

Lemma nearestEven_mono (x y : Q) :
  x <= y -> (nearestEven x <= nearestEven y)%Z.
Proof.
  intros Hxy. pose proof (Qfloor_resp_le x y Hxy) as Hf.
  destruct (floor_bounds x) as [Hx1 Hx2]. destruct (floor_bounds y) as [Hy1 Hy2].
  destruct (Z.eq_dec (Qfloor x) (Qfloor y)) as [He | Hne].
  - unfold nearestEven. rewrite He in *.
    destruct (Qcompare_spec (x - inject_Z (Qfloor y)) (1 # 2)) as [Hx | Hx | Hx];
      destruct (Qcompare_spec (y - inject_Z (Qfloor y)) (1 # 2))
        as [Hy | Hy | Hy];
      try destruct (Z.even (Qfloor y)); try lia; exfalso; lra.
  - destruct (nearestEven_cases x) as [[-> _] | [-> _]];
      destruct (nearestEven_cases y) as [[-> _] | [-> _]]; lia.
Qed.

(** *** Rounding a positive number *)

Lemma exponent_mono (x y : Q) : 0 < x -> x <= y -> (exponent x <= exponent y)%Z.
Proof.
  intros Hx Hxy. unfold exponent. pose proof (ilog2_mono x y Hx Hxy). lia.
Qed.

Lemma exponent_comp (x y : Q) : 0 < x -> x == y -> exponent x = exponent y.
Proof. intros Hx H. unfold exponent. rewrite (ilog2_comp x y Hx H). reflexivity. Qed.

(** The scaled number lies below [2^53], and is at least [2^52] unless
    the number is subnormal. *)
Lemma scaled_below (x : Q) :
  0 < x -> x / pow2 (exponent x) < pow2 53.
Proof.
  intros Hx. destruct (ilog2_spec x Hx) as [_ H].
  apply Qlt_shift_div_r; [apply pow2_pos |].
  rewrite <- pow2_add. eapply Qlt_le_trans; [exact H |].
  apply pow2_le. unfold exponent. lia.
Qed.

Lemma scaled_above (x : Q) :
  0 < x -> (-1074 < exponent x)%Z -> pow2 52 <= x / pow2 (exponent x).
Proof.
  intros Hx He. destruct (ilog2_spec x Hx) as [H _].
  apply Qle_shift_div_l; [apply pow2_pos |].
  rewrite <- pow2_add. eapply Qle_trans; [| exact H].
  apply pow2_le. unfold exponent in *. lia.
Qed.

Lemma roundPos_comp (x y : Q) : 0 < x -> x == y -> roundPos x == roundPos y.
Proof.
  intros Hx H. unfold roundPos. rewrite (exponent_comp x y Hx H).
  rewrite (nearestEven_comp (x / pow2 (exponent y)) (y / pow2 (exponent y)))
    by (rewrite H; reflexivity).
  reflexivity.
Qed.

Lemma roundPos_nonneg (x : Q) : 0 < x -> 0 <= roundPos x.
Proof.
  intros Hx. unfold roundPos.
  apply Qmult_le_0_compat; [| apply Qlt_le_weak, pow2_pos].
  change 0 with (inject_Z 0). rewrite <- Zle_Qle.
  rewrite <- (nearestEven_Z 0). apply nearestEven_mono.
  apply Qlt_le_weak. apply Qlt_shift_div_l; [apply pow2_pos |].
  rewrite Qmult_0_l. exact Hx.
Qed.

Lemma roundPos_mono (x y : Q) : 0 < x -> x <= y -> roundPos x <= roundPos y.
Proof.
  intros Hx Hxy.
  assert (Hy : 0 < y) by (eapply Qlt_le_trans; eassumption).
  pose proof (exponent_mono x y Hx Hxy) as He. unfold roundPos.
  destruct (Z.eq_dec (exponent x) (exponent y)) as [Heq | Hne].
  - rewrite Heq. apply Qmult_le_compat_r; [| apply Qlt_le_weak, pow2_pos].
    rewrite <- Zle_Qle. apply nearestEven_mono.
    apply Qmult_le_compat_r; [exact Hxy |].
    apply Qlt_le_weak, Qinv_lt_0_compat, pow2_pos.
  - apply Qle_trans with (pow2 53 * pow2 (exponent x)).
    + apply Qmult_le_compat_r; [| apply Qlt_le_weak, pow2_pos].
      rewrite (pow2_Z 53) by lia. rewrite <- Zle_Qle.
      rewrite <- (nearestEven_Z (2 ^ 53)). apply nearestEven_mono.
      rewrite <- (pow2_Z 53) by lia. apply Qlt_le_weak, scaled_below, Hx.
    + apply Qle_trans with (pow2 52 * pow2 (exponent y)).
      * rewrite <- !pow2_add. apply pow2_le. lia.
      * apply Qmult_le_compat_r; [| apply Qlt_le_weak, pow2_pos].
        rewrite (pow2_Z 52) by lia. rewrite <- Zle_Qle.
        rewrite <- (nearestEven_Z (2 ^ 52)). apply nearestEven_mono.
        rewrite <- (pow2_Z 52) by lia. apply scaled_above; [exact Hy | unfold exponent in *; lia].
Qed.

Lemma roundPos_error (x : Q) :
  0 < x ->
  roundPos x - pow2 (exponent x - 1) <= x
  /\ x <= roundPos x + pow2 (exponent x - 1).
Proof.
  intros Hx. unfold roundPos.
  set (e := exponent x). pose proof (pow2_pos e) as He.
  destruct (nearestEven_error (x / pow2 e)) as [H1 H2].
  set (m := inject_Z (nearestEven (x / pow2 e))) in *.
  assert (Hhalf : pow2 (e - 1) == (1 # 2) * pow2 e).
  { replace (e - 1)%Z with (e + -1)%Z by lia. rewrite pow2_add.
    change (pow2 (-1)) with (1 # 2). ring. }
  assert (Hx' : x == x / pow2 e * pow2 e).
  { field. intros H. rewrite H in He. discriminate He. }
  rewrite Hhalf. split.
  - assert (Hm : m * pow2 e - (1 # 2) * pow2 e == (m - (1 # 2)) * pow2 e)
      by ring.
    rewrite Hm, Hx' at 1.
    apply Qmult_le_compat_r; [exact H1 | apply Qlt_le_weak; exact He].
  - assert (Hm : m * pow2 e + (1 # 2) * pow2 e == (m + (1 # 2)) * pow2 e)
      by ring.
    rewrite Hm, Hx' at 1.
    apply Qmult_le_compat_r; [exact H2 | apply Qlt_le_weak; exact He].
Qed.

(** A positive multiple of [2^-k] below [2^(53-k)] is a double. *)
Lemma roundPos_dyadic (z k : Z) :
  (0 < z < 2 ^ 53)%Z -> (0 <= k <= 1074)%Z ->
  roundPos (inject_Z z * pow2 (- k)) == inject_Z z * pow2 (- k).
Proof.
  intros Hz Hk. set (x := inject_Z z * pow2 (- k)).
  assert (Hx : 0 < x).
  { apply Qmult_lt_0_compat; [| apply pow2_pos].
    change 0 with (inject_Z 0). rewrite <- Zlt_Qlt. lia. }
  assert (Hlt : x < pow2 (53 - k)).
  { unfold x. replace (53 - k)%Z with (53 + - k)%Z by lia. rewrite pow2_add.
    apply Qmult_lt_compat_r; [apply pow2_pos |].
    rewrite pow2_Z by lia. rewrite <- Zlt_Qlt. lia. }
  pose proof (ilog2_below x (53 - k) Hx Hlt) as Hlog.
  assert (He : (exponent x <= - k)%Z) by (unfold exponent; lia).
  unfold roundPos. set (e := exponent x) in *.
  assert (Hscaled : x / pow2 e == inject_Z (z * 2 ^ (- k - e))).
  { unfold x. rewrite pow2_div, inject_Z_mult, <- pow2_Z by lia.
    rewrite <- Qmult_assoc, <- pow2_add.
    replace (- k + - e)%Z with (- k - e)%Z by lia. reflexivity. }
  rewrite (nearestEven_comp _ _ Hscaled), nearestEven_Z.
  rewrite inject_Z_mult, <- pow2_Z by lia.
  rewrite <- Qmult_assoc, <- pow2_add.
  replace (- k - e + e)%Z with (- k)%Z by lia. reflexivity.
Qed.

(** *** Rounding *)

Lemma sign_pos (q : Q) : 0 < q -> exists p, Qnum q = Zpos p.
Proof.
  intros H. apply Qlt_num in H. destruct (Qnum q) as [| p | p]; try lia.
  exists p. reflexivity.
Qed.

Lemma round_pos (q : Q) : 0 < q -> round q == roundPos q.
Proof.
  intros H. destruct (sign_pos q H) as [p Hp]. unfold round. rewrite Hp.
  apply Qred_correct.
Qed.

Lemma round_zero (q : Q) : q == 0 -> round q = 0.
Proof.
  intros H. unfold round.
  assert (Hn : Qnum q = 0%Z).
  { unfold Qeq in H. simpl in H. lia. }
  rewrite Hn. reflexivity.
Qed.

Lemma round_neg (q : Q) : q < 0 -> round q == - roundPos (- q).
Proof.
  intros H. unfold round.
  assert (Hn : (Qnum q < 0)%Z) by (unfold Qlt in H; simpl in H; lia).
  destruct (Qnum q) as [| p | p]; try lia. apply Qred_correct.
Qed.

Lemma round_comp (x y : Q) : x == y -> round x == round y.
Proof.
  intros H. destruct (Q_dec x 0) as [[Hx | Hx] | Hx].
  - assert (Hy : y < 0) by (rewrite <- H; exact Hx).
    rewrite (round_neg x Hx), (round_neg y Hy).
    apply Qopp_comp. apply roundPos_comp; [lra | rewrite H; reflexivity].
  - assert (Hy : 0 < y) by (rewrite <- H; exact Hx).
    rewrite (round_pos x Hx), (round_pos y Hy). apply roundPos_comp; assumption.
  - assert (Hy : y == 0) by (rewrite <- H; exact Hx).
    rewrite (round_zero x Hx), (round_zero y Hy). reflexivity.
Qed.

#[export] Instance round_Proper : Proper (Qeq ==> Qeq) round.
Proof. intros x y H. apply round_comp. exact H. Qed.

#[export] Instance add_Proper : Proper (Qeq ==> Qeq ==> Qeq) add.
Proof. intros x x' Hx y y' Hy. unfold add. rewrite Hx, Hy. reflexivity. Qed.

#[export] Instance sub_Proper : Proper (Qeq ==> Qeq ==> Qeq) sub.
Proof. intros x x' Hx y y' Hy. unfold sub. rewrite Hx, Hy. reflexivity. Qed.

#[export] Instance div_Proper : Proper (Qeq ==> Qeq ==> Qeq) div.
Proof. intros x x' Hx y y' Hy. unfold div. rewrite Hx, Hy. reflexivity. Qed.

Lemma round_nonneg (x : Q) : 0 <= x -> 0 <= round x.
Proof.
  intros H. destruct (Qle_lt_or_eq 0 x H) as [Hx | Hx].
  - rewrite (round_pos x Hx). apply roundPos_nonneg. exact Hx.
  - rewrite (round_zero x) by (symmetry; exact Hx). apply Qle_refl.
Qed.

Lemma round_mono (x y : Q) : 0 <= x -> x <= y -> round x <= round y.
Proof.
  intros Hx Hxy. destruct (Qle_lt_or_eq 0 x Hx) as [H | H].
  - assert (Hy : 0 < y) by (eapply Qlt_le_trans; eassumption).
    rewrite (round_pos x H), (round_pos y Hy). apply roundPos_mono; assumption.
  - rewrite (round_zero x) by (symmetry; exact H).
    apply round_nonneg. eapply Qle_trans; eassumption.
Qed.

(** A multiple of [2^-k] between 0 and [2^(53-k)] is a double. *)
Lemma round_dyadic (z k : Z) :
  (0 <= z < 2 ^ 53)%Z -> (0 <= k <= 1074)%Z ->
  round (inject_Z z * pow2 (- k)) == inject_Z z * pow2 (- k).
Proof.
  intros Hz Hk. destruct (Z.eq_dec z 0%Z) as [-> | Hne].
  - rewrite round_zero by ring. ring.
  - rewrite round_pos.
    + apply roundPos_dyadic; lia.
    + apply Qmult_lt_0_compat; [| apply pow2_pos].
      change 0 with (inject_Z 0). rewrite <- Zlt_Qlt. lia.
Qed.

Lemma round_Z (z : Z) :
  (0 <= z < 2 ^ 53)%Z -> round (inject_Z z) == inject_Z z.
Proof.
  intros Hz. pose proof (round_dyadic z 0 Hz ltac:(lia)) as H.
  change (pow2 (- 0)) with 1 in H. rewrite Qmult_1_r in H. exact H.
Qed.

(** The error of rounding a number below [2^t]. *)
Lemma round_error (x : Q) (t : Z) :
  0 <= x -> x < pow2 t -> (-1021 <= t)%Z ->
  round x - pow2 (t - 54) <= x /\ x <= round x + pow2 (t - 54).
Proof.
  intros Hx Ht Hmin. destruct (Qle_lt_or_eq 0 x Hx) as [H | H].
  - rewrite (round_pos x H). destruct (roundPos_error x H) as [H1 H2].
    pose proof (ilog2_below x t H Ht) as Hlog.
    assert (He : pow2 (exponent x - 1) <= pow2 (t - 54)).
    { apply pow2_le. unfold exponent. lia. }
    split; lra.
  - rewrite (round_zero x) by (symmetry; exact H).
    pose proof (pow2_pos (t - 54)). split; lra.
Qed.


(** Rounding a quotient [s / n] between 0 and 100, with fewer than [2^40]
    in the denominator, never moves it across a multiple [j / 2] of one
    half: the quotient is too far from the multiples it does not hit. *)
Lemma round_keeps_side (s n j : Z) :
  (0 < n < 2 ^ 40)%Z -> (0 <= s <= 100 * n)%Z -> (0 <= j < 2 ^ 53)%Z ->
  (inject_Z j / 2 <= inject_Z s / inject_Z n ->
   inject_Z j / 2 <= round (inject_Z s / inject_Z n))
  /\ (inject_Z s / inject_Z n < inject_Z j / 2 ->
      round (inject_Z s / inject_Z n) < inject_Z j / 2).
Proof.
  intros Hn Hs Hj. set (m := inject_Z s / inject_Z n).
  assert (Hn0 : 0 < inject_Z n).
  { change 0 with (inject_Z 0). rewrite <- Zlt_Qlt. lia. }
  assert (Hm0 : 0 <= m).
  { unfold m. apply Qle_shift_div_l; [exact Hn0 |]. rewrite Qmult_0_l.
    change 0 with (inject_Z 0). rewrite <- Zle_Qle. lia. }
  assert (Hm100 : m <= 100).
  { unfold m. apply Qle_shift_div_r; [exact Hn0 |].
    change 100 with (inject_Z 100). rewrite <- inject_Z_mult, <- Zle_Qle. lia. }
  assert (Hhalf : inject_Z j / 2 == inject_Z j * pow2 (-1)).
  { change (pow2 (-1)) with (1 # 2). unfold Qdiv. reflexivity. }
  split.
  - intros Hle. pose proof (round_dyadic j 1 Hj ltac:(lia)) as Hd.
    apply Qle_trans with (round (inject_Z j / 2)).
    + rewrite (round_comp _ _ Hhalf), Hd, Hhalf. apply Qle_refl.
    + apply round_mono; [| exact Hle].
      apply Qle_shift_div_l; [reflexivity |].
      rewrite Qmult_0_l. change 0 with (inject_Z 0). rewrite <- Zle_Qle. lia.
  - intros Hlt.
    assert (Hint : (2 * s + 1 <= j * n)%Z).
    { assert (H : (2 * s < j * n)%Z); [| lia].
      rewrite Zlt_Qlt, !inject_Z_mult. change (inject_Z 2) with 2.
      assert (He : inject_Z s == m * inject_Z n).
      { unfold m. field. intros H. rewrite H in Hn0. discriminate Hn0. }
      rewrite He.
      assert (Hmul : m * inject_Z n < inject_Z j / 2 * inject_Z n).
      { apply Qmult_lt_compat_r; assumption. }
      assert (Hr : inject_Z j / 2 * inject_Z n
                   == (1 # 2) * (inject_Z j * inject_Z n)) by field.
      rewrite Hr in Hmul. lra. }
    assert (Hgap : m + 1 / (2 * inject_Z n) <= inject_Z j / 2).
    { assert (He : m + 1 / (2 * inject_Z n)
                   == inject_Z (2 * s + 1) / (2 * inject_Z n)).
      { unfold m. rewrite inject_Z_plus, inject_Z_mult.
        change (inject_Z 2) with 2. change (inject_Z 1) with 1.
        field. intros H. rewrite H in Hn0. discriminate Hn0. }
      rewrite He. apply Qle_shift_div_r; [lra |].
      rewrite Zle_Qle, inject_Z_mult in Hint.
      assert (Hr : inject_Z j / 2 * (2 * inject_Z n) == inject_Z j * inject_Z n)
        by (field).
      rewrite Hr. exact Hint. }
    assert (Hsmall : pow2 (-41) <= 1 / (2 * inject_Z n)).
    { apply Qle_shift_div_l; [lra |].
      apply Qle_trans with (pow2 (-41) * pow2 41).
      - apply Qmult_le_l; [apply pow2_pos |].
        rewrite (pow2_Z 41) by lia.
        change 2 with (inject_Z 2). rewrite <- inject_Z_mult, <- Zle_Qle.
        change (2 ^ 41)%Z with (2 * 2 ^ 40)%Z. lia.
      - rewrite (pow2_cancel 41). apply Qle_refl. }
    assert (Hm128 : m < pow2 7).
    { eapply Qle_lt_trans; [exact Hm100 | reflexivity]. }
    destruct (round_error m 7 Hm0 Hm128 ltac:(lia)) as [Herr _].
    change (7 - 54)%Z with (-47)%Z in Herr.
    pose proof (pow2_lt (-47) (-41) ltac:(lia)) as Hpow.
    lra.
Qed.


(** *** Sums and means *)

(** The double-precision sum of numbers between two whole bounds lies
    between the bounds times their number. *)
Lemma sum_between (L U : Z) (l : list Q) :
  (0 <= L <= U)%Z -> (U <= 2 ^ 12)%Z ->
  Forall (fun x => inject_Z L <= x /\ x <= inject_Z U) l ->
  forall (acc : Q) (a : Z),
    (0 <= a)%Z -> (a + Z.of_nat (length l) < 2 ^ 40)%Z ->
    inject_Z (L * a) <= acc -> acc <= inject_Z (U * a) ->
    inject_Z (L * (a + Z.of_nat (length l))) <= fold_left add l acc
    /\ fold_left add l acc <= inject_Z (U * (a + Z.of_nat (length l))).
Proof.
  intros HL HU. induction 1 as [| x l [Hx0 Hx1] _ IH];
    intros acc a Ha Hlen Hacc0 Hacc1.
  - simpl. rewrite Z.add_0_r. split; assumption.
  - simpl fold_left. simpl length in *.
    replace (a + Z.of_nat (S (length l)))%Z
      with (a + 1 + Z.of_nat (length l))%Z by lia.
    assert (Hbig : (U * (a + 1) < 2 ^ 53)%Z).
    { apply Z.le_lt_trans with (2 ^ 12 * (a + 1))%Z; [nia |].
      change (2 ^ 53)%Z with (2 ^ 12 * 2 ^ 41)%Z. 
      apply Z.mul_lt_mono_pos_l; [lia |].
      change (2 ^ 41)%Z with (2 * 2 ^ 40)%Z. lia. }
    assert (H0 : 0 <= inject_Z (L * (a + 1))).
    { change 0 with (inject_Z 0). rewrite <- Zle_Qle. nia. }
    assert (Hlow : inject_Z (L * (a + 1)) <= acc + x).
    { replace (L * (a + 1))%Z with (L * a + L)%Z by lia.
      rewrite inject_Z_plus. lra. }
    assert (Hhigh : acc + x <= inject_Z (U * (a + 1))).
    { replace (U * (a + 1))%Z with (U * a + U)%Z by lia.
      rewrite inject_Z_plus. lra. }
    apply IH; [lia | lia | |]; unfold add.
    + rewrite <- (round_Z (L * (a + 1))) by nia.
      apply round_mono; assumption.
    + rewrite <- (round_Z (U * (a + 1))) by nia.
      apply round_mono; [lra | exact Hhigh].
Qed.

(** So does their double-precision mean lie between the bounds. *)
Lemma mean_between (L U : Z) (l : list Q) :
  (0 <= L <= U)%Z -> (U <= 2 ^ 12)%Z ->
  l <> [] -> (Z.of_nat (length l) < 2 ^ 40)%Z ->
  Forall (fun x => inject_Z L <= x /\ x <= inject_Z U) l ->
  inject_Z L <= div (fold_left add l 0) (inject_Z (Z.of_nat (length l)))
  /\ div (fold_left add l 0) (inject_Z (Z.of_nat (length l))) <= inject_Z U.
Proof.
  intros HL HU Hne Hlen Hl.
  destruct (sum_between L U l HL HU Hl 0 0%Z ltac:(lia) ltac:(lia))
    as [H0 H1].
  - rewrite Z.mul_0_r. apply Qle_refl.
  - rewrite Z.mul_0_r. apply Qle_refl.
  - rewrite Z.add_0_l, inject_Z_mult in H0, H1.
    set (n := inject_Z (Z.of_nat (length l))) in *.
    assert (Hn : 0 < n).
    { unfold n. change 0 with (inject_Z 0). rewrite <- Zlt_Qlt.
      destruct l; [contradiction | simpl; lia]. }
    assert (HL0 : 0 <= inject_Z L).
    { change 0 with (inject_Z 0). rewrite <- Zle_Qle. lia. }
    assert (Hq0 : inject_Z L <= fold_left add l 0 / n).
    { apply Qle_shift_div_l; assumption. }
    assert (Hq1 : fold_left add l 0 / n <= inject_Z U).
    { apply Qle_shift_div_r; assumption. }
    unfold div. split.
    + rewrite <- (round_Z L) by lia. apply round_mono; assumption.
    + rewrite <- (round_Z U) by lia. apply round_mono; [lra | exact Hq1].
Qed.

End DoubleFacts.

(** ** The rounding model against binary64 numbers *)

#[local] Set Warnings "-inexact-float".

Module DoubleSamples.
Import Stdlib.Floats.PrimFloat Stdlib.Floats.SpecFloat Stdlib.Floats.FloatOps.

(** The rational value of a finite binary64 number. *)
Definition toQ (f : float) : Q :=
  match Prim2SF f with
  | S754_finite s m e =>
      Qred ((if s then -1 else 1) * inject_Z (Zpos m) * Double.pow2 e)
  | _ => 0%Q
  end.

Definition samples : list float :=
  [ 79.6; 57.4; 0.1; 0.2; 0.3; 1; 3; 7; 100; 33.333; 6.6; 18.4; 14.0; 6.2;
    0.5; 1.5; 2.5; 80; 79.99999999999999; 68.5; 1e-5; 1e22;
    123456789.123; 9007199254740993; 3.141592653589793;
    1e-320; 4.9e-324; 2.5e-310 ]%float.

(** The model gives the value of the binary64 operation on every pair of
    samples whose result is a number. *)
Definition agree (model : Q -> Q -> Q) (op : float -> float -> float)
    : bool :=
  forallb
    (fun a =>
       forallb
         (fun b =>
            match Prim2SF (op a b) with
            | S754_finite _ _ _ | S754_zero _ =>
                Qeq_bool (model (toQ a) (toQ b)) (toQ (op a b))
            | _ => true
            end)
         samples)
    samples.

Example add_agrees : agree Double.add PrimFloat.add = true.
Proof. vm_compute. reflexivity. Qed.

Example sub_agrees : agree Double.sub PrimFloat.sub = true.
Proof. vm_compute. reflexivity. Qed.

Example div_agrees : agree Double.div PrimFloat.div = true.
Proof. vm_compute. reflexivity. Qed.

End DoubleSamples.


(** ** Goals: progress updates and check-ins *)

Module GoalsProofs.
Import Goals.

Lemma status_eqb_eq a b : status_eqb a b = true <-> a = b.
Proof. destruct a, b; simpl; split; intros H; congruence. Qed.

Lemma clamp_lower (x : Q) : (0 <= Math.max 0 (Math.min 100 x))%Q.
Proof. unfold Math.max. apply Q.le_max_l. Qed.

Lemma clamp_upper (x : Q) : (Math.max 0 (Math.min 100 x) <= 100)%Q.
Proof.
  unfold Math.max, Math.min. apply Q.max_lub.
  - discriminate.
  - apply Q.le_min_l.
Qed.

(** The clamp written with comparisons instead of [max] and [min]. *)
Definition clampSpec (x : Q) : Q :=
  if Qle_bool x 0 then 0%Q else if Qle_bool 100 x then 100%Q else x.

Lemma clamp_spec (x : Q) : (Math.max 0 (Math.min 100 x) == clampSpec x)%Q.
Proof.
  unfold clampSpec, Math.max, Math.min.
  destruct (Qle_bool x 0) eqn:Hlow.
  - apply Qle_bool_iff in Hlow.
    apply Q.max_l. eapply Qle_trans; [apply Q.le_min_r | exact Hlow].
  - destruct (Qle_bool 100 x) eqn:Hhigh.
    + apply Qle_bool_iff in Hhigh.
      rewrite (Q.min_l 100 x Hhigh). apply Q.max_r. discriminate.
    + assert (Hx0 : (0 < x)%Q).
      { apply Qnot_le_lt. intros H. apply Qle_bool_iff in H. congruence. }
      assert (Hx100 : (x < 100)%Q).
      { apply Qnot_le_lt. intros H. apply Qle_bool_iff in H. congruence. }
      rewrite (Q.min_r 100 x (Qlt_le_weak _ _ Hx100)).
      apply Q.max_r. apply Qlt_le_weak. exact Hx0.
Qed.

(** C1. [updateProgress] stores [max(0, min(100, newProgress))] as the
    goal's progress; the stored value lies in the interval [0,100], and it
    is [newProgress] itself inside the interval, 0 below it and 100 above
    it. *)
Theorem C1_updateProgress_clamps (this : Goal) (newProgress : Q)
    (note : option string) (now later : Z) :
  let goal := updateProgress this newProgress note now later in
  progress goal = Math.max 0 (Math.min 100 newProgress)
  /\ (0 <= progress goal)%Q
  /\ (progress goal <= 100)%Q
  /\ (progress goal == clampSpec newProgress)%Q.
Proof.
  simpl. split; [reflexivity |].
  split; [apply clamp_lower |].
  split; [apply clamp_upper | apply clamp_spec].
Qed.

Definition sampleBody : NewGoalBody :=
  {| n_title := "Run a marathon"; n_description := None;
     n_category := fitness; n_type := long_term;
     n_targetDate := None; n_milestones := [] |}.

Example progress_above_range :
  progress (updateProgress (newGoal "u1" sampleBody 0) 150 None 1 1) = 100%Q.
Proof. reflexivity. Qed.

Example progress_below_range :
  progress (updateProgress (newGoal "u1" sampleBody 0) (-5) None 1 1) = 0%Q.
Proof. reflexivity. Qed.

Example progress_in_range :
  progress (updateProgress (newGoal "u1" sampleBody 0) (67 # 2) None 1 1)
  = (67 # 2)%Q.
Proof. reflexivity. Qed.

(** Some entry of the progress history recorded a progress of 100. *)
Definition reached100 (goal : Goal) : Prop :=
  Exists (fun e => (pe_progress e == 100)%Q) (progressHistory goal).

(** The invariant kept by both operations. *)
Definition completedInv (goal : Goal) : Prop :=
  ((progress goal == 100)%Q -> status goal = completed)
  /\ (status goal = completed <-> reached100 goal).

Lemma completedInv_newGoal uid body now : completedInv (newGoal uid body now).
Proof.
  split; simpl.
  - intros H. discriminate H.
  - unfold reached100. simpl. split; [discriminate | intros H; inversion H].
Qed.

Lemma completedInv_updateProgress goal p note now later :
  completedInv goal -> completedInv (updateProgress goal p note now later).
Proof.
  intros [_ Hhist]. unfold completedInv, reached100 in *.
  unfold updateProgress. simpl.
  set (p' := Math.max 0 (Math.min 100 p)).
  destruct (Qeq_bool p' 100) eqn:Hp; simpl.
  - apply Qeq_bool_iff in Hp.
    assert (Hstatus :
      (if negb (status_eqb (status goal) completed)
       then completed else status goal) = completed).
    { destruct (status_eqb (status goal) completed) eqn:Hs; simpl.
      - apply status_eqb_eq. exact Hs.
      - reflexivity. }
    rewrite Hstatus. split; [reflexivity |].
    split; [| reflexivity].
    intros _. apply Exists_app. right. constructor. exact Hp.
  - assert (Hne : ~ (p' == 100)%Q).
    { intros H. apply Qeq_bool_iff in H. congruence. }
    split; [intros H; contradiction |].
    rewrite Exists_app, Hhist. split; [tauto |].
    intros [H | H]; [exact H |].
    inversion H as [? ? H1 | ? ? H1]; subst; simpl in *;
      [contradiction | inversion H1].
Qed.

Lemma completedInv_pushCheckIn goal body now :
  completedInv goal -> completedInv (pushCheckIn goal body now).
Proof. intros H. exact H. Qed.

Lemma completedInv_applyOps ops goal :
  completedInv goal -> completedInv (applyOps goal ops).
Proof.
  revert goal. induction ops as [| op ops IH]; intros goal H; [exact H |].
  unfold applyOps in *. simpl. apply IH.
  destruct op; simpl.
  - apply completedInv_updateProgress. exact H.
  - apply completedInv_pushCheckIn. exact H.
Qed.

(** C2, as amended. On every goal reachable from a freshly created one by
    progress updates and check-ins, a progress of 100 implies the status
    [completed], and the status is [completed] exactly when some progress
    update so far recorded a progress of 100. *)
Theorem C2_completed_iff_reached_100 (goal : Goal) :
  reachable goal ->
  ((progress goal == 100)%Q -> status goal = completed)
  /\ (status goal = completed <-> reached100 goal).
Proof.
  intros (uid & body & now & ops & ->).
  apply completedInv_applyOps, completedInv_newGoal.
Qed.

(** A goal completed at 100 and then moved back to 50. *)
Definition loweredGoal : Goal :=
  applyOps (newGoal "u1" sampleBody 0)
    [ OpUpdateProgress 100 None 1 1; OpUpdateProgress 50 None 2 2 ].

Lemma loweredGoal_reachable : reachable loweredGoal.
Proof.
  exists "u1", sampleBody, 0,
    [ OpUpdateProgress 100 None 1 1; OpUpdateProgress 50 None 2 2 ].
  reflexivity.
Qed.

Lemma C2_witness :
  reachable loweredGoal
  /\ ((progress loweredGoal == 100)%Q -> status loweredGoal = completed)
  /\ (status loweredGoal = completed <-> reached100 loweredGoal).
Proof.
  assert (Hreach : reachable loweredGoal).
  { exists "u1", sampleBody, 0,
      [ OpUpdateProgress 100 None 1 1; OpUpdateProgress 50 None 2 2 ].
    reflexivity. }
  split; [exact Hreach |].
  apply (C2_completed_iff_reached_100 loweredGoal). exact Hreach.
Defined.

(** C2 as stated fails: after reaching 100 the status stays [completed]
    when a later update lowers the progress. *)
Lemma C2_counterexample :
  reachable loweredGoal
  /\ status loweredGoal = completed
  /\ (progress loweredGoal == 50)%Q
  /\ ~ (progress loweredGoal == 100)%Q
  /\ ~ (status loweredGoal = completed <-> (progress loweredGoal == 100)%Q).
Proof.
  assert (Hne : ~ (progress loweredGoal == 100)%Q).
  { intros Hp. vm_compute in Hp. discriminate Hp. }
  split; [exact loweredGoal_reachable |].
  split; [reflexivity |].
  split; [reflexivity |].
  split; [exact Hne |].
  intros [H _]. apply Hne, H. reflexivity.
Qed.




End GoalsProofs.

(** ** Goal analysis: overall progress and recommendations *)

Module GoalAnalysisProofs.
Import GoalAnalysis.

(** *** Overall progress *)

Definition sumQ (l : list Q) : Q := fold_right Qplus 0%Q l.

(** The arithmetic mean of a list of numbers. *)
Definition mean (l : list Q) : Q :=
  (sumQ l / inject_Z (Z.of_nat (length l)))%Q.

(** The progress values of the active goals. *)
Definition activeProgress (goals : list Goals.Goal) : list Q :=
  List.map Goals.progress (List.filter isActive goals).

Definition countActive (goals : list Goals.Goal) : nat :=
  length (List.filter isActive goals).

Definition countCompleted (goals : list Goals.Goal) : nat :=
  length (List.filter isCompleted goals).

(** [z] is [x] rounded to the nearest integer, a tie going up. *)
Definition nearestInteger (x : Q) (z : Z) : Prop :=
  (x - (1 # 2) < inject_Z z)%Q /\ (inject_Z z <= x + (1 # 2))%Q.

Lemma round_nearest (x : Q) : nearestInteger x (Math.round x).
Proof.
  unfold nearestInteger, Math.round.
  pose proof (Qlt_floor (x + (1 # 2))) as Hlt.
  pose proof (Qfloor_le (x + (1 # 2))) as Hle.
  rewrite inject_Z_plus in Hlt. change (inject_Z 1) with 1%Q in Hlt.
  split; lra.
Qed.

Lemma nearestInteger_unique (x : Q) (z1 z2 : Z) :
  nearestInteger x z1 -> nearestInteger x z2 -> z1 = z2.
Proof.
  intros [H1 H2] [H3 H4].
  assert (Ha : (inject_Z z1 < inject_Z (z2 + 1))%Q).
  { rewrite inject_Z_plus. change (inject_Z 1) with 1%Q. lra. }
  assert (Hb : (inject_Z z2 < inject_Z (z1 + 1))%Q).
  { rewrite inject_Z_plus. change (inject_Z 1) with 1%Q. lra. }
  rewrite <- Zlt_Qlt in Ha, Hb. lia.
Qed.

(** The mean as the code computes it: the values are added from left
    to right, starting from 0, and the sum is divided by their number;
    every sum and the quotient are rounded to a double. *)
Definition doubleMean (l : list Q) : Q :=
  Double.div (fold_left Double.add l 0%Q) (inject_Z (Z.of_nat (length l))).

Lemma reduce_progress (l : list Goals.Goal) (a : Q) :
  fold_left (fun sum goal => Double.add sum (Goals.progress goal)) l a
  = fold_left Double.add (List.map Goals.progress l) a.
Proof.
  revert a. induction l as [| g l IH]; intros a; simpl;
    [reflexivity | apply IH].
Qed.

Lemma average_doubleMean (goals : list Goals.Goal) :
  Double.div
    (fold_left (fun sum goal => Double.add sum (Goals.progress goal))
       (List.filter isActive goals) 0%Q)
    (inject_Z (Z.of_nat (length (List.filter isActive goals))))
  = doubleMean (activeProgress goals).
Proof.
  unfold doubleMean, activeProgress. rewrite length_map, reduce_progress.
  reflexivity.
Qed.

Lemma ge_spec (a b : Q) : ge a b = true <-> (b <= a)%Q.
Proof. unfold ge. apply Qle_bool_iff. Qed.

Lemma ge_false (a b : Q) : ge a b = false <-> (a < b)%Q.
Proof.
  unfold ge. split.
  - intros H. apply Qnot_le_lt. intros Hle.
    apply Qle_bool_iff in Hle. congruence.
  - intros H. destruct (Qle_bool b a) eqn:E; [| reflexivity].
    apply Qle_bool_iff in E. exfalso. exact (Qlt_not_le _ _ H E).
Qed.

(** The label for a mean, stated with the thresholds 80, 60 and 40. *)
Definition labelled (m : Q) (label : string) : Prop :=
  ((80 <= m)%Q -> label = "excellent")
  /\ ((60 <= m)%Q -> (m < 80)%Q -> label = "good")
  /\ ((40 <= m)%Q -> (m < 60)%Q -> label = "fair")
  /\ ((m < 40)%Q -> label = "needs_attention").

Lemma getProgressStatus_labelled (m : Q) : labelled m (getProgressStatus m).
Proof.
  unfold labelled, getProgressStatus, progressThresholds; simpl.
  destruct (ge m 80) eqn:H80; [apply ge_spec in H80 | apply ge_false in H80];
  [| destruct (ge m 60) eqn:H60;
     [apply ge_spec in H60 | apply ge_false in H60];
     [| destruct (ge m 40) eqn:H40;
        [apply ge_spec in H40 | apply ge_false in H40]]];
  repeat split; intros; try reflexivity; exfalso;
    repeat match goal with
      | Hlt : (?a < ?b)%Q, Hle : (?b <= ?a)%Q |- _ =>
          exact (Qlt_not_le _ _ Hlt Hle)
      | Hlt : (?a < ?b)%Q, Hle : (?c <= ?a)%Q |- _ =>
          assert (c < b)%Q by (eapply Qle_lt_trans; eassumption);
          discriminate
      end.
Qed.

Lemma ge_compat (a b c : Q) : (a == b)%Q -> ge a c = ge b c.
Proof.
  intros H.
  destruct (ge a c) eqn:Ha, (ge b c) eqn:Hb; try reflexivity;
    rewrite ?ge_spec, ?ge_false in *; lra.
Qed.

Lemma getProgressStatus_compat (a b : Q) :
  (a == b)%Q -> getProgressStatus a = getProgressStatus b.
Proof.
  intros H. unfold getProgressStatus.
  rewrite !(ge_compat a b _ H). reflexivity.
Qed.

Lemma round_compat (a b : Q) : (a == b)%Q -> Math.round a = Math.round b.
Proof.
  intros H. unfold Math.round. apply Qfloor_comp. rewrite H. reflexivity.
Qed.

Lemma filter_length_zero {A} (f : A -> bool) (l : list A) :
  length (List.filter f l) = 0%nat <-> Forall (fun x => f x = false) l.
Proof.
  induction l as [| x l IH]; simpl.
  - split; [constructor | reflexivity].
  - destruct (f x) eqn:E; simpl.
    + split; [discriminate | intros H; inversion H; congruence].
    + rewrite IH. split; [intros H; constructor; assumption |].
      intros H. inversion H. assumption.
Qed.

Lemma isActive_false (g : Goals.Goal) :
  isActive g = false <-> Goals.status g <> Goals.active.
Proof.
  unfold isActive. destruct (Goals.status g); simpl;
    split; intros H; congruence.
Qed.

Lemma isCompleted_false (g : Goals.Goal) :
  isCompleted g = false <-> Goals.status g <> Goals.completed.
Proof.
  unfold isCompleted. destruct (Goals.status g); simpl;
    split; intros H; congruence.
Qed.

(** *** Whole numbers of per cent *)

(** A whole number between 0 and 100. *)
Definition wholePercent (x : Q) : Prop :=
  exists z : Z, (0 <= z <= 100)%Z /\ (x == inject_Z z)%Q.

Lemma sumQ_whole (l : list Q) :
  Forall wholePercent l ->
  exists s : Z,
    (0 <= s <= 100 * Z.of_nat (length l))%Z /\ (sumQ l == inject_Z s)%Q.
Proof.
  intros Hl. induction Hl as [| x l (z & Hz & Hx) Hl (s & Hs & IH)].
  - exists 0%Z. split; [simpl; lia | reflexivity].
  - exists (z + s)%Z. split; [simpl length; lia |].
    simpl sumQ. rewrite IH, Hx, inject_Z_plus. reflexivity.
Qed.

(** The double-precision sum of whole per cents is exact. *)
Lemma double_sum_whole (l : list Q) :
  Forall wholePercent l ->
  forall (acc : Q) (a : Z),
    (acc == inject_Z a)%Q -> (0 <= a)%Z ->
    (a + 100 * Z.of_nat (length l) < 2 ^ 53)%Z ->
    (fold_left Double.add l acc == acc + sumQ l)%Q.
Proof.
  intros Hl. induction Hl as [| x l (z & Hz & Hx) Hl IH];
    intros acc a Hacc Ha Hbound.
  - simpl. ring.
  - simpl fold_left. simpl sumQ.
    assert (Hstep : (Double.add acc x == inject_Z (a + z))%Q).
    { unfold Double.add.
      rewrite (DoubleFacts.round_comp (acc + x) (inject_Z (a + z)))
        by (rewrite Hacc, Hx, inject_Z_plus; reflexivity).
      apply DoubleFacts.round_Z. simpl length in Hbound. lia. }
    rewrite (IH (Double.add acc x) (a + z)%Z Hstep)
      by (simpl length in Hbound; lia).
    rewrite Hstep, Hacc, Hx, inject_Z_plus. ring.
Qed.

(** For whole per cents the computed mean is the rounded exact mean, a
    quotient of two integers. *)
Lemma doubleMean_whole (l : list Q) :
  Forall wholePercent l ->
  (0 < Z.of_nat (length l) < 2 ^ 40)%Z ->
  exists s : Z,
    (0 <= s <= 100 * Z.of_nat (length l))%Z
    /\ (mean l == inject_Z s / inject_Z (Z.of_nat (length l)))%Q
    /\ (doubleMean l
        == Double.round (inject_Z s / inject_Z (Z.of_nat (length l))))%Q.
Proof.
  intros Hl Hn. destruct (sumQ_whole l Hl) as (s & Hs & Hsum).
  exists s. split; [exact Hs |]. split.
  - unfold mean. rewrite Hsum. reflexivity.
  - unfold doubleMean, Double.div. apply DoubleFacts.round_comp.
    rewrite (double_sum_whole l Hl 0%Q 0%Z) by (reflexivity || lia).
    rewrite Hsum. apply Qdiv_comp; [ring | reflexivity].
Qed.

Section WholeQuotient.
Context (s n : Z).
Hypothesis Hn : (0 < n < 2 ^ 40)%Z.
Hypothesis Hs : (0 <= s <= 100 * n)%Z.

Let m : Q := (inject_Z s / inject_Z n)%Q.

Lemma quotient_range : (0 <= m <= 100)%Q.
Proof.
  assert (Hn0 : (0 < inject_Z n)%Q).
  { change 0%Q with (inject_Z 0). rewrite <- Zlt_Qlt. lia. }
  unfold m. split.
  - apply Qle_shift_div_l; [exact Hn0 |]. rewrite Qmult_0_l.
    change 0%Q with (inject_Z 0). rewrite <- Zle_Qle. lia.
  - apply Qle_shift_div_r; [exact Hn0 |].
    change 100%Q with (inject_Z 100).
    rewrite <- inject_Z_mult, <- Zle_Qle. lia.
Qed.

Lemma rounded_range : (0 <= Double.round m <= 100)%Q.
Proof.
  destruct quotient_range as [H0 H100]. split.
  - apply DoubleFacts.round_nonneg. exact H0.
  - rewrite <- (DoubleFacts.round_Z 100) by lia.
    apply DoubleFacts.round_mono; assumption.
Qed.

(** [Math.round] gives the same integer for the rounded quotient as for
    the exact one. *)
Lemma whole_round : Math.round (Double.round m) = Math.round m.
Proof.
  apply (nearestInteger_unique m); [| apply round_nearest].
  set (z := Math.round (Double.round m)).
  destruct (round_nearest (Double.round m)) as [H1 H2]. fold z in H1, H2.
  destruct rounded_range as [Hr0 Hr100].
  destruct quotient_range as [Hm0 Hm100].
  assert (Hz : (0 <= z <= 100)%Z).
  { assert (Ha : (inject_Z (-1) < inject_Z z)%Q)
      by (change (inject_Z (-1)) with (-1)%Q; lra).
    assert (Hb : (inject_Z z < inject_Z 101)%Q)
      by (change (inject_Z 101) with 101%Q; lra).
    rewrite <- Zlt_Qlt in Ha, Hb. lia. }
  assert (Hup : (inject_Z (2 * z + 1) / 2 == inject_Z z + (1 # 2))%Q).
  { rewrite inject_Z_plus, inject_Z_mult.
    change (inject_Z 2) with 2%Q. change (inject_Z 1) with 1%Q. field. }
  assert (Hdown : (inject_Z (2 * z - 1) / 2 == inject_Z z - (1 # 2))%Q).
  { unfold Z.sub. rewrite inject_Z_plus, inject_Z_mult.
    change (inject_Z 2) with 2%Q. change (inject_Z (- (1))) with (-1)%Q.
    field. }
  split.
  - destruct (Qlt_le_dec (m - (1 # 2)) (inject_Z z)) as [H | H];
      [exact H | exfalso].
    destruct (DoubleFacts.round_keeps_side s n (2 * z + 1) Hn Hs
                ltac:(lia)) as [Hkeep _].
    fold m in Hkeep. rewrite Hup in Hkeep.
    assert (Hle : (inject_Z z + (1 # 2) <= m)%Q) by lra.
    apply Hkeep in Hle. lra.
  - destruct (Qlt_le_dec (m + (1 # 2)) (inject_Z z)) as [H | H];
      [exfalso | exact H].
    assert (Hz1 : (1 <= z)%Z).
    { assert (Ha : (inject_Z 0 < inject_Z z)%Q)
        by (change (inject_Z 0) with 0%Q; lra).
      rewrite <- Zlt_Qlt in Ha. lia. }
    destruct (DoubleFacts.round_keeps_side s n (2 * z - 1) Hn Hs
                ltac:(lia)) as [_ Hkeep].
    fold m in Hkeep. rewrite Hdown in Hkeep.
    assert (Hlt : (m < inject_Z z - (1 # 2))%Q) by lra.
    apply Hkeep in Hlt. lra.
Qed.

Lemma whole_ge (j : Z) (c : Q) :
  (0 <= j < 2 ^ 53)%Z -> (c == inject_Z j / 2)%Q ->
  ge (Double.round m) c = ge m c.
Proof.
  intros Hj Hc.
  destruct (DoubleFacts.round_keeps_side s n j Hn Hs Hj) as [Hup Hdown].
  fold m in Hup, Hdown. rewrite <- Hc in Hup, Hdown.
  destruct (ge m c) eqn:E.
  - apply ge_spec. apply Hup. apply ge_spec. exact E.
  - apply ge_false. apply Hdown. apply ge_false. exact E.
Qed.

(** The label is the same for the rounded quotient as for the exact
    one. *)
Lemma whole_status :
  getProgressStatus (Double.round m) = getProgressStatus m.
Proof.
  unfold getProgressStatus, progressThresholds.
  cbn [excellent good fair].
  rewrite (whole_ge 160 80), (whole_ge 120 60), (whole_ge 80 40)
    by (lia || reflexivity).
  reflexivity.
Qed.
End WholeQuotient.

(** C8, as amended. With no active goal the result is [all_completed]
    at 100 when some goal is completed and [no_goals] at 0 otherwise, with
    an active count of 0.  With an active goal the two counts are the
    numbers of active and completed goals, and the mean is the one the
    code computes in double precision: the active goals' progress values
    added from left to right starting from 0 and the sum divided by their
    number, each sum and the quotient rounded to the nearest double;
    [averageProgress] is that computed mean rounded to the nearest
    integer, a tie going up, and the status label follows the computed
    mean with the thresholds 80, 60 and 40.  When every active goal's
    progress is a whole number between 0 and 100 and fewer than 2^40 goals
    are active, the computed mean may be replaced by the arithmetic mean
    in both: [averageProgress] is the arithmetic mean rounded to the
    nearest integer and the label follows the arithmetic mean. *)
Theorem C8_calculateOverallProgress (goals : list Goals.Goal) :
  let r := calculateOverallProgress goals in
  completedCount r = countCompleted goals
  /\ (Forall (fun g => Goals.status g <> Goals.active) goals ->
      activeCount r = 0%nat
      /\ (Exists (fun g => Goals.status g = Goals.completed) goals ->
          averageProgress r = 100 /\ status r = "all_completed")
      /\ (~ Exists (fun g => Goals.status g = Goals.completed) goals ->
          averageProgress r = 0 /\ status r = "no_goals"))
  /\ (Exists (fun g => Goals.status g = Goals.active) goals ->
      activeCount r = countActive goals
      /\ nearestInteger (doubleMean (activeProgress goals))
           (averageProgress r)
      /\ labelled (doubleMean (activeProgress goals)) (status r)
      /\ (Forall wholePercent (activeProgress goals) ->
          (Z.of_nat (countActive goals) < 2 ^ 40)%Z ->
          nearestInteger (mean (activeProgress goals)) (averageProgress r)
          /\ labelled (mean (activeProgress goals)) (status r))).
Proof.
  assert (Hact : length (List.filter isActive goals) = 0%nat
                 <-> Forall (fun g => Goals.status g <> Goals.active) goals).
  { rewrite filter_length_zero. apply Forall_iff. intros g.
    apply isActive_false. }
  assert (Hcomp : length (List.filter isCompleted goals) = 0%nat
                  <-> ~ Exists (fun g => Goals.status g = Goals.completed) goals).
  { rewrite filter_length_zero, <- Forall_Exists_neg. apply Forall_iff.
    intros g. apply isCompleted_false. }
  unfold calculateOverallProgress, countCompleted, countActive. cbv zeta.
  destruct (Nat.eqb (length (List.filter isActive goals)) 0) eqn:Hzero.
  - apply Nat.eqb_eq in Hzero.
    cbn [averageProgress activeCount completedCount status].
    split; [reflexivity |]. split.
    + intros _. split; [reflexivity |].
      destruct (length (List.filter isCompleted goals)) as [| n] eqn:Hn.
      * split; [intros H; exfalso; apply (proj1 Hcomp); auto |].
        intros _. split; reflexivity.
      * split; [intros _; split; reflexivity |].
        intros H. apply Hcomp in H. discriminate.
    + intros Hex. exfalso. apply Hact in Hzero.
      apply Exists_exists in Hex. destruct Hex as (g & Hin & Hg).
      rewrite Forall_forall in Hzero. exact (Hzero g Hin Hg).
  - apply Nat.eqb_neq in Hzero.
    cbn [averageProgress activeCount completedCount status].
    rewrite average_doubleMean.
    split; [reflexivity |]. split.
    + intros Hall. apply Hact in Hall. contradiction.
    + intros _. split; [reflexivity |].
      split; [apply round_nearest |].
      split; [apply getProgressStatus_labelled |].
      intros Hwhole Hfew.
      assert (Hlen : length (activeProgress goals)
                     = length (List.filter isActive goals)).
      { unfold activeProgress. apply length_map. }
      destruct (doubleMean_whole (activeProgress goals) Hwhole)
        as (s & Hs & Hmean & Hdouble); [rewrite Hlen; lia |].
      rewrite Hlen in Hs, Hmean, Hdouble.
      set (n := Z.of_nat (length (List.filter isActive goals))) in *.
      assert (Hn : (0 < n < 2 ^ 40)%Z) by (unfold n; lia).
      rewrite (round_compat _ _ Hdouble),
        (getProgressStatus_compat _ _ Hdouble).
      rewrite (whole_round s n Hn Hs), (whole_status s n Hn Hs).
      rewrite <- (round_compat _ _ Hmean),
        <- (getProgressStatus_compat _ _ Hmean).
      split; [apply round_nearest | apply getProgressStatus_labelled].
Qed.

Definition sampleGoal (st : Goals.Status) (p : Q)
    (ms : list Goals.Milestone) (cs : list Goals.CheckIn) : Goals.Goal :=
  {| Goals.userId := "u1"; Goals.title := "goal";
     Goals.description := None; Goals.category := Goals.personal;
     Goals.type := Goals.short_term; Goals.status := st;
     Goals.progress := p; Goals.targetDate := None; Goals.startDate := 0;
     Goals.completedDate := None; Goals.milestones := ms;
     Goals.tags := []; Goals.priority := Goals.medium;
     Goals.progressHistory := []; Goals.checkIns := cs |}.

Definition sampleGoals : list Goals.Goal :=
  [ sampleGoal Goals.active 50 [] [];
    sampleGoal Goals.active 75 [] [];
    sampleGoal Goals.completed 100 [] [];
    sampleGoal Goals.paused 10 [] [] ].

Example overall_sample :
  calculateOverallProgress sampleGoals
  = {| averageProgress := 63; activeCount := 2; completedCount := 1;
       status := "good" |}.
Proof. vm_compute. reflexivity. Qed.

Example overall_all_completed :
  calculateOverallProgress [ sampleGoal Goals.completed 100 [] [] ]
  = {| averageProgress := 100; activeCount := 0; completedCount := 1;
       status := "all_completed" |}.
Proof. reflexivity. Qed.

Example overall_no_goals :
  calculateOverallProgress [ sampleGoal Goals.paused 30 [] [] ]
  = {| averageProgress := 0; activeCount := 0; completedCount := 0;
       status := "no_goals" |}.
Proof. reflexivity. Qed.

Lemma sampleGoals_whole : Forall wholePercent (activeProgress sampleGoals).
Proof.
  repeat constructor;
    [exists 50%Z | exists 75%Z]; (split; [lia | reflexivity]).
Qed.

Lemma C8_witness :
  let r := calculateOverallProgress sampleGoals in
  Exists (fun g => Goals.status g = Goals.active) sampleGoals
  /\ Forall wholePercent (activeProgress sampleGoals)
  /\ (Z.of_nat (countActive sampleGoals) < 2 ^ 40)%Z
  /\ nearestInteger (mean (activeProgress sampleGoals)) (averageProgress r)
  /\ labelled (mean (activeProgress sampleGoals)) (status r).
Proof.
  assert (Hactive : Exists (fun g => Goals.status g = Goals.active)
                      sampleGoals)
    by (apply Exists_cons_hd; reflexivity).
  assert (Hfew : (Z.of_nat (countActive sampleGoals) < 2 ^ 40)%Z)
    by reflexivity.
  split; [exact Hactive |]. split; [exact sampleGoals_whole |].
  split; [exact Hfew |].
  destruct (C8_calculateOverallProgress sampleGoals) as (_ & _ & H).
  destruct (H Hactive) as (_ & _ & _ & Hwhole).
  exact (Hwhole sampleGoals_whole Hfew).
Defined.

(** The doubles written 79.6 and 57.4 in JavaScript. *)
Definition d79_6 : Q := (2800676018271027 # 35184372088832)%Q.
Definition d57_4 : Q := (8078331831595827 # 140737488355328)%Q.

Definition fractionalGoals : list Goals.Goal :=
  [ sampleGoal Goals.active d79_6 [] [];
    sampleGoal Goals.active d57_4 [] [] ].

(** The two values are doubles and are the ones nearest to 79.6 and 57.4;
    their arithmetic mean lies below 68.5 and rounds to 68, while the
    double-precision sum is 137 and the code answers 69. *)
Lemma C8_counterexample :
  (Double.round (796 # 10) == d79_6)%Q
  /\ (Double.round (574 # 10) == d57_4)%Q
  /\ (Double.round d79_6 == d79_6)%Q
  /\ (Double.round d57_4 == d57_4)%Q
  /\ nearestInteger (mean (activeProgress fractionalGoals)) 68
  /\ averageProgress (calculateOverallProgress fractionalGoals) = 69
  /\ ~ nearestInteger (mean (activeProgress fractionalGoals))
         (averageProgress (calculateOverallProgress fractionalGoals)).
Proof.
  assert (H68 : nearestInteger (mean (activeProgress fractionalGoals)) 68).
  { split; vm_compute; [reflexivity | discriminate]. }
  assert (H69 : averageProgress (calculateOverallProgress fractionalGoals)
                = 69) by (vm_compute; reflexivity).
  split; [vm_compute; reflexivity |]. split; [vm_compute; reflexivity |].
  split; [vm_compute; reflexivity |]. split; [vm_compute; reflexivity |].
  split; [exact H68 |]. split; [exact H69 |].
  rewrite H69. intros H.
  pose proof (nearestInteger_unique _ _ _ H68 H) as Heq. discriminate Heq.
Qed.

(** *** Recommendations *)

Section SortByRank.
Context {A : Type} (rank : A -> Z).

(** The comparator [(a, b) => rank(b) - rank(a)]. *)
Let descending (a b : A) : Z := rank b - rank a.

(** [a] may stand before [b]. *)
Let before (a b : A) : Prop := rank b <= rank a.

Lemma Forall_insertSorted (P : A -> Prop) (x : A) (l : list A) :
  P x -> Forall P l -> Forall P (insertSorted descending x l).
Proof.
  intros Hx Hl. induction Hl as [| y l Hy Hl IH]; simpl.
  - constructor; [exact Hx | constructor].
  - destruct (descending x y <=? 0).
    + constructor; [exact Hx |]. constructor; assumption.
    + constructor; assumption.
Qed.

Lemma insertSorted_sorted (x : A) (l : list A) :
  StronglySorted before l ->
  StronglySorted before (insertSorted descending x l).
Proof.
  intros Hl. induction Hl as [| y l Hl IH Hy]; simpl.
  - constructor; constructor.
  - destruct (descending x y <=? 0) eqn:Hc.
    + apply Z.leb_le in Hc. unfold descending in Hc.
      constructor; [constructor; assumption |].
      constructor; [unfold before; lia |].
      eapply Forall_impl; [exact Hy |].
      unfold before. simpl. intros z Hz. lia.
    + apply Z.leb_gt in Hc. unfold descending in Hc.
      constructor; [exact IH |].
      apply Forall_insertSorted; [unfold before; lia | exact Hy].
Qed.

Lemma sort_sorted (l : list A) :
  StronglySorted before (sort descending l).
Proof.
  induction l as [| x l IH]; simpl.
  - constructor.
  - apply insertSorted_sorted. exact IH.
Qed.

Lemma sorted_lookup (l : list A) (i j : nat) (a b : A) :
  StronglySorted before l ->
  l !! i = Some a -> l !! j = Some b -> (i < j)%nat -> before a b.
Proof.
  intros Hl. revert i j. induction Hl as [| y l Hl IH Hy]; intros i j.
  - intros H. discriminate H.
  - destruct i as [| i], j as [| j]; simpl; intros Hi Hj Hlt; try lia.
    + injection Hi as ->. rewrite Forall_forall in Hy.
      apply Hy. eapply list_elem_of_lookup_2. exact Hj.
    + apply (IH i j); [assumption | assumption | lia].
Qed.

(** In a list sorted by descending rank, an element of strictly larger
    rank stands at a smaller index. *)
Lemma sorted_higher_first (l : list A) (i j : nat) (a b : A) :
  StronglySorted before l ->
  l !! i = Some a -> l !! j = Some b -> rank b < rank a -> (i < j)%nat.
Proof.
  intros Hl Hi Hj Hrank.
  destruct (Nat.lt_trichotomy i j) as [Hlt | [Heq | Hgt]].
  - exact Hlt.
  - subst j. rewrite Hi in Hj. injection Hj as ->. lia.
  - pose proof (sorted_lookup l j i b a Hl Hj Hi Hgt) as H.
    unfold before in H. lia.
Qed.
End SortByRank.

(** C9. The list returned by [generateRecommendations] is sorted by
    non-increasing priority: no element is followed by one of higher
    priority, so every [high] recommendation stands before every [medium]
    one and every [medium] one before every [low] one. *)
Theorem C9_recommendations_sorted (goals : list Goals.Goal) (now : Z) :
  let recs := generateRecommendations goals now in
  StronglySorted
    (fun a b => priorityValue (priority b) <= priorityValue (priority a))
    recs
  /\ (forall i j a b,
        recs !! i = Some a -> recs !! j = Some b ->
        (priority a = Goals.high /\ priority b = Goals.medium)
        \/ (priority a = Goals.high /\ priority b = Goals.low)
        \/ (priority a = Goals.medium /\ priority b = Goals.low) ->
        (i < j)%nat).
Proof.
  assert (Hsorted :
    StronglySorted
      (fun a b => priorityValue (priority b) <= priorityValue (priority a))
      (generateRecommendations goals now)).
  { unfold generateRecommendations, comparePriority.
    apply (sort_sorted (fun r => priorityValue (priority r))). }
  split; [exact Hsorted |].
  intros i j a b Hi Hj Hprio.
  apply (sorted_higher_first (fun r => priorityValue (priority r))
           _ i j a b Hsorted Hi Hj).
  destruct Hprio as [[-> ->] | [[-> ->] | [-> ->]]]; simpl; lia.
Qed.

(** Seven active goals without check-ins and milestones: all three
    recommendations are produced, the [high] one first. *)
Definition manyGoals : list Goals.Goal :=
  List.repeat (sampleGoal Goals.active 10 [] []) 7.

Example recommendations_sample :
  List.map (fun r => (priority r, type r))
    (generateRecommendations manyGoals 1000)
  = [ (Goals.high, "focus"); (Goals.medium, "checkin");
      (Goals.medium, "structure") ].
Proof. vm_compute. reflexivity. Qed.

Lemma C9_witness :
  exists a b,
    generateRecommendations manyGoals 1000 !! 0%nat = Some a
    /\ generateRecommendations manyGoals 1000 !! 1%nat = Some b
    /\ priority a = Goals.high /\ priority b = Goals.medium
    /\ (0 < 1)%nat.
Proof.
  eexists. eexists.
  split; [vm_compute; reflexivity |].
  split; [vm_compute; reflexivity |].
  split; [reflexivity |]. split; [reflexivity |].
  eapply (proj2 (C9_recommendations_sorted manyGoals 1000) 0%nat 1%nat).
  - vm_compute. reflexivity.
  - vm_compute. reflexivity.
  - left. split; reflexivity.
Defined.

End GoalAnalysisProofs.

(** ** Error handling *)

Module ErrorHandlerProofs.
Import Http ErrorHandler.

(** *** Reading and writing properties *)

Lemma lookupProp_set (ps : JS.properties) (k k' : string) (v : JS.value) :
  JS.lookupProp (JS.set ps k v) k'
  = if String.eqb k k' then Some v else JS.lookupProp ps k'.
Proof.
  induction ps as [| [k0 v0] ps IH]; simpl.
  - destruct (String.eqb_spec k k'); reflexivity.
  - destruct (String.eqb_spec k0 k) as [-> | Hne]; simpl.
    + destruct (String.eqb_spec k k'); reflexivity.
    + rewrite IH.
      destruct (String.eqb_spec k0 k') as [-> | Hne'];
        destruct (String.eqb_spec k k'); congruence.
Qed.

Lemma prop_assign (e : ErrorObject) (k k' : string) (v : JS.value) :
  prop (assign e k v) k' = if String.eqb k k' then v else prop e k'.
Proof.
  unfold JS.prop, JS.assign.
  destruct (JS.lookupProp (JS.props e) k) as [old |] eqn:Hk.
  - rewrite !andb_false_r. cbn [JS.props JS.ctorMessage JS.ctorStack JS.protoName].
    rewrite lookupProp_set.
    destruct (String.eqb_spec k k'); reflexivity.
  - destruct (String.eqb_spec k "message") as [-> | Hm];
      [| destruct (String.eqb_spec k "stack") as [-> | Hs]].
    + assert (Hcase :
        (JS.ctorMessage e = JS.Undefined) \/ (JS.ctorMessage e <> JS.Undefined)).
      { destruct (JS.ctorMessage e); auto; right; discriminate. }
      destruct Hcase as [Hc | Hc].
      * rewrite Hc. cbn [andb JS.props JS.ctorMessage JS.ctorStack JS.protoName].
        change (String.eqb "message" "stack") with false.
        cbn [andb JS.props JS.ctorMessage JS.ctorStack JS.protoName].
        rewrite lookupProp_set.
        destruct (String.eqb_spec "message" k') as [<- | Hne]; reflexivity.
      * replace (match JS.ctorMessage e with
                 | JS.Undefined => false
                 | _ => true
                 end) with true
          by (destruct (JS.ctorMessage e); congruence).
        cbn [andb JS.props JS.ctorMessage JS.ctorStack JS.protoName].
        destruct (String.eqb_spec "message" k') as [<- | Hne].
        -- rewrite Hk. reflexivity.
        -- destruct (JS.lookupProp (JS.props e) k'); [reflexivity |].
           destruct (String.eqb_spec k' "message"); [congruence | reflexivity].
    + assert (Hcase :
        (JS.ctorStack e = JS.Undefined) \/ (JS.ctorStack e <> JS.Undefined)).
      { destruct (JS.ctorStack e); auto; right; discriminate. }
      change (String.eqb "stack" "message") with false.
      destruct Hcase as [Hc | Hc].
      * rewrite Hc. cbn [andb JS.props JS.ctorMessage JS.ctorStack JS.protoName].
        rewrite lookupProp_set.
        destruct (String.eqb_spec "stack" k') as [<- | Hne]; reflexivity.
      * replace (match JS.ctorStack e with
                 | JS.Undefined => false
                 | _ => true
                 end) with true
          by (destruct (JS.ctorStack e); congruence).
        cbn [andb JS.props JS.ctorMessage JS.ctorStack JS.protoName].
        destruct (String.eqb_spec "stack" k') as [<- | Hne].
        -- rewrite Hk. reflexivity.
        -- destruct (JS.lookupProp (JS.props e) k'); [reflexivity |].
           destruct (String.eqb_spec k' "message"); [reflexivity |].
           destruct (String.eqb_spec k' "stack"); [congruence | reflexivity].
    + cbn [andb JS.props JS.ctorMessage JS.ctorStack JS.protoName].
      rewrite lookupProp_set.
      destruct (String.eqb_spec k k'); reflexivity.
Qed.

Lemma prop_copyOf (e : ErrorObject) (k : string) :
  prop (copyOf e) k
  = if String.eqb k "message" then prop e "message"
    else JS.get (JS.props e) k.
Proof.
  unfold copyOf. rewrite prop_assign.
  rewrite (String.eqb_sym "message" k).
  destruct (String.eqb_spec k "message") as [-> | Hne]; [reflexivity |].
  unfold JS.prop, JS.spread, JS.get; simpl.
  destruct (JS.lookupProp (JS.props e) k); [reflexivity |].
  repeat match goal with
         | |- context [String.eqb k ?s] => destruct (String.eqb k s)
         end; reflexivity.
Qed.

Lemma strictEq_Str (v : JS.value) (s : string) :
  JS.strictEq v (JS.Str s) = true <-> v = JS.Str s.
Proof.
  destruct v; simpl; split; intros H; try discriminate.
  - apply String.eqb_eq in H. congruence.
  - injection H as ->. apply String.eqb_refl.
Qed.

Lemma strictEq_Num (v : JS.value) (z : Z) :
  JS.strictEq v (JS.Num z) = true <-> v = JS.Num z.
Proof.
  destruct v; simpl; split; intros H; try discriminate.
  - apply Z.eqb_eq in H. congruence.
  - injection H as ->. apply Z.eqb_refl.
Qed.

(** *** The translation chain *)

Lemma rule_Some cond handler (e : ErrorObject) :
  rule cond handler (Some e) = if cond e then handler e else Some e.
Proof. reflexivity. Qed.

Lemma rule_None cond handler : rule cond handler None = None.
Proof. reflexivity. Qed.

Lemma rule_AppError cond handler (m : string) (c : Z) :
  cond (AppError m c) = false ->
  rule cond handler (Some (AppError m c)) = Some (AppError m c).
Proof. intros H. rewrite rule_Some, H. reflexivity. Qed.

(** Some translation rule applies to [e]. *)
Definition fires (e : ErrorObject) : bool :=
  nameIs "CastError" e
  || JS.strictEq (prop e "code") (JS.Num 11000)
  || nameIs "ValidationError" e
  || nameIs "JsonWebTokenError" e
  || nameIs "TokenExpiredError" e
  || (nameIs "MongoNetworkError" e || nameIs "MongoTimeoutError" e)
  || JS.strictEq (prop e "type") (JS.Str "RateLimitError")
  || (JS.truthy (prop e "response")
      && JS.truthy (JS.member (prop e "response") "status")).

(** The status codes given by the translation rules. *)
Definition translatorCodes : list Z := [400; 401; 429; 500; 503].

Lemma handleDuplicateFieldsDB_AppError (e e' : ErrorObject) :
  handleDuplicateFieldsDB e = Some e' -> exists m, e' = AppError m 400.
Proof.
  unfold handleDuplicateFieldsDB.
  destruct (JS.keys (prop e "keyValue")); [| discriminate].
  intros H. injection H as <-. eexists. reflexivity.
Qed.

Lemma handleValidationErrorDB_AppError (e e' : ErrorObject) :
  handleValidationErrorDB e = Some e' -> exists m, e' = AppError m 400.
Proof.
  unfold handleValidationErrorDB.
  destruct (JS.values (prop e "errors")); [| discriminate].
  destruct (forallb _ _); [| discriminate].
  intros H. injection H as <-. eexists. reflexivity.
Qed.

Lemma handleOpenAIError_AppError (e : ErrorObject) :
  exists m c, handleOpenAIError e = AppError m c /\ In c translatorCodes.
Proof.
  unfold handleOpenAIError, translatorCodes.
  repeat match goal with
         | |- context [if ?b then _ else _] => destruct b
         end;
    eexists; eexists; (split; [reflexivity | simpl; tauto]).
Qed.

(** The logger bound in errorHandler.js has no [error] and no [warn]. *)
Lemma log_throws :
  log "error" = Throws (notAFunction "logger.error")
  /\ log "warn" = Throws (notAFunction "logger.warn").
Proof. split; reflexivity. Qed.

Lemma handleDBConnectionError_throws (e : ErrorObject) :
  handleDBConnectionError e = None.
Proof. reflexivity. Qed.

Ltac settle_rules :=
  repeat first
    [ rewrite rule_None
    | rewrite rule_AppError by reflexivity ].

Lemma translate_quiet (e : ErrorObject) :
  fires e = false -> translate e = Some e.
Proof.
  unfold fires. intros H.
  repeat (apply orb_false_elim in H; destruct H as [H ?]).
  unfold translate. cbv zeta.
  repeat (rewrite rule_Some; cbv beta;
          match goal with
          | Hc : ?c = false |- context [if ?c then _ else _] => rewrite Hc
          end).
  reflexivity.
Qed.

Lemma translate_fired (e : ErrorObject) :
  fires e = true ->
  translate e = None
  \/ exists m c, translate e = Some (AppError m c) /\ In c translatorCodes.
Proof.
  unfold fires, translate, translatorCodes. cbv zeta. intros H.
  rewrite rule_Some.
  destruct (nameIs "CastError" e).
  { right. unfold handleCastErrorDB. settle_rules.
    eexists; eexists; split; [reflexivity | simpl; tauto]. }
  rewrite rule_Some. cbv beta.
  destruct (JS.strictEq (prop e "code") (JS.Num 11000)).
  { destruct (handleDuplicateFieldsDB e) as [e' |] eqn:Hd.
    - apply handleDuplicateFieldsDB_AppError in Hd. destruct Hd as [m ->].
      right. settle_rules.
      eexists; eexists; split; [reflexivity | simpl; tauto].
    - left. settle_rules. reflexivity. }
  rewrite rule_Some.
  destruct (nameIs "ValidationError" e).
  { destruct (handleValidationErrorDB e) as [e' |] eqn:Hd.
    - apply handleValidationErrorDB_AppError in Hd. destruct Hd as [m ->].
      right. settle_rules.
      eexists; eexists; split; [reflexivity | simpl; tauto].
    - left. settle_rules. reflexivity. }
  rewrite rule_Some.
  destruct (nameIs "JsonWebTokenError" e).
  { right. unfold handleJWTError. settle_rules.
    eexists; eexists; split; [reflexivity | simpl; tauto]. }
  rewrite rule_Some.
  destruct (nameIs "TokenExpiredError" e).
  { right. unfold handleJWTExpiredError. settle_rules.
    eexists; eexists; split; [reflexivity | simpl; tauto]. }
  rewrite rule_Some. cbv beta.
  destruct (nameIs "MongoNetworkError" e || nameIs "MongoTimeoutError" e).
  { left. rewrite handleDBConnectionError_throws. settle_rules.
    reflexivity. }
  rewrite rule_Some. cbv beta.
  destruct (JS.strictEq (prop e "type") (JS.Str "RateLimitError")).
  { right. unfold handleRateLimitError. settle_rules.
    eexists; eexists; split; [reflexivity | simpl; tauto]. }
  rewrite rule_Some. cbv beta.
  destruct (JS.truthy (prop e "response")
            && JS.truthy (JS.member (prop e "response") "status")).
  { right. destruct (handleOpenAIError_AppError e) as (m & c & -> & Hc).
    eexists; eexists; split; [reflexivity | exact Hc]. }
  discriminate H.
Qed.

(** *** What the production handler sends *)

Lemma not_development (NODE_ENV : JS.value) :
  NODE_ENV <> JS.Str "development" ->
  JS.strictEq NODE_ENV (JS.Str "development") = false.
Proof.
  intros H. destruct (JS.strictEq NODE_ENV (JS.Str "development")) eqn:E;
    [| reflexivity].
  apply strictEq_Str in E. contradiction.
Qed.

Lemma globalErrorHandler_production NODE_ENV err req :
  NODE_ENV <> JS.Str "development" ->
  globalErrorHandler NODE_ENV err req
  = match translate (copyOf (withDefaults err)) with
    | Some error => sendErrorProd error req
    | None => Thrown
    end.
Proof.
  intros H. unfold globalErrorHandler. cbv zeta.
  rewrite (not_development _ H). reflexivity.
Qed.

Lemma prop_withDefaults (err : ErrorObject) (k : string) :
  prop (withDefaults err) k
  = if String.eqb "status" k
    then JS.orElse
           (if String.eqb "statusCode" "status"
            then JS.orElse (prop err "statusCode") (JS.Num 500)
            else prop err "status") (JS.Str "error")
    else if String.eqb "statusCode" k
         then JS.orElse (prop err "statusCode") (JS.Num 500)
         else prop err k.
Proof. unfold withDefaults. cbv zeta. rewrite !prop_assign. reflexivity. Qed.

Lemma get_assign (e : ErrorObject) (k k' : string) (v : JS.value) :
  k <> "message" -> k <> "stack" ->
  JS.get (JS.props (assign e k v)) k'
  = if String.eqb k k' then v else JS.get (JS.props e) k'.
Proof.
  intros Hm Hs. unfold JS.assign.
  apply String.eqb_neq in Hm, Hs. rewrite Hm, Hs. simpl.
  unfold JS.get. rewrite lookupProp_set.
  destruct (String.eqb k k'); reflexivity.
Qed.

Lemma get_withDefaults (err : ErrorObject) (k : string) :
  k <> "status" -> k <> "statusCode" ->
  JS.get (JS.props (withDefaults err)) k = JS.get (JS.props err) k.
Proof.
  intros H1 H2. unfold withDefaults. cbv zeta.
  rewrite !get_assign by discriminate.
  apply not_eq_sym in H1, H2. apply String.eqb_neq in H1, H2.
  rewrite H1, H2. reflexivity.
Qed.

Lemma lookup_withDefaults (err : ErrorObject) (k : string) :
  k <> "status" -> k <> "statusCode" ->
  JS.lookupProp (JS.props (withDefaults err)) k
  = JS.lookupProp (JS.props err) k.
Proof.
  intros H1 H2. unfold withDefaults, JS.assign. simpl.
  rewrite !lookupProp_set.
  apply not_eq_sym in H1, H2. apply String.eqb_neq in H1, H2.
  rewrite H1, H2. reflexivity.
Qed.

(** The chain gives no error only when one of its rules throws. *)
Lemma translate_none (e : ErrorObject) :
  translate e = None ->
  handleDuplicateFieldsDB e = None \/ handleValidationErrorDB e = None
  \/ nameIs "MongoNetworkError" e || nameIs "MongoTimeoutError" e = true.
Proof.
  unfold translate. cbv zeta.
  rewrite rule_Some.
  destruct (nameIs "CastError" e).
  { unfold handleCastErrorDB. settle_rules. discriminate. }
  rewrite rule_Some. cbv beta.
  destruct (JS.strictEq (prop e "code") (JS.Num 11000)).
  { destruct (handleDuplicateFieldsDB e) as [e' |] eqn:Hd.
    - apply handleDuplicateFieldsDB_AppError in Hd. destruct Hd as [m ->].
      settle_rules. discriminate.
    - intros _. left. reflexivity. }
  rewrite rule_Some.
  destruct (nameIs "ValidationError" e).
  { destruct (handleValidationErrorDB e) as [e' |] eqn:Hd.
    - apply handleValidationErrorDB_AppError in Hd. destruct Hd as [m ->].
      settle_rules. discriminate.
    - intros _. right. left. reflexivity. }
  rewrite rule_Some.
  destruct (nameIs "JsonWebTokenError" e).
  { unfold handleJWTError. settle_rules. discriminate. }
  rewrite rule_Some.
  destruct (nameIs "TokenExpiredError" e).
  { unfold handleJWTExpiredError. settle_rules. discriminate. }
  rewrite rule_Some. cbv beta.
  destruct (nameIs "MongoNetworkError" e || nameIs "MongoTimeoutError" e).
  { intros _. right. right. reflexivity. }
  rewrite rule_Some. cbv beta.
  destruct (JS.strictEq (prop e "type") (JS.Str "RateLimitError")).
  { unfold handleRateLimitError. settle_rules. discriminate. }
  rewrite rule_Some. cbv beta.
  destruct (JS.truthy (prop e "response")
            && JS.truthy (JS.member (prop e "response") "status"));
    discriminate.
Qed.

Lemma AppError_operational (m : string) (c : Z) :
  JS.truthy (prop (AppError m c) "isOperational") = true
  /\ prop (AppError m c) "statusCode" = JS.Num c
  /\ prop (AppError m c) "message" = JS.Str m.
Proof. repeat split. Qed.

(** What [sendErrorProd] sends for an operational error on an [/api] URL. *)
Lemma sendErrorProd_operational (error : ErrorObject) (req : Request) :
  isApi req = true ->
  JS.truthy (prop error "isOperational") = true ->
  exists extra,
    sendErrorProd error req
    = Sent (Json (prop error "statusCode")
              ([ ("success", JS.Bool false);
                 ("error", prop error "message") ] ++ extra))
    /\ (extra = []
        \/ (prop error "statusCode" = JS.Num 429
            /\ extra = [ ("retryAfter", prop error "retryAfter") ])).
Proof.
  intros Hapi Hop. unfold sendErrorProd. rewrite Hapi, Hop.
  destruct (JS.strictEq (prop error "statusCode") (JS.Num 429)) eqn:H429.
  - eexists. split; [reflexivity |]. right.
    apply strictEq_Num in H429. split; [exact H429 | reflexivity].
  - exists []. split; [reflexivity | left; reflexivity].
Qed.

Lemma untranslated_props (err : ErrorObject) :
  prop (copyOf (withDefaults err)) "isOperational" = prop err "isOperational"
  /\ prop (copyOf (withDefaults err)) "message" = prop err "message"
  /\ prop (copyOf (withDefaults err)) "statusCode"
     = JS.orElse (prop err "statusCode") (JS.Num 500).
Proof.
  rewrite !prop_copyOf.
  change (String.eqb "isOperational" "message") with false.
  change (String.eqb "statusCode" "message") with false.
  change (String.eqb "message" "message") with true.
  cbv iota.
  rewrite get_withDefaults by discriminate.
  rewrite (prop_withDefaults err "message").
  change (String.eqb "status" "message") with false.
  change (String.eqb "statusCode" "message") with false.
  cbv iota.
  unfold withDefaults. cbv zeta.
  rewrite get_assign by discriminate.
  change (String.eqb "status" "statusCode") with false. cbv iota.
  rewrite get_assign by discriminate.
  change (String.eqb "statusCode" "statusCode") with true. cbv iota.
  split; [| split; reflexivity]. unfold JS.get, JS.prop.
  destruct (JS.lookupProp (JS.props err) "isOperational"); reflexivity.
Qed.

(** C4, as amended. In production, on a request whose URL starts with
    [/api], the global handler passes to [sendErrorProd] the error [error]
    that its translation rules give for the incoming one.  If [error] is
    operational, the response has the status code [error.statusCode] and a
    body with [success: false] and [error.message].  When no translation
    rule applies, [error] is the copy of the incoming error, with its
    [isOperational] and [message] and with its [statusCode] defaulted to
    500; when a rule applies, [error] is the operational error built by the
    rule, whatever [isOperational] was on the incoming error. *)
Theorem C4_production_api_errors (NODE_ENV : JS.value) (err : ErrorObject)
    (req : Request) :
  NODE_ENV <> JS.Str "development" ->
  isApi req = true ->
  (forall error,
      translate (copyOf (withDefaults err)) = Some error ->
      JS.truthy (prop error "isOperational") = true ->
      exists extra,
        globalErrorHandler NODE_ENV err req
        = Sent (Json (prop error "statusCode")
                  ([ ("success", JS.Bool false);
                     ("error", prop error "message") ] ++ extra))
        /\ (extra = []
            \/ (prop error "statusCode" = JS.Num 429
                /\ extra = [ ("retryAfter", prop error "retryAfter") ])))
  /\ (fires (copyOf (withDefaults err)) = false ->
      translate (copyOf (withDefaults err)) = Some (copyOf (withDefaults err))
      /\ prop (copyOf (withDefaults err)) "isOperational"
         = prop err "isOperational"
      /\ prop (copyOf (withDefaults err)) "message" = prop err "message"
      /\ prop (copyOf (withDefaults err)) "statusCode"
         = JS.orElse (prop err "statusCode") (JS.Num 500))
  /\ (fires (copyOf (withDefaults err)) = true ->
      forall error,
        translate (copyOf (withDefaults err)) = Some error ->
        JS.truthy (prop error "isOperational") = true
        /\ exists m c,
             error = AppError m c /\ In c translatorCodes
             /\ prop error "statusCode" = JS.Num c
             /\ prop error "message" = JS.Str m).
Proof.
  intros Henv Hapi.
  rewrite (globalErrorHandler_production _ _ _ Henv).
  split; [| split].
  - intros error Htr Hop. rewrite Htr.
    apply sendErrorProd_operational; assumption.
  - intros Hquiet. split; [apply translate_quiet; exact Hquiet |].
    apply untranslated_props.
  - intros Hfires error Htr.
    destruct (translate_fired _ Hfires) as [Hnone | (m & c & Hsome & Hc)];
      [congruence |].
    rewrite Hsome in Htr. injection Htr as <-.
    split; [reflexivity |].
    exists m, c. repeat split. exact Hc.
Qed.

Definition apiRequest : Request :=
  {| originalUrl := "/api/goals/42"; method := "GET"; ip := "10.0.0.1" |}.

Definition pageRequest : Request :=
  {| originalUrl := "/dashboard"; method := "POST"; ip := "10.0.0.1" |}.

(** A programming error: [new TypeError(...)], no own enumerable property. *)
Definition programmingError : ErrorObject :=
  {| JS.props := [];
     JS.ctorMessage := JS.Str "Cannot read properties of undefined";
     JS.ctorStack := JS.Str "";
     JS.protoName := JS.Str "TypeError" |}.

Example notFound_api :
  globalErrorHandler (JS.Str "production") (handleNotFound apiRequest)
    apiRequest
  = Sent (Json (JS.Num 404)
            [ ("success", JS.Bool false);
              ("error",
               JS.Str "Can't find /api/goals/42 on this server!") ]).
Proof. vm_compute. reflexivity. Qed.

(** For an error that is not operational the call of [logger.error]
    comes first, and it throws. *)
Example programmingError_api :
  globalErrorHandler (JS.Str "production") programmingError apiRequest
  = Thrown.
Proof. vm_compute. reflexivity. Qed.

Lemma C4_witness :
  JS.Str "production" <> JS.Str "development"
  /\ isApi apiRequest = true
  /\ translate (copyOf (withDefaults (handleNotFound apiRequest)))
     = Some (copyOf (withDefaults (handleNotFound apiRequest)))
  /\ JS.truthy
       (prop (copyOf (withDefaults (handleNotFound apiRequest)))
          "isOperational") = true
  /\ exists extra,
       globalErrorHandler (JS.Str "production")
         (handleNotFound apiRequest) apiRequest
       = Sent (Json
                 (prop (copyOf (withDefaults (handleNotFound apiRequest)))
                    "statusCode")
                 ([ ("success", JS.Bool false);
                    ("error",
                     prop (copyOf (withDefaults (handleNotFound apiRequest)))
                       "message") ] ++ extra))
       /\ (extra = []
           \/ (prop (copyOf (withDefaults (handleNotFound apiRequest)))
                 "statusCode" = JS.Num 429
               /\ extra
                  = [ ("retryAfter",
                       prop (copyOf (withDefaults (handleNotFound apiRequest)))
                         "retryAfter") ])).
Proof.
  split; [discriminate |].
  split; [reflexivity |].
  split; [reflexivity |].
  split; [reflexivity |].
  apply (proj1 (C4_production_api_errors (JS.Str "production")
                  (handleNotFound apiRequest) apiRequest
                  ltac:(discriminate) eq_refl)
           (copyOf (withDefaults (handleNotFound apiRequest))) eq_refl).
  reflexivity.
Defined.

(** The error thrown by [Jsonwebtoken.verify] for a malformed token; its
    constructor assigns [name] and [message] as ordinary properties. *)
Definition jwtError : ErrorObject :=
  {| JS.props :=
       [ ("name", JS.Str "JsonWebTokenError");
         ("message", JS.Str "jwt malformed") ];
     JS.ctorMessage := JS.Undefined;
     JS.ctorStack := JS.Str "";
     JS.protoName := JS.Str "Error" |}.

(** C4 as stated fails: an error that reaches the handler without
    [isOperational] and is matched by a translation rule is not answered
    with 500 and the generic message, but with the code and the message of
    the rule. *)
Lemma C4_counterexample :
  JS.truthy (prop jwtError "isOperational") = false
  /\ globalErrorHandler (JS.Str "production") jwtError apiRequest
     = Sent (Json (JS.Num 401)
               [ ("success", JS.Bool false);
                 ("error", JS.Str "Invalid token. Please log in again.") ])
  /\ globalErrorHandler (JS.Str "production") jwtError apiRequest
     <> Sent (Json (JS.Num 500)
                [ ("success", JS.Bool false);
                  ("error", JS.Str genericMessage) ]).
Proof.
  split; [reflexivity |].
  split; [vm_compute; reflexivity |].
  vm_compute. discriminate.
Qed.

(** *** Duplicate keys and registration *)

Lemma translate_duplicate (e : ErrorObject) :
  nameIs "CastError" e = false ->
  JS.strictEq (prop e "code") (JS.Num 11000) = true ->
  translate e = handleDuplicateFieldsDB e.
Proof.
  intros Hname Hcode. unfold translate. cbv zeta.
  rewrite rule_Some, Hname. rewrite rule_Some. cbv beta. rewrite Hcode.
  destruct (handleDuplicateFieldsDB e) as [e' |] eqn:Hd.
  - apply handleDuplicateFieldsDB_AppError in Hd. destruct Hd as [m ->].
    settle_rules. reflexivity.
  - settle_rules. reflexivity.
Qed.

(** C5, as amended. An error with code 11000 and a [keyValue] that is
    handed to the global handler in production on an [/api] URL (and is
    not named [CastError]) is converted to an operational error with
    status code 400 whose message names the first duplicated field and its
    value, and that 400 response is sent.  In the register route an
    existing user found by the email lookup is answered with 400, and an
    error thrown by [save] is answered by the route itself with 500. *)
Theorem C5_duplicate_key_and_registration :
  (forall NODE_ENV err req field value rest,
      NODE_ENV <> JS.Str "development" ->
      isApi req = true ->
      JS.lookupProp (JS.props err) "code" = Some (JS.Num 11000) ->
      JS.lookupProp (JS.props err) "keyValue"
      = Some (JS.Obj ((field, value) :: rest)) ->
      JS.lookupProp (JS.props err) "name" <> Some (JS.Str "CastError") ->
      translate (copyOf (withDefaults err))
      = Some (AppError
                (field +:+ " '" +:+ JS.toString value
                 +:+ "' already exists. Please use another value.") 400)
      /\ globalErrorHandler NODE_ENV err req
         = Sent (Json (JS.Num 400)
                   [ ("success", JS.Bool false);
                     ("error",
                      JS.Str (field +:+ " '" +:+ JS.toString value
                              +:+ "' already exists. Please use another value.")) ]))
  /\ (forall existingUser save sign,
      JS.truthy existingUser = true ->
      AuthRoutes.register (Ok existingUser) save sign
      = Json (JS.Num 400)
          [ ("success", JS.Bool false);
            ("error", JS.Str "User already exists") ])
  /\ (forall existingUser error sign,
      JS.truthy existingUser = false ->
      AuthRoutes.register (Ok existingUser) (Throws error) sign
      = Json (JS.Num 500)
          [ ("success", JS.Bool false);
            ("error", JS.Str "Registration failed") ]).
Proof.
  split; [| split].
  - intros NODE_ENV err req field value rest Henv Hapi Hcode Hkv Hname.
    assert (Hname' : nameIs "CastError" (copyOf (withDefaults err)) = false).
    { unfold nameIs. rewrite prop_copyOf.
      change (String.eqb "name" "message") with false. cbv iota.
      unfold JS.get. rewrite lookup_withDefaults by discriminate.
      destruct (JS.lookupProp (JS.props err) "name") as [v |] eqn:Hv;
        [| reflexivity].
      destruct (JS.strictEq v (JS.Str "CastError")) eqn:E; [| reflexivity].
      apply strictEq_Str in E. congruence. }
    assert (Hcode' :
      JS.strictEq (prop (copyOf (withDefaults err)) "code") (JS.Num 11000)
      = true).
    { rewrite prop_copyOf.
      change (String.eqb "code" "message") with false. cbv iota.
      unfold JS.get. rewrite lookup_withDefaults by discriminate.
      rewrite Hcode. reflexivity. }
    assert (Htr :
      translate (copyOf (withDefaults err))
      = Some (AppError
                (field +:+ " '" +:+ JS.toString value
                 +:+ "' already exists. Please use another value.") 400)).
    { rewrite (translate_duplicate _ Hname' Hcode').
      unfold handleDuplicateFieldsDB. rewrite prop_copyOf.
      change (String.eqb "keyValue" "message") with false. cbv iota.
      unfold JS.get at 1 2. rewrite lookup_withDefaults by discriminate.
      rewrite Hkv. simpl JS.keys. cbv iota.
      unfold JS.index. simpl JS.toString. unfold JS.get.
      simpl JS.lookupProp. rewrite String.eqb_refl. reflexivity. }
    split; [exact Htr |].
    rewrite (globalErrorHandler_production _ _ _ Henv), Htr.
    unfold sendErrorProd. rewrite Hapi. reflexivity.
  - intros existingUser save sign H. unfold AuthRoutes.register.
    rewrite H. reflexivity.
  - intros existingUser error sign H. unfold AuthRoutes.register.
    rewrite H. reflexivity.
Qed.

(** The error thrown by the driver when a second user is saved with the
    e-mail address [ada@example.com]. *)
Definition duplicateEmailError : ErrorObject :=
  {| JS.props :=
       [ ("index", JS.Num 0);
         ("code", JS.Num 11000);
         ("keyPattern", JS.Obj [ ("email", JS.Num 1) ]);
         ("keyValue", JS.Obj [ ("email", JS.Str "ada@example.com") ]) ];
     JS.ctorMessage :=
       JS.Str "E11000 duplicate key error collection: users index: email_1";
     JS.ctorStack := JS.Str "";
     JS.protoName := JS.Str "MongoServerError" |}.

Lemma C5_witness :
  globalErrorHandler (JS.Str "production") duplicateEmailError apiRequest
  = Sent (Json (JS.Num 400)
            [ ("success", JS.Bool false);
              ("error",
               JS.Str ("email" +:+ " '" +:+ JS.toString (JS.Str "ada@example.com")
                       +:+ "' already exists. Please use another value.")) ])
  /\ AuthRoutes.register (Ok (JS.Obj [ ("email", JS.Str "ada@example.com") ]))
       (Throws duplicateEmailError) (Ok "token")
     = Json (JS.Num 400)
         [ ("success", JS.Bool false);
           ("error", JS.Str "User already exists") ].
Proof.
  split.
  - apply (proj1 C5_duplicate_key_and_registration (JS.Str "production")
             duplicateEmailError apiRequest "email"
             (JS.Str "ada@example.com") []);
      [discriminate | reflexivity | reflexivity | reflexivity | discriminate].
  - apply (proj1 (proj2 C5_duplicate_key_and_registration)). reflexivity.
Defined.

(** C5 as stated fails: when the lookup finds no user and [save] throws
    the duplicate-key error, the register route answers 500, not 400. *)
Lemma C5_counterexample :
  prop duplicateEmailError "code" = JS.Num 11000
  /\ AuthRoutes.register (Ok JS.Null) (Throws duplicateEmailError) (Ok "token")
     = Json (JS.Num 500)
         [ ("success", JS.Bool false);
           ("error", JS.Str "Registration failed") ]
  /\ statusOf (AuthRoutes.register (Ok JS.Null) (Throws duplicateEmailError)
                 (Ok "token")) <> JS.Num 400.
Proof.
  split; [reflexivity |]. split; [reflexivity |]. discriminate.
Qed.

(** *** The envelope of error responses *)

(** The status codes named by the interface description. *)
Definition conventional : list Z :=
  [400; 401; 403; 404; 413; 415; 429; 500; 503].

(** The response has a JSON body with [success: false]. *)
Definition failureBody (r : Response) : Prop :=
  exists body,
    jsonBody r = Some body /\ JS.get body "success" = JS.Bool false.

Lemma failure_failureBody code message :
  failureBody (Auth.failure code message).
Proof. eexists. split; reflexivity. Qed.

Lemma onError_cases (error : JS.ErrorObject) :
  failureBody (Auth.onError error)
  /\ (statusOf (Auth.onError error) = JS.Num 401
      \/ statusOf (Auth.onError error) = JS.Num 500).
Proof.
  unfold Auth.onError.
  repeat match goal with
         | |- context [if ?b then _ else _] => destruct b
         end;
    (split; [apply failure_failureBody | simpl; tauto]).
Qed.

Lemma auth_responses env authHeader now r :
  Auth.auth env authHeader now = Respond r ->
  failureBody r
  /\ (statusOf r = JS.Num 401 \/ statusOf r = JS.Num 403
      \/ statusOf r = JS.Num 500).
Proof.
  unfold Auth.auth. intros H.
  repeat match type of H with
         | context [match ?x with _ => _ end] => destruct x eqn:?
         end;
    try discriminate; injection H as <-;
    try (split; [apply failure_failureBody | simpl; tauto]);
    destruct (onError_cases error) as [Hb [Hs | Hs]];
    (split; [exact Hb | tauto]).
Qed.

Lemma handleNotFound_quiet (req : Request) :
  fires (copyOf (withDefaults (handleNotFound req))) = false.
Proof. reflexivity. Qed.

(** C6, as amended. Validation failures are answered with 400 and
    authentication failures with 401, 403 or 500, each with a JSON body
    holding [success: false].  In production, on a request whose URL
    starts with [/api], an error translated by the global handler (one to
    which a translation rule applies, the rule giving an error) is answered
    with a JSON body holding [success: false] and with one of the status
    codes 400, 401, 429, 500 and 503, and the error of [handleNotFound]
    with such a body and 404; all of these are conventional codes.  On any
    other URL the handler answers a translated error with a rendered page,
    which has no JSON body. *)
Theorem C6_error_envelopes :
  (forall errors r,
      Validation.handleValidationErrors errors = Respond r ->
      failureBody r /\ statusOf r = JS.Num 400)
  /\ (forall file r,
      Validation.validateFileUpload file = Respond r ->
      failureBody r /\ statusOf r = JS.Num 400)
  /\ (forall env authHeader now r,
      Auth.auth env authHeader now = Respond r ->
      failureBody r
      /\ (statusOf r = JS.Num 401 \/ statusOf r = JS.Num 403
          \/ statusOf r = JS.Num 500))
  /\ (forall NODE_ENV err req error,
      NODE_ENV <> JS.Str "development" ->
      isApi req = true ->
      fires (copyOf (withDefaults err)) = true ->
      translate (copyOf (withDefaults err)) = Some error ->
      exists r c,
        globalErrorHandler NODE_ENV err req = Sent r
        /\ failureBody r
        /\ statusOf r = JS.Num c
        /\ In c translatorCodes
        /\ In c conventional)
  /\ (forall NODE_ENV req,
      NODE_ENV <> JS.Str "development" ->
      isApi req = true ->
      exists r,
        globalErrorHandler NODE_ENV (handleNotFound req) req = Sent r
        /\ failureBody r
        /\ statusOf r = JS.Num 404
        /\ In 404 conventional)
  /\ (forall NODE_ENV err req error,
      NODE_ENV <> JS.Str "development" ->
      isApi req = false ->
      fires (copyOf (withDefaults err)) = true ->
      translate (copyOf (withDefaults err)) = Some error ->
      exists r,
        globalErrorHandler NODE_ENV err req = Sent r
        /\ jsonBody r = None
        /\ statusOf r = prop error "statusCode").
Proof.
  split; [| split; [| split; [| split; [| split]]]].
  - intros errors r H. destruct errors; simpl in H; [discriminate |].
    injection H as <-. split; [| reflexivity].
    eexists. split; reflexivity.
  - intros file r H. unfold Validation.validateFileUpload in H.
    repeat match type of H with
           | context [match ?x with _ => _ end] => destruct x
           end;
      try discriminate; injection H as <-;
      (split; [eexists; split; reflexivity | reflexivity]).
  - apply auth_responses.
  - intros NODE_ENV err req error Henv Hapi Hf Htr.
    rewrite (globalErrorHandler_production _ _ _ Henv), Htr.
    destruct (translate_fired _ Hf) as [Hnone | (m & c & Hsome & Hc)];
      [congruence |].
    rewrite Hsome in Htr. injection Htr as <-.
    destruct (sendErrorProd_operational (AppError m c) req Hapi eq_refl)
      as (extra & -> & _).
    eexists. exists c. split; [reflexivity |].
    split; [eexists; split; reflexivity |].
    split; [reflexivity |].
    split; [exact Hc |].
    unfold translatorCodes, conventional in *. simpl in *. intuition.
  - intros NODE_ENV req Henv Hapi.
    rewrite (globalErrorHandler_production _ _ _ Henv).
    rewrite (translate_quiet _ (handleNotFound_quiet req)).
    destruct (sendErrorProd_operational
                (copyOf (withDefaults (handleNotFound req))) req Hapi eq_refl)
      as (extra & -> & _).
    eexists. split; [reflexivity |].
    split; [eexists; split; reflexivity |].
    split; [reflexivity |].
    unfold conventional. simpl. tauto.
  - intros NODE_ENV err req error Henv Hapi Hf Htr.
    rewrite (globalErrorHandler_production _ _ _ Henv), Htr.
    destruct (translate_fired _ Hf) as [Hnone | (m & c & Hsome & Hc)];
      [congruence |].
    rewrite Hsome in Htr. injection Htr as <-.
    unfold sendErrorProd. rewrite Hapi.
    eexists. split; [reflexivity |]. split; reflexivity.
Qed.

Lemma C6_witness :
  fires (copyOf (withDefaults jwtError)) = true
  /\ translate (copyOf (withDefaults jwtError)) = Some handleJWTError
  /\ exists r c,
       globalErrorHandler (JS.Str "production") jwtError apiRequest = Sent r
       /\ failureBody r
       /\ statusOf r = JS.Num c
       /\ In c translatorCodes
       /\ In c conventional.
Proof.
  split; [reflexivity |].
  split; [reflexivity |].
  apply (proj1 (proj2 (proj2 (proj2 C6_error_envelopes)))
           (JS.Str "production") jwtError apiRequest handleJWTError);
    [discriminate | reflexivity | reflexivity | reflexivity].
Defined.

(** C6 as stated fails: on a URL outside [/api] an error translated by the
    global handler in production is answered with a rendered page, so the
    response has no JSON body. *)
Lemma C6_counterexample :
  translate (copyOf (withDefaults jwtError)) = Some handleJWTError
  /\ globalErrorHandler (JS.Str "production") jwtError pageRequest
     = Sent (Render (JS.Num 401) "error"
               [ ("title", JS.Str "Something went wrong!");
                 ("msg", JS.Str "Invalid token. Please log in again.") ])
  /\ ~ failureBody
         (Render (JS.Num 401) "error"
            [ ("title", JS.Str "Something went wrong!");
              ("msg", JS.Str "Invalid token. Please log in again.") ]).
Proof.
  split; [reflexivity |].
  split; [vm_compute; reflexivity |].
  intros (body & H & _). discriminate H.
Qed.

End ErrorHandlerProofs.

(** ** Chat messages *)

Module ChatProofs.
Import Http Chat.

Definition feedbackKeys : list string :=
  [ "userRating"; "userFeedback"; "feedbackDate" ].

(** [m'] is [m] except, at most, for the three feedback fields of its
    metadata and for [updatedAt]. *)
Definition sameButFeedback (m m' : Message) : Prop :=
  _id m' = _id m
  /\ userId m' = userId m
  /\ conversationId m' = conversationId m
  /\ type m' = type m
  /\ content m' = content m
  /\ embedding m' = embedding m
  /\ createdAt m' = createdAt m
  /\ (forall k, ~ In k feedbackKeys ->
                JS.get (metadata m') k = JS.get (metadata m) k).

(** The message is the one named by the request. *)
Definition named (uid messageId : string) (m : Message) : bool :=
  String.eqb (_id m) messageId && String.eqb (userId m) uid.

Lemma get_set (ps : JS.properties) (k k' : string) (v : JS.value) :
  JS.get (JS.set ps k v) k'
  = if String.eqb k k' then v else JS.get ps k'.
Proof.
  unfold JS.get. rewrite ErrorHandlerProofs.lookupProp_set.
  destruct (String.eqb k k'); reflexivity.
Qed.

Lemma sameButFeedback_refl (m : Message) : sameButFeedback m m.
Proof. repeat split. Qed.

Lemma setFeedback_frame rating feedback now stamp (m : Message) :
  sameButFeedback m (setFeedback rating feedback now stamp m).
Proof. repeat split. Qed.

Lemma findOneAndUpdate_length matches update (coll : Collection) :
  length (snd (findOneAndUpdate matches update coll)) = length coll.
Proof.
  induction coll as [| m rest IH]; simpl; [reflexivity |].
  destruct (matches m); simpl; [reflexivity |].
  destruct (findOneAndUpdate matches update rest) as [found rest'].
  simpl in *. congruence.
Qed.

Lemma findOneAndUpdate_lookup matches update (coll : Collection)
    (i : nat) (m : Message) :
  coll !! i = Some m ->
  snd (findOneAndUpdate matches update coll) !! i = Some m
  \/ (matches m = true
      /\ snd (findOneAndUpdate matches update coll) !! i = Some (update m)).
Proof.
  revert i. induction coll as [| m0 rest IH]; intros i Hi;
    [discriminate Hi |].
  simpl. destruct (matches m0) eqn:Hm0.
  - destruct i as [| i]; simpl in *.
    + injection Hi as ->. right. split; [exact Hm0 | reflexivity].
    + left. exact Hi.
  - destruct (findOneAndUpdate matches update rest) as [found rest'] eqn:E.
    destruct i as [| i]; simpl in *.
    + left. exact Hi.
    + apply IH. exact Hi.
Qed.

Lemma postFeedback_collection uid messageId rating feedback now stamp coll :
  snd (postFeedback uid messageId rating feedback now stamp (Ok tt) coll)
  = snd (findOneAndUpdate (named uid messageId)
           (setFeedback rating feedback now stamp) coll).
Proof.
  unfold postFeedback. fold (named uid messageId).
  destruct (findOneAndUpdate _ _ coll) as [[found |] coll']; reflexivity.
Qed.

Lemma postFeedback_thrown uid messageId rating feedback now stamp error coll :
  postFeedback uid messageId rating feedback now stamp (Throws error) coll
  = (Json (JS.Num 500)
       [ ("success", JS.Bool false);
         ("error", JS.Str "Failed to record feedback") ],
     coll).
Proof. reflexivity. Qed.

(** The first match is the document that is updated and returned. *)
Lemma findOneAndUpdate_first matches update (coll : Collection)
    (i : nat) (m : Message) :
  coll !! i = Some m ->
  matches m = true ->
  (forall j m0, (j < i)%nat -> coll !! j = Some m0 -> matches m0 = false) ->
  findOneAndUpdate matches update coll
  = (Some (update m), <[ i := update m ]> coll).
Proof.
  revert i. induction coll as [| m0 rest IH]; intros i Hi Hm Hfirst;
    [discriminate Hi |].
  simpl. destruct i as [| i]; simpl in Hi.
  - injection Hi as ->. rewrite Hm. reflexivity.
  - rewrite (Hfirst 0%nat m0) by (lia || reflexivity).
    rewrite (IH i Hi Hm); [reflexivity |].
    intros j m1 Hj Hl. apply (Hfirst (S j) m1); [lia | exact Hl].
Qed.

Lemma findOneAndUpdate_none matches update (coll : Collection) :
  Forall (fun m => matches m = false) coll ->
  findOneAndUpdate matches update coll = (None, coll).
Proof.
  induction 1 as [| m rest Hm _ IH]; simpl; [reflexivity |].
  rewrite Hm, IH. reflexivity.
Qed.

Lemma postMessage_prefix env uid message conversation now coll :
  coll `prefix_of` snd (postMessage env uid message conversation now coll).
Proof.
  unfold postMessage, insert.
  repeat match goal with
         | |- context [match ?x with _ => _ end] => destruct x
         end; simpl; try done;
    try (apply prefix_app_r; done);
    rewrite <- ?app_assoc; apply prefix_app_r; done.
Qed.

Lemma deleteMany_sublist uid coll : deleteMany uid coll `sublist_of` coll.
Proof.
  unfold deleteMany. induction coll as [| m rest IH]; simpl; [done |].
  destruct (negb (String.eqb (userId m) uid));
    [apply sublist_skip | apply sublist_cons]; exact IH.
Qed.

(** C7, as amended. The feedback route changes no stored message
    except the first one with the given id that belongs to the requesting
    user.  On that one it sets [updatedAt], which the schema's
    [timestamps] option maintains, and answers 200; identifier, owner,
    conversation, type, content, embedding, [createdAt] and every field of
    [metadata] other than [userRating], [userFeedback] and [feedbackDate]
    stay as they were.  When no message has the given id and owner the
    collection stays as it is and the answer is 404, and when the query
    throws the collection stays as it is and the answer is 500.  The other
    two routes that write to the collection update no stored message:
    sending a message only appends documents, and deleting an account only
    removes documents. *)
Theorem C7_messages_change_only_by_feedback :
  (forall uid messageId rating feedback now stamp query (coll : Collection),
      let answer :=
        postFeedback uid messageId rating feedback now stamp query coll in
      length (snd answer) = length coll
      /\ (forall i m, coll !! i = Some m ->
            exists m', snd answer !! i = Some m'
              /\ sameButFeedback m m'
              /\ (m' <> m ->
                  _id m = messageId /\ userId m = uid
                  /\ updatedAt m' = stamp))
      /\ (forall i m,
            query = Ok tt ->
            coll !! i = Some m ->
            _id m = messageId -> userId m = uid ->
            (forall j m0, (j < i)%nat -> coll !! j = Some m0 ->
                          ~ (_id m0 = messageId /\ userId m0 = uid)) ->
            exists m',
              snd answer = <[ i := m' ]> coll
              /\ updatedAt m' = stamp
              /\ sameButFeedback m m'
              /\ fst answer
                 = Json (JS.Num 200)
                     [ ("success", JS.Bool true);
                       ("message", JS.Str "Feedback recorded") ])
      /\ (query = Ok tt ->
          Forall (fun m => ~ (_id m = messageId /\ userId m = uid)) coll ->
          answer
          = (Json (JS.Num 404)
               [ ("success", JS.Bool false);
                 ("error", JS.Str "Message not found") ],
             coll))
      /\ (forall error,
          query = Throws error ->
          answer
          = (Json (JS.Num 500)
               [ ("success", JS.Bool false);
                 ("error", JS.Str "Failed to record feedback") ],
             coll)))
  /\ (forall env uid message conversation now (coll : Collection),
      coll `prefix_of`
        perform (PostMessage env uid message conversation now) coll)
  /\ (forall uid (coll : Collection),
      perform (DeleteAccount uid) coll `sublist_of` coll).
Proof.
  assert (Hnamed : forall uid messageId m,
             named uid messageId m = false
             <-> ~ (_id m = messageId /\ userId m = uid)).
  { intros uid messageId m. unfold named.
    destruct (String.eqb_spec (_id m) messageId);
      destruct (String.eqb_spec (userId m) uid); simpl;
      split; intros H; first [reflexivity | discriminate H | tauto]. }
  split; [| split].
  - intros uid messageId rating feedback now stamp query coll answer.
    subst answer. split; [| split; [| split; [| split]]].
    + destruct query as [[] | error];
        [| rewrite postFeedback_thrown; reflexivity].
      rewrite postFeedback_collection. apply findOneAndUpdate_length.
    + intros i m Hi. destruct query as [[] | error].
      * rewrite postFeedback_collection.
        destruct (findOneAndUpdate_lookup (named uid messageId)
                    (setFeedback rating feedback now stamp) coll i m Hi)
          as [Hsame | [Hmatch Hupd]].
        -- exists m. split; [exact Hsame |].
           split; [apply sameButFeedback_refl | congruence].
        -- exists (setFeedback rating feedback now stamp m).
           split; [exact Hupd |].
           split; [apply setFeedback_frame |].
           intros _. apply andb_true_iff in Hmatch.
           destruct Hmatch as [H1 H2].
           apply String.eqb_eq in H1, H2.
           split; [exact H1 |]. split; [exact H2 | reflexivity].
      * rewrite postFeedback_thrown. exists m. split; [exact Hi |].
        split; [apply sameButFeedback_refl | congruence].
    + intros i m -> Hi Hid Huid Hfirst.
      assert (Hm : named uid messageId m = true).
      { unfold named. rewrite Hid, Huid, !String.eqb_refl. reflexivity. }
      assert (Hf : forall j m0, (j < i)%nat -> coll !! j = Some m0 ->
                                named uid messageId m0 = false).
      { intros j m0 Hj Hl. apply Hnamed. exact (Hfirst j m0 Hj Hl). }
      exists (setFeedback rating feedback now stamp m).
      unfold postFeedback. fold (named uid messageId).
      rewrite (findOneAndUpdate_first _ _ coll i m Hi Hm Hf).
      split; [reflexivity |]. split; [reflexivity |].
      split; [apply setFeedback_frame | reflexivity].
    + intros -> Hnone. unfold postFeedback. fold (named uid messageId).
      rewrite findOneAndUpdate_none; [reflexivity |].
      eapply Forall_impl; [exact Hnone |].
      intros m Hm. apply Hnamed. exact Hm.
    + intros error ->. apply postFeedback_thrown.
  - intros. simpl. apply postMessage_prefix.
  - intros. simpl. apply deleteMany_sublist.
Qed.

Definition sampleMessage : Message :=
  {| _id := "m1"; userId := "u1"; conversationId := Some "conv_1";
     type := ai; content := "Keep going!";
     metadata := [ ("goalContext", JS.Arr []);
                   ("intent", JS.Str "motivation") ];
     embedding := [];
     createdAt := 500;
     updatedAt := 500 |}.

(** The message as the feedback route leaves it: the three feedback paths
    are not declared by the schema, so the cast update holds [updatedAt]
    only. *)
Example feedback_sample :
  postFeedback "u1" "m1" (JS.Num 5) (JS.Str "helpful") 1000 1001 (Ok tt)
    [ sampleMessage ]
  = (Json (JS.Num 200)
       [ ("success", JS.Bool true); ("message", JS.Str "Feedback recorded") ],
     [ {| _id := "m1"; userId := "u1"; conversationId := Some "conv_1";
          type := ai; content := "Keep going!";
          metadata := [ ("goalContext", JS.Arr []);
                        ("intent", JS.Str "motivation") ];
          embedding := [];
          createdAt := 500;
          updatedAt := 1001 |} ]).
Proof. reflexivity. Qed.

Example feedback_other_user :
  postFeedback "u2" "m1" (JS.Num 1) (JS.Str "bad") 1000 1001 (Ok tt)
    [ sampleMessage ]
  = (Json (JS.Num 404)
       [ ("success", JS.Bool false); ("error", JS.Str "Message not found") ],
     [ sampleMessage ]).
Proof. reflexivity. Qed.

Lemma C7_witness :
  [ sampleMessage ] !! 0%nat = Some sampleMessage
  /\ exists m',
       snd (postFeedback "u1" "m1" (JS.Num 5) (JS.Str "helpful") 1000 1001
              (Ok tt) [ sampleMessage ])
       = <[ 0%nat := m' ]> [ sampleMessage ]
       /\ updatedAt m' = 1001
       /\ sameButFeedback sampleMessage m'
       /\ fst (postFeedback "u1" "m1" (JS.Num 5) (JS.Str "helpful") 1000 1001
                 (Ok tt) [ sampleMessage ])
          = Json (JS.Num 200)
              [ ("success", JS.Bool true);
                ("message", JS.Str "Feedback recorded") ].
Proof.
  split; [reflexivity |].
  apply (proj1 (proj2 (proj2 (proj1 C7_messages_change_only_by_feedback
                  "u1" "m1" (JS.Num 5) (JS.Str "helpful") 1000 1001 (Ok tt)
                  [ sampleMessage ]))) 0%nat sampleMessage);
    [reflexivity | reflexivity | reflexivity | reflexivity |].
  intros j m0 Hj. lia.
Defined.

(** C7 as stated fails: the feedback route sets a field of the message
    that is none of the three feedback fields of its metadata, namely
    [updatedAt]. *)
Lemma C7_counterexample :
  exists m',
    snd (postFeedback "u1" "m1" (JS.Num 5) (JS.Str "helpful") 1000 1001
           (Ok tt) [ sampleMessage ]) = [ m' ]
    /\ updatedAt sampleMessage = 500
    /\ updatedAt m' = 1001
    /\ updatedAt m' <> updatedAt sampleMessage.
Proof.
  eexists. split; [reflexivity |]. split; [reflexivity |].
  split; [reflexivity |]. discriminate.
Qed.

End ChatProofs.

(** ** Brute force protection *)

Module SecurityProofs.
Import Http Security.

(** The status codes counted as failed attempts, and the 2xx ones. *)
Definition failed (statusCode : Z) : bool :=
  (statusCode =? 401) || (statusCode =? 403).

Definition succeeded (statusCode : Z) : bool :=
  (200 <=? statusCode) && (statusCode <? 300).

(** An event that leaves the failed-attempt record of [key] alone: any
    arrival, any response for another key, and a response for [key] that
    is neither a failed attempt nor a 2xx. *)
Definition neutral (key : string) (ev : Event) : Prop :=
  match ev with
  | Arrive _ _ => True
  | Finish l statusCode =>
      l_key l <> key \/ (failed statusCode = false
                         /\ succeeded statusCode = false)
  end.

(** One more failed attempt for [key]: neutral events, then the response
    with a failing status code of a request that arrived at [time]. *)
Record Round := {
  before : list Event;
  time : Z;
  code : Z
}.

Definition events (key : string) (r : Round) : list Event :=
  before r ++ [ Finish {| l_key := key; l_now := time r |} (code r) ].

Definition wellFormed (key : string) (r : Round) : Prop :=
  Forall (neutral key) (before r) /\ failed (code r) = true.

Definition trace (key : string) (rounds : list Round) : list Event :=
  concat (List.map (events key) rounds).

(** While [key] is blocked until [u]: requests for [key] that arrive
    before [u], and no failed attempt reported for [key] by a request
    that was let through earlier. *)
Definition duringBlock (key : string) (u : Z) (ev : Event) : Prop :=
  match ev with
  | Arrive req now => keyOf req = key -> now < u
  | Finish l statusCode => l_key l = key -> failed statusCode = false
  end.

Definition stateAfter (o : Options) (st : State) (evs : list Event) : State :=
  fst (run o st evs).

Definition outputs (o : Options) (st : State) (evs : list Event)
    : list (option (Step Listener)) :=
  snd (run o st evs).

Lemma run_cons o st ev evs :
  run o st (ev :: evs)
  = (stateAfter o (fst (step o st ev)) evs,
     snd (step o st ev) :: outputs o (fst (step o st ev)) evs).
Proof.
  unfold stateAfter, outputs. simpl.
  destruct (step o st ev) as [st' out]. simpl.
  destruct (run o st' evs) as [st'' outs]. reflexivity.
Qed.

Lemma stateAfter_cons o st ev evs :
  stateAfter o st (ev :: evs) = stateAfter o (fst (step o st ev)) evs.
Proof. unfold stateAfter at 1. rewrite run_cons. reflexivity. Qed.

Lemma stateAfter_app o st evs1 evs2 :
  stateAfter o st (evs1 ++ evs2)
  = stateAfter o (stateAfter o st evs1) evs2.
Proof.
  revert st. induction evs1 as [| ev evs1 IH]; intros st; [reflexivity |].
  rewrite <- app_comm_cons, !stateAfter_cons. apply IH.
Qed.

Lemma protect_attempts st req now :
  attempts (fst (bruteForceProtection st req now)) = attempts st.
Proof.
  unfold bruteForceProtection. destruct (blocked st !! keyOf req) as [b |];
    [destruct (now <? until b) |]; reflexivity.
Qed.

Lemma neutral_step o st key ev :
  neutral key ev ->
  attempts (fst (step o st ev)) !! key = attempts st !! key.
Proof.
  destruct ev as [req now | l statusCode]; simpl.
  - intros _. pose proof (protect_attempts st req now) as H.
    destruct (bruteForceProtection st req now) as [st' r]. simpl in *. congruence.
  - unfold onFinish. fold (failed statusCode). fold (succeeded statusCode).
    intros [Hkey | [Hf Hs]].
    + destruct (failed statusCode).
      * match goal with
        | |- context [if ?b then _ else _] => destruct b
        end; simpl;
          rewrite ?lookup_delete_ne, ?lookup_insert_ne by done; reflexivity.
      * destruct (succeeded statusCode); simpl;
          rewrite ?lookup_delete_ne by done; reflexivity.
    + rewrite Hf, Hs. reflexivity.
Qed.

Lemma neutral_run o key evs st :
  Forall (neutral key) evs ->
  attempts (stateAfter o st evs) !! key = attempts st !! key.
Proof.
  intros H. revert st. induction H as [| ev evs Hev _ IH]; intros st;
    [reflexivity |].
  rewrite stateAfter_cons, IH. apply neutral_step. exact Hev.
Qed.

Lemma onFinish_failed o st key t statusCode :
  failed statusCode = true ->
  onFinish o st {| l_key := key; l_now := t |} statusCode
  = let info0 :=
      default {| count := 0; firstAttempt := t |} (attempts st !! key) in
    let info :=
      if windowMs o <? t - firstAttempt info0
      then {| count := 1; firstAttempt := t |}
      else {| count := count info0 + 1;
              firstAttempt := firstAttempt info0 |} in
    if maxAttempts o <=? count info then
      {| attempts := delete key (<[ key := info ]> (attempts st));
         blocked := <[ key := {| until := t + blockDuration o |} ]>
                      (blocked st) |}
    else {| attempts := <[ key := info ]> (attempts st);
            blocked := blocked st |}.
Proof.
  intros H. unfold onFinish. fold (failed statusCode). rewrite H.
  reflexivity.
Qed.

(** The first failed attempt of a key without a record counts as one. *)
Lemma first_failure o st key t statusCode :
  attempts st !! key = None ->
  failed statusCode = true ->
  let st' := onFinish o st {| l_key := key; l_now := t |} statusCode in
  (1 < maxAttempts o ->
   attempts st' !! key = Some {| count := 1; firstAttempt := t |})
  /\ (maxAttempts o <= 1 ->
      blocked st' !! key = Some {| until := t + blockDuration o |}
      /\ attempts st' !! key = None).
Proof.
  intros Hnone Hf. cbv zeta. rewrite (onFinish_failed _ _ _ _ _ Hf).
  rewrite Hnone. unfold default. cbn [from_option id]. cbv zeta.
  cbn [firstAttempt count].
  replace (t - t) with 0 by lia.
  assert (Hinfo :
    (if windowMs o <? 0
     then {| count := 1; firstAttempt := t |}
     else {| count := 0 + 1; firstAttempt := t |})
    = {| count := 1; firstAttempt := t |}).
  { destruct (windowMs o <? 0); reflexivity. }
  rewrite Hinfo. cbn [count]. split; intros Hmax.
  - replace (maxAttempts o <=? 1) with false by (symmetry; apply Z.leb_gt; lia).
    cbn [attempts]. apply lookup_insert_eq.
  - replace (maxAttempts o <=? 1) with true by (symmetry; apply Z.leb_le; lia).
    cbn [attempts blocked]. split;
      [apply lookup_insert_eq | apply lookup_delete_eq].
Qed.

(** A further failed attempt inside the window adds one to the count and
    blocks the key when the count reaches [maxAttempts]. *)
Lemma next_failure o st key t statusCode c f :
  attempts st !! key = Some {| count := c; firstAttempt := f |} ->
  failed statusCode = true ->
  t - f <= windowMs o ->
  let st' := onFinish o st {| l_key := key; l_now := t |} statusCode in
  (c + 1 < maxAttempts o ->
   attempts st' !! key = Some {| count := c + 1; firstAttempt := f |})
  /\ (maxAttempts o <= c + 1 ->
      blocked st' !! key = Some {| until := t + blockDuration o |}
      /\ attempts st' !! key = None).
Proof.
  intros Hsome Hf Hwin. cbv zeta. rewrite (onFinish_failed _ _ _ _ _ Hf).
  rewrite Hsome. unfold default. cbn [from_option id]. cbv zeta.
  cbn [firstAttempt count].
  replace (windowMs o <? t - f) with false by (symmetry; apply Z.ltb_ge; lia).
  cbn [count]. split; intros Hmax.
  - replace (maxAttempts o <=? c + 1) with false
      by (symmetry; apply Z.leb_gt; lia).
    cbn [attempts]. apply lookup_insert_eq.
  - replace (maxAttempts o <=? c + 1) with true
      by (symmetry; apply Z.leb_le; lia).
    cbn [attempts blocked]. split;
      [apply lookup_insert_eq | apply lookup_delete_eq].
Qed.

Lemma trace_cons key r rounds :
  trace key (r :: rounds)
  = before r ++ Finish {| l_key := key; l_now := time r |} (code r)
             :: trace key rounds.
Proof. unfold trace, events. simpl. rewrite <- app_assoc. reflexivity. Qed.

Lemma stateAfter_round o st key r rounds :
  stateAfter o st (trace key (r :: rounds))
  = stateAfter o
      (onFinish o (stateAfter o st (before r))
         {| l_key := key; l_now := time r |} (code r))
      (trace key rounds).
Proof. rewrite trace_cons, stateAfter_app, stateAfter_cons. reflexivity. Qed.

Lemma accumulate o key rounds :
  forall st c f r,
    attempts st !! key = Some {| count := c; firstAttempt := f |} ->
    Forall (wellFormed key) rounds ->
    Forall (fun r => time r - f <= windowMs o) rounds ->
    c + Z.of_nat (length rounds) = maxAttempts o ->
    last rounds = Some r ->
    blocked (stateAfter o st (trace key rounds)) !! key
    = Some {| until := time r + blockDuration o |}
    /\ attempts (stateAfter o st (trace key rounds)) !! key = None.
Proof.
  induction rounds as [| r0 rest IH]; intros st c f r Hrec Hwf Hwin Hlen Hlast;
    [discriminate Hlast |].
  apply Forall_cons in Hwf. destruct Hwf as [[Hneutral Hfail] Hwf].
  apply Forall_cons in Hwin. destruct Hwin as [Hwin0 Hwin].
  rewrite stateAfter_round.
  pose proof (neutral_run o key (before r0) st Hneutral) as Hpre.
  rewrite Hrec in Hpre.
  destruct (next_failure o _ key (time r0) (code r0) c f Hpre Hfail Hwin0)
    as [Hnext Hblock].
  destruct rest as [| r1 rest].
  - simpl in Hlast. injection Hlast as <-.
    unfold trace. simpl. unfold stateAfter. simpl.
    apply Hblock. simpl in Hlen. lia.
  - apply (IH _ (c + 1) f r).
    + apply Hnext. simpl length in Hlen. lia.
    + exact Hwf.
    + exact Hwin.
    + simpl length in *. lia.
    + exact Hlast.
Qed.

Lemma accumulate_from_none o key r1 rest :
  forall st r,
    attempts st !! key = None ->
    Forall (wellFormed key) (r1 :: rest) ->
    Forall (fun r => time r - time r1 <= windowMs o) rest ->
    Z.of_nat (length (r1 :: rest)) = maxAttempts o ->
    last (r1 :: rest) = Some r ->
    blocked (stateAfter o st (trace key (r1 :: rest))) !! key
    = Some {| until := time r + blockDuration o |}
    /\ attempts (stateAfter o st (trace key (r1 :: rest))) !! key = None.
Proof.
  intros st r Hnone Hwf Hwin Hlen Hlast.
  apply Forall_cons in Hwf. destruct Hwf as [[Hneutral Hfail] Hwf].
  rewrite stateAfter_round.
  pose proof (neutral_run o key (before r1) st Hneutral) as Hpre.
  rewrite Hnone in Hpre.
  destruct (first_failure o _ key (time r1) (code r1) Hpre Hfail)
    as [Hfirst Hblock].
  destruct rest as [| r2 rest].
  - simpl in Hlast. injection Hlast as <-.
    unfold trace. simpl. unfold stateAfter. simpl.
    apply Hblock. simpl in Hlen. lia.
  - apply (accumulate o key (r2 :: rest) _ 1 (time r1) r).
    + apply Hfirst. simpl length in Hlen. lia.
    + exact Hwf.
    + exact Hwin.
    + simpl length in *. lia.
    + exact Hlast.
Qed.

Lemma protect_blocked st req now u :
  blocked st !! keyOf req = Some {| until := u |} ->
  now < u ->
  bruteForceProtection st req now
  = (st, Respond (tooMany (Math.ceil_div (u - now) 1000))).
Proof.
  intros Hb Hlt. unfold bruteForceProtection. rewrite Hb. cbn [until].
  replace (now <? u) with true by (symmetry; apply Z.ltb_lt; lia).
  reflexivity.
Qed.

Lemma protect_expired st req now u :
  blocked st !! keyOf req = Some {| until := u |} ->
  u <= now ->
  bruteForceProtection st req now
  = ({| attempts := attempts st;
        blocked := delete (keyOf req) (blocked st) |},
     Next {| l_key := keyOf req; l_now := now |}).
Proof.
  intros Hb Hle. unfold bruteForceProtection. rewrite Hb. cbn [until].
  replace (now <? u) with false by (symmetry; apply Z.ltb_ge; lia).
  reflexivity.
Qed.

Lemma protect_other st req now key :
  keyOf req <> key ->
  blocked (fst (bruteForceProtection st req now)) !! key = blocked st !! key.
Proof.
  intros Hne. unfold bruteForceProtection.
  destruct (blocked st !! keyOf req) as [b |]; [| reflexivity].
  destruct (now <? until b); [reflexivity |].
  simpl. apply lookup_delete_ne. exact Hne.
Qed.

Lemma onFinish_blocked_other o st l statusCode key :
  l_key l <> key ->
  blocked (onFinish o st l statusCode) !! key = blocked st !! key.
Proof.
  intros Hne. unfold onFinish.
  repeat match goal with
         | |- context [if ?b then _ else _] => destruct b
         end; simpl; rewrite ?lookup_insert_ne by done; reflexivity.
Qed.

Lemma onFinish_not_failed o st l statusCode :
  failed statusCode = false ->
  blocked (onFinish o st l statusCode) = blocked st.
Proof.
  intros Hf. unfold onFinish. fold (failed statusCode). rewrite Hf.
  destruct ((200 <=? statusCode) && (statusCode <? 300)); reflexivity.
Qed.

Lemma duringBlock_step o st key u ev :
  blocked st !! key = Some {| until := u |} ->
  duringBlock key u ev ->
  blocked (fst (step o st ev)) !! key = Some {| until := u |}.
Proof.
  intros Hb Hev. destruct ev as [req now | l statusCode]; simpl in *.
  - destruct (decide (keyOf req = key)) as [Heq | Hne].
    + subst key. rewrite (protect_blocked st req now u Hb (Hev eq_refl)).
      exact Hb.
    + pose proof (protect_other st req now key Hne) as H.
      destruct (bruteForceProtection st req now) as [st' r]. simpl in *. congruence.
  - destruct (decide (l_key l = key)) as [Heq | Hne].
    + rewrite (onFinish_not_failed _ _ _ _ (Hev Heq)). exact Hb.
    + rewrite onFinish_blocked_other by exact Hne. exact Hb.
Qed.

Lemma outputs_cons o st ev evs :
  outputs o st (ev :: evs)
  = snd (step o st ev) :: outputs o (fst (step o st ev)) evs.
Proof. unfold outputs at 1. rewrite run_cons. reflexivity. Qed.

Lemma duringBlock_run o key u evs :
  forall st,
    blocked st !! key = Some {| until := u |} ->
    Forall (duringBlock key u) evs ->
    blocked (stateAfter o st evs) !! key = Some {| until := u |}
    /\ forall (i : nat) req now,
         evs !! i = Some (Arrive req now) ->
         keyOf req = key ->
         outputs o st evs !! i
         = Some (Some (Respond (tooMany (Math.ceil_div (u - now) 1000)))).
Proof.
  induction evs as [| ev evs IH]; intros st Hb Hall.
  - split; [exact Hb |]. intros i req now Hi. discriminate Hi.
  - apply Forall_cons in Hall. destruct Hall as [Hev Hall].
    pose proof (duringBlock_step o st key u ev Hb Hev) as Hb'.
    destruct (IH _ Hb' Hall) as [Hfinal Houts].
    rewrite stateAfter_cons, outputs_cons. split; [exact Hfinal |].
    intros [| i] req now Hi Hkey.
    + simpl in Hi. injection Hi as ->. simpl in Hev. simpl.
      subst key. rewrite (protect_blocked st req now u Hb (Hev eq_refl)).
      reflexivity.
    + simpl in Hi. simpl. apply (Houts i req now Hi Hkey).
Qed.

Lemma succeeded_not_failed statusCode :
  succeeded statusCode = true -> failed statusCode = false.
Proof. unfold succeeded, failed. lia. Qed.

Lemma onFinish_succeeded o st l statusCode :
  succeeded statusCode = true ->
  onFinish o st l statusCode
  = {| attempts := delete (l_key l) (attempts st); blocked := blocked st |}.
Proof.
  intros Hs. unfold onFinish. fold (failed statusCode).
  fold (succeeded statusCode).
  rewrite (succeeded_not_failed _ Hs), Hs. reflexivity.
Qed.

(** [bruteForceProtection()] called without options. *)
Definition noOptions : Options :=
  {| opt_maxAttempts := None; opt_windowMs := None;
     opt_blockDuration := None |}.

(** C10, as amended. For the middleware built with options [o] and for
    a key:
    - when a key without a record collects [maxAttempts] responses with
      status 401 or 403, each for a request that arrived within
      [windowMs] of the first one and with no 2xx response for the key in
      between, the key is blocked until [blockDuration] after the arrival
      of the last of these requests, and its record is dropped;
    - while the key is blocked until [u], and as long as no response with
      status 401 or 403 is reported for a request for the key that was let
      through earlier, every request for the key that arrives before [u]
      is answered with 429 and is not passed on, and the block stays in
      place;
    - the first request for the key that arrives at or after [u] removes
      the block and is passed on;
    - a 2xx response drops the key's record of failed attempts;
    - the defaults are 5 attempts, 15 minutes and 30 minutes. *)
Theorem C10_bruteForceProtection (o : Options) (key : string) :
  (forall st r1 rest r,
      attempts st !! key = None ->
      Forall (wellFormed key) (r1 :: rest) ->
      Forall (fun r => time r - time r1 <= windowMs o) rest ->
      Z.of_nat (length (r1 :: rest)) = maxAttempts o ->
      last (r1 :: rest) = Some r ->
      blocked (stateAfter o st (trace key (r1 :: rest))) !! key
      = Some {| until := time r + blockDuration o |}
      /\ attempts (stateAfter o st (trace key (r1 :: rest))) !! key = None)
  /\ (forall st u evs,
      blocked st !! key = Some {| until := u |} ->
      Forall (duringBlock key u) evs ->
      blocked (stateAfter o st evs) !! key = Some {| until := u |}
      /\ forall (i : nat) req now,
           evs !! i = Some (Arrive req now) ->
           keyOf req = key ->
           outputs o st evs !! i
           = Some (Some (Respond
                           (Json (JS.Num 429)
                              [ ("success", JS.Bool false);
                                ("error",
                                 JS.Str "Too many failed attempts. Account temporarily locked.");
                                ("retryAfter",
                                 JS.Num (Math.ceil_div (u - now) 1000)) ]))))
  /\ (forall st u req now,
      keyOf req = key ->
      blocked st !! key = Some {| until := u |} ->
      u <= now ->
      bruteForceProtection st req now
      = ({| attempts := attempts st; blocked := delete key (blocked st) |},
         Next {| l_key := key; l_now := now |})
      /\ blocked (fst (bruteForceProtection st req now)) !! key = None)
  /\ (forall st t statusCode,
      200 <= statusCode < 300 ->
      attempts (onFinish o st {| l_key := key; l_now := t |} statusCode)
        !! key = None
      /\ blocked (onFinish o st {| l_key := key; l_now := t |} statusCode)
         = blocked st)
  /\ (maxAttempts noOptions = 5
      /\ windowMs noOptions = 15 * 60 * 1000
      /\ blockDuration noOptions = 30 * 60 * 1000).
Proof.
  split; [| split; [| split; [| split]]].
  - intros st r1 rest r. apply accumulate_from_none.
  - intros st u evs Hb Hall. apply (duringBlock_run o key u evs st Hb Hall).
  - intros st u req now Hkey Hb Hle. subst key.
    rewrite (protect_expired st req now u Hb Hle). split; [reflexivity |].
    simpl. apply lookup_delete_eq.
  - intros st t statusCode Hrange.
    assert (Hs : succeeded statusCode = true) by (unfold succeeded; lia).
    rewrite (onFinish_succeeded _ _ _ _ Hs). simpl.
    split; [apply lookup_delete_eq | reflexivity].
  - repeat split.
Qed.

(** Five failed logins for one address and account, one second apart. *)
Definition loginRequest : Req :=
  {| ip := "10.0.0.7"; email := Some "ada@example.com"; username := None |}.

Definition loginKey : string := "10.0.0.7:ada@example.com".

Definition failedLogin (t : Z) : Round :=
  {| before := [ Arrive loginRequest t ]; time := t; code := 401 |}.

Definition fiveFailures : list Round :=
  [ failedLogin 0; failedLogin 1000; failedLogin 2000; failedLogin 3000;
    failedLogin 4000 ].

Example keyOf_loginRequest : keyOf loginRequest = loginKey.
Proof. reflexivity. Qed.

Example blocked_after_five :
  blocked (stateAfter noOptions initial (trace loginKey fiveFailures))
    !! loginKey
  = Some {| until := 1804000 |}.
Proof. vm_compute. reflexivity. Qed.

Example sixth_request_rejected :
  snd (bruteForceProtection (stateAfter noOptions initial (trace loginKey fiveFailures))
         loginRequest 5000)
  = Respond (tooMany 1799).
Proof. vm_compute. reflexivity. Qed.

Example request_after_block :
  snd (bruteForceProtection (stateAfter noOptions initial (trace loginKey fiveFailures))
         loginRequest 1804000)
  = Next {| l_key := loginKey; l_now := 1804000 |}.
Proof. vm_compute. reflexivity. Qed.

(** The window is anchored at the first counted failure: a failure that
    arrives more than [windowMs] after it starts a new count at one. *)
Example window_restart :
  attempts (stateAfter noOptions initial
              (trace loginKey [ failedLogin 0; failedLogin 960000 ]))
    !! loginKey
  = Some {| count := 1; firstAttempt := 960000 |}.
Proof. vm_compute. reflexivity. Qed.

Example success_clears :
  attempts (onFinish noOptions
              (stateAfter noOptions initial
                 (trace loginKey [ failedLogin 0; failedLogin 1000 ]))
              {| l_key := loginKey; l_now := 2000 |} 200)
    !! loginKey
  = None.
Proof. vm_compute. reflexivity. Qed.

Lemma C10_witness :
  attempts initial !! loginKey = None
  /\ Forall (wellFormed loginKey) fiveFailures
  /\ Forall (fun r => time r - time (failedLogin 0) <= windowMs noOptions)
       (tail fiveFailures)
  /\ Z.of_nat (length fiveFailures) = maxAttempts noOptions
  /\ last fiveFailures = Some (failedLogin 4000)
  /\ blocked (stateAfter noOptions initial (trace loginKey fiveFailures))
       !! loginKey
     = Some {| until := time (failedLogin 4000) + blockDuration noOptions |}
  /\ attempts (stateAfter noOptions initial (trace loginKey fiveFailures))
       !! loginKey = None.
Proof.
  assert (Hwf : Forall (wellFormed loginKey) fiveFailures).
  { repeat constructor. }
  assert (Hwin :
    Forall (fun r => time r - time (failedLogin 0) <= windowMs noOptions)
      (tail fiveFailures)).
  { repeat constructor; vm_compute; discriminate. }
  split; [reflexivity |]. split; [exact Hwf |]. split; [exact Hwin |].
  split; [reflexivity |]. split; [reflexivity |].
  apply (proj1 (C10_bruteForceProtection noOptions loginKey) initial
           (failedLogin 0) (tail fiveFailures) (failedLogin 4000));
    [reflexivity | exact Hwf | exact Hwin | reflexivity | reflexivity].
Defined.

(** Ten logins for one key: five arrive in the first milliseconds and are
    answered late, five arrive ten minutes later. *)
Definition arrivals : list Event :=
  List.map (Arrive loginRequest)
    [ 0; 1; 2; 3; 4; 600000; 600001; 600002; 600003; 600004 ].

Definition refused (t : Z) : Event :=
  Finish {| l_key := loginKey; l_now := t |} 401.

(** The responses of the later five are finished first. *)
Definition laterRefused : list Event :=
  List.map refused [ 600000; 600001; 600002; 600003; 600004 ].

Definition earlierRefused : list Event :=
  List.map refused [ 0; 1; 2; 3; 4 ].

(** C10 as stated fails: all ten requests are let through; the five
    failures of the later ones block the key until 2400004; the five
    failures of the earlier ones, reported during the block, count to
    [maxAttempts] again and replace the block by one that ends at
    1800004, thirty minutes after the arrival of the fifth early request;
    a request for the key that arrives at 1800005 is let through. *)
Lemma C10_counterexample :
  outputs noOptions initial arrivals
  = List.map (fun t => Some (Next {| l_key := loginKey; l_now := t |}))
      [ 0; 1; 2; 3; 4; 600000; 600001; 600002; 600003; 600004 ]
  /\ blocked (stateAfter noOptions initial (arrivals ++ laterRefused))
       !! loginKey
     = Some {| until := 2400004 |}
  /\ blocked (stateAfter noOptions initial
                (arrivals ++ laterRefused ++ earlierRefused))
       !! loginKey
     = Some {| until := 1800004 |}
  /\ 1800005 < 2400004
  /\ snd (bruteForceProtection
            (stateAfter noOptions initial
               (arrivals ++ laterRefused ++ earlierRefused))
            loginRequest 1800005)
     = Next {| l_key := loginKey; l_now := 1800005 |}.
Proof.
  split; [vm_compute; reflexivity |].
  split; [vm_compute; reflexivity |].
  split; [vm_compute; reflexivity |].
  split; [lia |].
  vm_compute. reflexivity.
Qed.

End SecurityProofs.


(** * Further properties *)

(** ** Goals: what every reachable goal satisfies *)

Module GoalsMore.
Import Goals.

Definition inRange (x : Q) : Prop := (0 <= x)%Q /\ (x <= 100)%Q.

Definition rangeInv (goal : Goal) : Prop :=
  inRange (progress goal)
  /\ Forall (fun e => inRange (pe_progress e)) (progressHistory goal).

Lemma rangeInv_applyOp goal op : rangeInv goal -> rangeInv (applyOp goal op).
Proof.
  intros [Hp Hh]. destruct op as [p note now | body now]; simpl.
  - assert (Hr : inRange (Math.max 0 (Math.min 100 p))).
    { split; [apply GoalsProofs.clamp_lower | apply GoalsProofs.clamp_upper]. }
    split; [exact Hr |]. simpl. apply Forall_app. split; [exact Hh |].
    constructor; [exact Hr | constructor].
  - split; assumption.
Qed.

Lemma applyOps_inv (P : Goal -> Prop) :
  (forall goal op, P goal -> P (applyOp goal op)) ->
  forall ops goal, P goal -> P (applyOps goal ops).
Proof.
  intros Hstep ops. induction ops as [| op ops IH]; intros goal H; [exact H |].
  unfold applyOps in *. simpl. apply IH, Hstep, H.
Qed.

Lemma reachable_inv (P : Goal -> Prop) :
  (forall uid body now, P (newGoal uid body now)) ->
  (forall goal op, P goal -> P (applyOp goal op)) ->
  forall goal, reachable goal -> P goal.
Proof.
  intros Hinit Hstep goal (uid & body & now & ops & ->).
  apply applyOps_inv; [exact Hstep | apply Hinit].
Qed.

(** X1. On every goal reachable from a new one by progress updates and
    check-ins, the progress and every progress recorded in the history lie
    between 0 and 100. *)
Theorem X1_progress_always_in_range (goal : Goal) :
  reachable goal ->
  inRange (progress goal)
  /\ Forall (fun e => inRange (pe_progress e)) (progressHistory goal).
Proof.
  apply (reachable_inv rangeInv).
  - intros uid body now. split; [split; discriminate | constructor].
  - apply rangeInv_applyOp.
Qed.

Lemma X1_witness :
  reachable GoalsProofs.loweredGoal
  /\ inRange (progress GoalsProofs.loweredGoal)
  /\ Forall (fun e => inRange (pe_progress e))
       (progressHistory GoalsProofs.loweredGoal).
Proof.
  split; [exact GoalsProofs.loweredGoal_reachable |].
  apply (X1_progress_always_in_range GoalsProofs.loweredGoal).
  exact GoalsProofs.loweredGoal_reachable.
Defined.

(** The progress is the one recorded last, or the initial 0. *)
Definition lastRecorded (goal : Goal) : Prop :=
  match last (progressHistory goal) with
  | Some e => pe_progress e = progress goal
  | None => progress goal = 0%Q
  end.

(** X2. On every reachable goal the stored progress is the progress of the
    last history entry, and it is the initial 0 when the history is empty:
    the history and the progress field never drift apart. *)
Theorem X2_progress_is_last_history_entry (goal : Goal) :
  reachable goal -> lastRecorded goal.
Proof.
  apply (reachable_inv lastRecorded).
  - intros uid body now. reflexivity.
  - intros g op H. destruct op as [p note now | body now].
    + unfold lastRecorded. simpl. rewrite last_snoc. reflexivity.
    + exact H.
Qed.

Lemma X2_witness :
  reachable GoalsProofs.loweredGoal /\ lastRecorded GoalsProofs.loweredGoal.
Proof.
  split; [exact GoalsProofs.loweredGoal_reachable |].
  apply (X2_progress_is_last_history_entry GoalsProofs.loweredGoal).
  exact GoalsProofs.loweredGoal_reachable.
Defined.

(** The completion date is present exactly on completed goals, and then
    some history entry recorded 100. *)
Definition completionInv (goal : Goal) : Prop :=
  (completedDate goal = None <-> status goal <> completed)
  /\ (forall t, completedDate goal = Some t ->
        Exists (fun e => (pe_progress e == 100)%Q) (progressHistory goal)).

Lemma completionInv_applyOp goal op :
  completionInv goal -> completionInv (applyOp goal op).
Proof.
  intros [Hiff Hdate]. destruct op as [p note now later | body now];
    [| exact (conj Hiff Hdate)].
  unfold completionInv. simpl.
  set (p' := Math.max 0 (Math.min 100 p)).
  destruct (Qeq_bool p' 100) eqn:Hp; simpl.
  - destruct (status_eqb (status goal) completed) eqn:Hs; simpl.
    + apply GoalsProofs.status_eqb_eq in Hs. split.
      * rewrite Hiff. reflexivity.
      * intros t Ht. apply Exists_app. left. apply (Hdate t). exact Ht.
    + split.
      * split; [discriminate | intros H; contradiction].
      * intros t Ht. apply Exists_app. right.
        constructor. apply Qeq_bool_iff. exact Hp.
  - split; [exact Hiff |].
    intros t Ht. apply Exists_app. left. apply (Hdate t). exact Ht.
Qed.

(** X3. A reachable goal has a completion date exactly when its status is
    [completed]; by then some history entry has recorded a progress of 100,
    and no later operation changes the date: the first completion is the
    one that is kept. *)
Theorem X3_completion_date_set_once (goal : Goal) :
  reachable goal ->
  (completedDate goal = None <-> status goal <> completed)
  /\ (forall t, completedDate goal = Some t ->
        Exists (fun e => (pe_progress e == 100)%Q) (progressHistory goal))
  /\ (forall t ops, completedDate goal = Some t ->
        completedDate (applyOps goal ops) = Some t).
Proof.
  intros Hreach.
  assert (Hinv : completionInv goal).
  { revert goal Hreach. apply (reachable_inv completionInv).
    - intros uid body now. split.
      + split; [discriminate | reflexivity].
      + intros t Ht. discriminate Ht.
    - apply completionInv_applyOp. }
  destruct Hinv as [Hiff Hdate].
  split; [exact Hiff |]. split; [exact Hdate |].
  intros t ops Ht.
  assert (Hgen : forall ops g,
             completionInv g -> completedDate g = Some t ->
             completedDate (applyOps g ops) = Some t).
  { clear. intros ops. induction ops as [| op ops IH]; intros g Hg Ht;
      [exact Ht |].
    unfold applyOps in *. simpl. apply IH.
    - apply completionInv_applyOp. exact Hg.
    - destruct op as [p note now later | body now]; [| exact Ht].
      simpl. destruct Hg as [Hiff _].
      assert (Hs : status g = completed).
      { destruct (status g) eqn:E; try reflexivity;
          exfalso; (assert (Hn : completedDate g = None)
                      by (apply Hiff; discriminate)); congruence. }
      rewrite Hs. simpl. rewrite andb_false_r. exact Ht. }
  apply Hgen; [split; assumption | exact Ht].
Qed.

(** A goal completed by an update whose two clock readings are 1 and 2. *)
Definition completedGoal : Goal :=
  applyOps (newGoal "u1" GoalsProofs.sampleBody 0)
    [ OpUpdateProgress 100 None 1 2 ].

Lemma completedGoal_reachable : reachable completedGoal.
Proof.
  exists "u1", GoalsProofs.sampleBody, 0, [ OpUpdateProgress 100 None 1 2 ].
  reflexivity.
Qed.

Lemma X3_witness :
  reachable completedGoal
  /\ completedDate completedGoal = Some 2
  /\ completedDate
       (applyOps completedGoal
          [ OpUpdateProgress 40 None 5 5; OpUpdateProgress 100 None 9 9 ])
     = Some 2.
Proof.
  split; [exact completedGoal_reachable |].
  split; [reflexivity |].
  apply (proj2 (proj2 (X3_completion_date_set_once completedGoal
                         completedGoal_reachable))).
  reflexivity.
Defined.

(** X4. The progress route adds one to the user's [completedGoals] counter
    whenever the saved goal has status [completed]: for a goal that is
    already completed this is every progress update, whatever the new
    progress; for another goal it is exactly the update that stores 100;
    nothing is counted when the goal is not found. *)
Theorem X4_completed_counter (goal : Goal) (p : Q) (note : option string)
    (now later counter : Z) :
  (status goal = completed ->
   snd (GoalRoutes.putProgressCounting (Some goal) p note now later counter)
   = counter + 1)
  /\ (status goal <> completed ->
      snd (GoalRoutes.putProgressCounting (Some goal) p note now later counter)
      = if Qeq_bool (GoalsProofs.clampSpec p) 100
        then counter + 1 else counter)
  /\ GoalRoutes.putProgressCounting None p note now later counter
     = (NotFound404, counter).
Proof.
  unfold GoalRoutes.putProgressCounting. simpl.
  split; [| split; [| reflexivity]].
  - intros Hs. rewrite Hs. simpl. rewrite andb_false_r. reflexivity.
  - intros Hs.
    assert (Hb : status_eqb (status goal) completed = false).
    { destruct (status_eqb (status goal) completed) eqn:E; [| reflexivity].
      apply GoalsProofs.status_eqb_eq in E. contradiction. }
    rewrite Hb. simpl. rewrite andb_true_r.
    assert (Hq : Qeq_bool (Math.max 0 (Math.min 100 p)) 100
                 = Qeq_bool (GoalsProofs.clampSpec p) 100).
    { pose proof (GoalsProofs.clamp_spec p) as Hc.
      destruct (Qeq_bool (Math.max 0 (Math.min 100 p)) 100) eqn:E1,
               (Qeq_bool (GoalsProofs.clampSpec p) 100) eqn:E2;
        try reflexivity.
      - apply Qeq_bool_iff in E1. rewrite Hc in E1.
        apply Qeq_bool_iff in E1. congruence.
      - apply Qeq_bool_iff in E2. rewrite <- Hc in E2.
        apply Qeq_bool_iff in E2. congruence. }
    rewrite <- Hq.
    destruct (Qeq_bool (Math.max 0 (Math.min 100 p)) 100); simpl.
    + reflexivity.
    + rewrite Hb. reflexivity.
Qed.

Lemma X4_witness :
  status completedGoal = completed
  /\ snd (GoalRoutes.putProgressCounting (Some completedGoal) 40 None 5 5 1)
     = 1 + 1.
Proof.
  split; [reflexivity |].
  apply (proj1 (X4_completed_counter completedGoal 40 None 5 5 1)).
  reflexivity.
Defined.

End GoalsMore.

(** ** Goal analysis: labels, bounds and recommendations *)

Module GoalAnalysisMore.
Import GoalAnalysis.

(** The order of the four labels. *)
Definition labelRank (label : string) : Z :=
  if String.eqb label "excellent" then 3
  else if String.eqb label "good" then 2
  else if String.eqb label "fair" then 1
  else 0.

(** X5. The label given by [getProgressStatus] never gets worse when the
    average grows. *)
Theorem X5_getProgressStatus_monotone (a b : Q) :
  (a <= b)%Q ->
  labelRank (getProgressStatus a) <= labelRank (getProgressStatus b).
Proof.
  intros Hab. unfold getProgressStatus, progressThresholds. simpl.
  destruct (ge a 80) eqn:Ha80, (ge b 80) eqn:Hb80;
    destruct (ge a 60) eqn:Ha60, (ge b 60) eqn:Hb60;
    destruct (ge a 40) eqn:Ha40, (ge b 40) eqn:Hb40;
    try (vm_compute; discriminate);
    exfalso;
    rewrite ?GoalAnalysisProofs.ge_spec, ?GoalAnalysisProofs.ge_false in *;
    lra.
Qed.

Lemma X5_witness :
  (55 <= 72)%Q
  /\ labelRank (getProgressStatus 55) <= labelRank (getProgressStatus 72).
Proof.
  split; [discriminate |].
  apply (X5_getProgressStatus_monotone 55 72). discriminate.
Defined.

Lemma doubleMean_bounds (l : list Q) :
  l <> [] -> Forall GoalsMore.inRange l ->
  (Z.of_nat (length l) < 2 ^ 40)%Z ->
  (0 <= GoalAnalysisProofs.doubleMean l)%Q
  /\ (GoalAnalysisProofs.doubleMean l <= 100)%Q.
Proof.
  intros Hne Hall Hlen.
  exact (DoubleFacts.mean_between 0 100 l ltac:(lia) ltac:(lia) Hne Hlen
           Hall).
Qed.

Lemma round_bounds (x : Q) :
  (0 <= x)%Q -> (x <= 100)%Q -> 0 <= Math.round x <= 100.
Proof.
  intros H0 H1. destruct (GoalAnalysisProofs.round_nearest x) as [Ha Hb].
  assert (Hlo : (inject_Z (-1) < inject_Z (Math.round x))%Q).
  { change (inject_Z (-1)) with (-1)%Q. lra. }
  assert (Hhi : (inject_Z (Math.round x) < inject_Z 101)%Q).
  { change (inject_Z 101) with 101%Q. lra. }
  rewrite <- Zlt_Qlt in Hlo, Hhi. lia.
Qed.

(** X6. When the progress of every active goal lies between 0 and 100
    and there are fewer than 2^40 goals, the [averageProgress] reported by
    [calculateOverallProgress] lies between 0 and 100 as well: the
    rounding of the sums and of the quotient never takes the computed mean
    out of that range. *)
Theorem X6_averageProgress_in_range (goals : list Goals.Goal) :
  Forall (fun g => isActive g = true -> GoalsMore.inRange (Goals.progress g))
    goals ->
  (Z.of_nat (length goals) < 2 ^ 40)%Z ->
  0 <= averageProgress (calculateOverallProgress goals) <= 100.
Proof.
  intros Hall Hfew. unfold calculateOverallProgress.
  destruct (Nat.eqb (length (List.filter isActive goals)) 0) eqn:Hzero.
  - simpl. destruct (Nat.ltb 0 (length (List.filter isCompleted goals))); lia.
  - cbv zeta. cbn [averageProgress].
    rewrite GoalAnalysisProofs.average_doubleMean.
    assert (Hne : GoalAnalysisProofs.activeProgress goals <> []).
    { unfold GoalAnalysisProofs.activeProgress. apply Nat.eqb_neq in Hzero.
      destruct (List.filter isActive goals); [contradiction | discriminate]. }
    assert (Hr : Forall GoalsMore.inRange
                   (GoalAnalysisProofs.activeProgress goals)).
    { unfold GoalAnalysisProofs.activeProgress. clear Hzero Hne Hfew.
      induction Hall as [| g l Hg _ IH]; simpl; [constructor |].
      destruct (isActive g) eqn:Hact; simpl; [| exact IH].
      constructor; [apply Hg; reflexivity | exact IH]. }
    assert (Hlen : (Z.of_nat (length (GoalAnalysisProofs.activeProgress goals))
                    < 2 ^ 40)%Z).
    { unfold GoalAnalysisProofs.activeProgress. rewrite length_map.
      pose proof (filter_length_le isActive goals). lia. }
    destruct (doubleMean_bounds _ Hne Hr Hlen) as [H0 H1].
    apply round_bounds; assumption.
Qed.

Lemma X6_witness :
  Forall (fun g => isActive g = true -> GoalsMore.inRange (Goals.progress g))
    GoalAnalysisProofs.fractionalGoals
  /\ (Z.of_nat (length GoalAnalysisProofs.fractionalGoals) < 2 ^ 40)%Z
  /\ 0 <= averageProgress
            (calculateOverallProgress GoalAnalysisProofs.fractionalGoals)
       <= 100.
Proof.
  assert (H : Forall (fun g => isActive g = true ->
                               GoalsMore.inRange (Goals.progress g))
                GoalAnalysisProofs.fractionalGoals).
  { repeat constructor; simpl; discriminate. }
  split; [exact H |]. split; [reflexivity |].
  apply (X6_averageProgress_in_range GoalAnalysisProofs.fractionalGoals H).
  reflexivity.
Defined.

(** X7. The recommendations come out in the order in which they are
    pushed: the [focus] one when more than five goals are active, then the
    [checkin] one when some active goal needs a check-in, then the
    [structure] one when some active goal below 50 has no milestone; the
    final sort moves nothing.  There are at most three, and none when no
    goal is active. *)
Theorem X7_recommendations_in_push_order (goals : list Goals.Goal)
    (now : Z) :
  let activeGoals := List.filter isActive goals in
  List.map type (generateRecommendations goals now)
  = (if Nat.ltb 5 (length activeGoals) then [ "focus" ] else [])
    ++ (if Nat.ltb 0 (length (List.filter (needsCheckIn now) activeGoals))
        then [ "checkin" ] else [])
    ++ (if Nat.ltb 0 (length (List.filter withoutMilestones activeGoals))
        then [ "structure" ] else [])
  /\ (length (generateRecommendations goals now) <= 3)%nat
  /\ (activeGoals = [] -> generateRecommendations goals now = []).
Proof.
  cbv zeta. unfold generateRecommendations. cbv zeta.
  split; [| split].
  - destruct (Nat.ltb 5 (length (List.filter isActive goals)));
      destruct (Nat.ltb 0 (length (List.filter (needsCheckIn now)
                                      (List.filter isActive goals))));
      destruct (Nat.ltb 0 (length (List.filter withoutMilestones
                                      (List.filter isActive goals))));
      reflexivity.
  - destruct (Nat.ltb 5 (length (List.filter isActive goals)));
      destruct (Nat.ltb 0 (length (List.filter (needsCheckIn now)
                                      (List.filter isActive goals))));
      destruct (Nat.ltb 0 (length (List.filter withoutMilestones
                                      (List.filter isActive goals))));
      simpl; lia.
  - intros H. rewrite H. reflexivity.
Qed.

Lemma X7_witness :
  List.filter isActive [ GoalAnalysisProofs.sampleGoal Goals.paused 30 [] [] ]
  = []
  /\ generateRecommendations
       [ GoalAnalysisProofs.sampleGoal Goals.paused 30 [] [] ] 1000 = [].
Proof.
  split; [reflexivity |].
  apply (proj2 (proj2 (X7_recommendations_in_push_order
                         [ GoalAnalysisProofs.sampleGoal Goals.paused 30 [] [] ]
                         1000))).
  reflexivity.
Defined.

End GoalAnalysisMore.

(** ** Goal analysis: consistency, trends and categories *)

Module TrendsProofs.
Import Trends.

Abbreviation sumQ := GoalAnalysisProofs.sumQ.
Abbreviation doubleMean := GoalAnalysisProofs.doubleMean.

Lemma length_changesOf (l : list Goals.ProgressEntry) :
  length (changesOf l) = Nat.pred (length l).
Proof.
  induction l as [| a l IH]; [reflexivity |].
  destruct l as [| b l]; [reflexivity |].
  change (changesOf (a :: b :: l))
    with (Qabs (Double.sub (Goals.pe_progress b) (Goals.pe_progress a))
            :: changesOf (b :: l)).
  simpl length in *. rewrite IH. reflexivity.
Qed.

Lemma lt_true (a b : Q) : GoalAnalysis.lt a b = true <-> (a < b)%Q.
Proof.
  unfold GoalAnalysis.lt. rewrite negb_true_iff. split.
  - intros H. apply Qnot_le_lt. intros Hle.
    apply Qle_bool_iff in Hle. congruence.
  - intros H. destruct (Qle_bool b a) eqn:E; [| reflexivity].
    apply Qle_bool_iff in E. exfalso. exact (Qlt_not_le _ _ H E).
Qed.

Lemma lt_false (a b : Q) : GoalAnalysis.lt a b = false <-> (b <= a)%Q.
Proof.
  unfold GoalAnalysis.lt. rewrite negb_false_iff. apply Qle_bool_iff.
Qed.

(** The rating as a function of the average step the code computes. *)
Definition rating (avgChange : Q) : string :=
  if GoalAnalysis.lt avgChange 3 then "high"
  else if GoalAnalysis.lt avgChange 8 then "medium"
  else "low".

Lemma consistency_of_average (l : list Goals.ProgressEntry) :
  (3 <= length l)%nat ->
  calculateConsistency l = rating (doubleMean (changesOf l)).
Proof.
  intros Hlen. unfold calculateConsistency.
  replace (Nat.ltb (length l) 3) with false
    by (symmetry; apply Nat.ltb_ge; exact Hlen).
  reflexivity.
Qed.

(** Every step the code computes lies between two whole bounds. *)
Definition stepsBetween (L U : Z) (l : list Goals.ProgressEntry) : Prop :=
  Forall (fun c => (inject_Z L <= c)%Q /\ (c <= inject_Z U)%Q) (changesOf l).

Lemma constant_steps (l : list Goals.ProgressEntry) :
  (forall a b, In a l -> In b l ->
               (Goals.pe_progress a == Goals.pe_progress b)%Q) ->
  changesOf l = repeat 0%Q (Nat.pred (length l)).
Proof.
  intros Hconst. induction l as [| a l IH]; [reflexivity |].
  destruct l as [| b l]; [reflexivity |].
  change (changesOf (a :: b :: l))
    with (Qabs (Double.sub (Goals.pe_progress b) (Goals.pe_progress a))
            :: changesOf (b :: l)).
  rewrite IH by (intros x y Hx Hy; apply Hconst; right; assumption).
  unfold Double.sub. rewrite DoubleFacts.round_zero; [reflexivity |].
  rewrite (Hconst b a); [ring | right; left; reflexivity | left; reflexivity].
Qed.

Lemma mean_of_zeros (n : nat) : doubleMean (repeat 0%Q n) = 0%Q.
Proof.
  unfold GoalAnalysisProofs.doubleMean.
  assert (Hsum : forall k, fold_left Double.add (repeat 0%Q k) 0%Q = 0%Q).
  { intros k. induction k as [| k IH]; [reflexivity | exact IH]. }
  rewrite Hsum. unfold Double.div. apply DoubleFacts.round_zero.
  unfold Qdiv. ring.
Qed.

(** X8. [calculateConsistency] answers [insufficient_data] exactly for
    fewer than three entries.  For a longer history (of fewer than 2^40
    entries) whose computed steps all lie between two whole numbers, the
    rounding of the sums and of the quotient keeps the average step
    between them as well: steps of at most 2 are rated [high], steps
    between 3 and 7 [medium] and steps of at least 8 [low].  A history
    that never moves is rated [high]. *)
Theorem X8_calculateConsistency (l : list Goals.ProgressEntry) :
  (calculateConsistency l = "insufficient_data" <-> (length l < 3)%nat)
  /\ (forall L U : Z,
      (3 <= length l)%nat -> (Z.of_nat (length l) < 2 ^ 40)%Z ->
      (0 <= L <= U)%Z -> (U <= 2 ^ 12)%Z -> stepsBetween L U l ->
      (U < 3 -> calculateConsistency l = "high")
      /\ (3 <= L -> U < 8 -> calculateConsistency l = "medium")
      /\ (8 <= L -> calculateConsistency l = "low"))
  /\ ((3 <= length l)%nat ->
      (forall a b, In a l -> In b l ->
                   (Goals.pe_progress a == Goals.pe_progress b)%Q) ->
      calculateConsistency l = "high").
Proof.
  split; [| split].
  - unfold calculateConsistency.
    destruct (Nat.ltb (length l) 3) eqn:Hlen.
    + apply Nat.ltb_lt in Hlen. split; [intros _; exact Hlen | reflexivity].
    + apply Nat.ltb_ge in Hlen. cbv zeta. split; [| lia].
      repeat match goal with
             | |- context [if ?b then _ else _] => destruct b
             end; discriminate.
  - intros L U Hlen Hfew HL HU Hsteps.
    rewrite (consistency_of_average l Hlen).
    assert (Hne : changesOf l <> []).
    { intros H. apply (f_equal (@length Q)) in H.
      rewrite length_changesOf in H. simpl in H. lia. }
    assert (Hshort : (Z.of_nat (length (changesOf l)) < 2 ^ 40)%Z)
      by (rewrite length_changesOf; lia).
    destruct (DoubleFacts.mean_between L U (changesOf l) HL HU Hne Hshort
                Hsteps) as [Hlow Hhigh].
    fold (doubleMean (changesOf l)) in Hlow, Hhigh.
    set (avg := doubleMean (changesOf l)) in *. unfold rating.
    split; [| split].
    + intros H3.
      assert (Hlt : (avg < 3)%Q).
      { eapply Qle_lt_trans; [exact Hhigh |].
        change 3%Q with (inject_Z 3). rewrite <- Zlt_Qlt. exact H3. }
      apply lt_true in Hlt. rewrite Hlt. reflexivity.
    + intros H3 H8.
      assert (Hge : (3 <= avg)%Q).
      { eapply Qle_trans; [| exact Hlow].
        change 3%Q with (inject_Z 3). rewrite <- Zle_Qle. exact H3. }
      assert (Hlt : (avg < 8)%Q).
      { eapply Qle_lt_trans; [exact Hhigh |].
        change 8%Q with (inject_Z 8). rewrite <- Zlt_Qlt. exact H8. }
      apply lt_false in Hge. apply lt_true in Hlt. rewrite Hge, Hlt.
      reflexivity.
    + intros H8.
      assert (Hge : (8 <= avg)%Q).
      { eapply Qle_trans; [| exact Hlow].
        change 8%Q with (inject_Z 8). rewrite <- Zle_Qle. exact H8. }
      assert (Hge3 : (3 <= avg)%Q) by lra.
      apply lt_false in Hge, Hge3. rewrite Hge, Hge3. reflexivity.
  - intros Hlen Hconst. rewrite (consistency_of_average l Hlen).
    rewrite (constant_steps l Hconst), mean_of_zeros. reflexivity.
Qed.

Definition entry (t : Z) (p : Q) : Goals.ProgressEntry :=
  {| Goals.pe_date := t; Goals.pe_progress := p; Goals.pe_note := None |}.

Example consistency_sample :
  calculateConsistency [ entry 1 10; entry 2 14; entry 3 30 ] = "low"
  /\ calculateConsistency [ entry 1 10; entry 2 12; entry 3 17; entry 4 20 ]
     = "medium".
Proof. split; vm_compute; reflexivity. Qed.

(** The doubles written 6.6, 18.4, 14.0 and 6.2: read forwards the
    history is rated [medium], read backwards [low], because the sums are
    rounded in a different order. *)
Example reversal_changes_rating :
  let history :=
    [ entry 1 (Double.round (66 # 10)); entry 2 (Double.round (184 # 10));
      entry 3 14; entry 4 (Double.round (62 # 10)) ] in
  calculateConsistency history = "medium"
  /\ calculateConsistency (rev history) = "low".
Proof. split; vm_compute; reflexivity. Qed.

Definition steadyHistory : list Goals.ProgressEntry :=
  [ entry 1 10; entry 2 15; entry 3 21; entry 4 26 ].

Lemma X8_witness :
  (3 <= length steadyHistory)%nat
  /\ (Z.of_nat (length steadyHistory) < 2 ^ 40)%Z
  /\ stepsBetween 3 7 steadyHistory
  /\ calculateConsistency steadyHistory = "medium".
Proof.
  assert (Hsteps : stepsBetween 3 7 steadyHistory).
  { repeat constructor; vm_compute; discriminate. }
  split; [simpl; lia |]. split; [reflexivity |]. split; [exact Hsteps |].
  apply (proj1 (proj2 (proj1 (proj2 (X8_calculateConsistency steadyHistory))
                         3 7 ltac:(simpl; lia) ltac:(reflexivity)
                         ltac:(lia) ltac:(lia) Hsteps)));
    lia.
Defined.

(** *** Categories *)

Lemma category_eqb_eq (a b : Goals.Category) :
  category_eqb a b = true <-> a = b.
Proof. destruct a, b; simpl; split; intros H; congruence. Qed.

Lemma category_eqb_refl (a : Goals.Category) : category_eqb a a = true.
Proof. apply category_eqb_eq. reflexivity. Qed.

(** The bucket of a category after one more goal of that category. *)
Definition pushGoal (b : option Bucket) (goal : Goals.Goal) : Bucket :=
  match b with
  | Some b =>
      {| cat_goals := cat_goals b ++ [ goal ];
         totalProgress :=
           Double.add (totalProgress b) (Goals.progress goal) |}
  | None =>
      {| cat_goals := [ goal ];
         totalProgress := Double.add 0 (Goals.progress goal) |}
  end.

Lemma lookup_addGoal categories goal (c : Goals.Category) :
  lookupCategory (addGoal categories goal) c
  = if category_eqb (Goals.category goal) c
    then Some (pushGoal (lookupCategory categories c) goal)
    else lookupCategory categories c.
Proof.
  induction categories as [| [c0 b0] rest IH]; simpl.
  - destruct (category_eqb (Goals.category goal) c); reflexivity.
  - destruct (category_eqb c0 (Goals.category goal)) eqn:H0; simpl.
    + apply category_eqb_eq in H0. subst c0.
      destruct (category_eqb (Goals.category goal) c); reflexivity.
    + rewrite IH. destruct (category_eqb c0 c) eqn:H1; [| reflexivity].
      apply category_eqb_eq in H1. subst c0.
      destruct (category_eqb (Goals.category goal) c) eqn:H2; [| reflexivity].
      apply category_eqb_eq in H2. subst c.
      rewrite category_eqb_refl in H0. discriminate.
Qed.

Definition ofCategory (c : Goals.Category) (goal : Goals.Goal) : bool :=
  category_eqb (Goals.category goal) c.

(** What a bucket holds, given the goals added since [init]: the goals
    in their order and their progress added, one after the other, to the
    total so far. *)
Definition holds (init b : option Bucket) (added : list Goals.Goal) : Prop :=
  match b with
  | Some b =>
      cat_goals b
      = match init with
        | Some b0 => cat_goals b0
        | None => []
        end ++ added
      /\ totalProgress b
         = fold_left Double.add (List.map Goals.progress added)
             match init with
             | Some b0 => totalProgress b0
             | None => 0%Q
             end
      /\ (init = None -> added <> [])
  | None => init = None /\ added = []
  end.

Lemma lookup_fold_addGoal (l : list Goals.Goal) categories
    (c : Goals.Category) :
  holds (lookupCategory categories c)
    (lookupCategory (fold_left addGoal l categories) c)
    (List.filter (ofCategory c) l).
Proof.
  revert categories. induction l as [| g l IH]; intros categories.
  - simpl. destruct (lookupCategory categories c) as [b |]; simpl.
    + rewrite app_nil_r. split; [reflexivity |].
      split; [reflexivity | discriminate].
    + split; reflexivity.
  - simpl fold_left. specialize (IH (addGoal categories g)).
    rewrite lookup_addGoal in IH. cbn [List.filter].
    change (ofCategory c g) with (category_eqb (Goals.category g) c).
    destruct (category_eqb (Goals.category g) c) eqn:Hc; [| exact IH].
    unfold holds in *.
    destruct (lookupCategory (fold_left addGoal l (addGoal categories g)) c)
      as [b |]; [| destruct IH as [IH _]; discriminate IH].
    destruct IH as (Hg & Ht & _).
    destruct (lookupCategory categories c) as [b0 |]; simpl in *.
    + split; [rewrite Hg, <- app_assoc; reflexivity |].
      split; [exact Ht | discriminate].
    + split; [exact Hg |].
      split; [exact Ht | discriminate].
Qed.

Lemma lookup_map {A B} (f : A -> B) (l : list (Goals.Category * A))
    (c : Goals.Category) :
  lookupCategory (List.map (fun e => (fst e, f (snd e))) l) c
  = option_map f (lookupCategory l c).
Proof.
  induction l as [| [c0 a] l IH]; simpl; [reflexivity |].
  destruct (category_eqb c0 c); [reflexivity | exact IH].
Qed.

(** X9. [analyzeByCategory] has an entry for a category exactly when some
    goal has that category; the entry lists those goals in their order and
    [count] is their number.  [totalProgress] is their progress added in
    that order, starting from 0, and [avgProgress] that total divided by
    their number, each sum and the quotient rounded to a double: goals of
    other categories in between change neither.  When the progress values
    of the category are whole numbers between 0 and 100 (and fewer than
    2^40), the total is their exact sum and the average is the double
    nearest to their arithmetic mean. *)
Theorem X9_analyzeByCategory (goals : list Goals.Goal)
    (c : Goals.Category) :
  match lookupCategory (analyzeByCategory goals) c with
  | None => Forall (fun g => Goals.category g <> c) goals
  | Some stats =>
      let values := List.map Goals.progress (cs_goals stats) in
      cs_goals stats = List.filter (ofCategory c) goals
      /\ cs_goals stats <> []
      /\ count stats = length (cs_goals stats)
      /\ cs_totalProgress stats = fold_left Double.add values 0%Q
      /\ avgProgress stats = doubleMean values
      /\ (Forall GoalAnalysisProofs.wholePercent values ->
          (Z.of_nat (length values) < 2 ^ 40)%Z ->
          (cs_totalProgress stats == sumQ values)%Q
          /\ (avgProgress stats
              == Double.round (GoalAnalysisProofs.mean values))%Q)
  end.
Proof.
  unfold analyzeByCategory. cbv zeta.
  rewrite (lookup_map
             (fun cat =>
                {| cs_goals := cat_goals cat;
                   cs_totalProgress := totalProgress cat;
                   avgProgress :=
                     Double.div (totalProgress cat)
                       (inject_Z (Z.of_nat (length (cat_goals cat))));
                   count := length (cat_goals cat) |})).
  pose proof (lookup_fold_addGoal goals [] c) as H. simpl in H.
  destruct (lookupCategory (fold_left addGoal goals []) c) as [b |]; simpl.
  - destruct H as (Hg & Ht & Hne). simpl in Hg.
    rewrite Hg, Ht. split; [reflexivity |].
    split; [apply Hne; reflexivity |]. split; [reflexivity |].
    split; [reflexivity |].
    set (values := List.map Goals.progress (List.filter (ofCategory c) goals)).
    assert (Hlen : length values = length (List.filter (ofCategory c) goals))
      by apply length_map.
    assert (Hmean : Double.div (fold_left Double.add values 0%Q)
                      (inject_Z
                         (Z.of_nat (length (List.filter (ofCategory c) goals))))
                    = doubleMean values).
    { unfold GoalAnalysisProofs.doubleMean. rewrite Hlen. reflexivity. }
    split; [exact Hmean |].
    intros Hwhole Hfew. split.
    + rewrite (GoalAnalysisProofs.double_sum_whole values Hwhole 0%Q 0%Z)
        by (reflexivity || lia).
      ring.
    + rewrite Hmean.
      assert (Hpos : (0 < Z.of_nat (length values))%Z).
      { rewrite Hlen.
        destruct (List.filter (ofCategory c) goals);
          [exfalso; apply Hne; reflexivity | simpl; lia]. }
      destruct (GoalAnalysisProofs.doubleMean_whole values Hwhole
                  ltac:(lia)) as (s & _ & Hexact & Hdouble).
      rewrite Hdouble. apply DoubleFacts.round_comp. symmetry. exact Hexact.
  - destruct H as [_ Hnone].
    induction goals as [| g goals IH]; [constructor |].
    cbn [List.filter] in Hnone.
    change (ofCategory c g) with (category_eqb (Goals.category g) c)
      in Hnone.
    destruct (category_eqb (Goals.category g) c) eqn:Hc; [discriminate |].
    constructor; [| apply IH; exact Hnone].
    intros Heq. apply category_eqb_eq in Heq. congruence.
Qed.

Definition twoGoals : list Goals.Goal :=
  [ GoalAnalysisProofs.sampleGoal Goals.active 50 [] [];
    GoalAnalysisProofs.sampleGoal Goals.active 75 [] [] ].

Example categories_sample :
  List.map (fun e => (fst e, count (snd e), cs_totalProgress (snd e),
                      avgProgress (snd e)))
    (analyzeByCategory twoGoals)
  = [ (Goals.personal, 2%nat, 125%Q, (125 # 2)%Q) ].
Proof. vm_compute. reflexivity. Qed.

Lemma X9_witness :
  exists stats,
    lookupCategory (analyzeByCategory twoGoals) Goals.personal = Some stats
    /\ Forall GoalAnalysisProofs.wholePercent
         (List.map Goals.progress (cs_goals stats))
    /\ (cs_totalProgress stats
        == sumQ (List.map Goals.progress (cs_goals stats)))%Q
    /\ (avgProgress stats
        == Double.round
             (GoalAnalysisProofs.mean
                (List.map Goals.progress (cs_goals stats))))%Q.
Proof.
  pose proof (X9_analyzeByCategory twoGoals Goals.personal) as H.
  destruct (lookupCategory (analyzeByCategory twoGoals) Goals.personal)
    as [stats |] eqn:E; [| vm_compute in E; discriminate E].
  exists stats. split; [reflexivity |].
  cbv zeta in H. destruct H as (Hg & _ & _ & _ & _ & Hwhole).
  assert (Hw : Forall GoalAnalysisProofs.wholePercent
                 (List.map Goals.progress (cs_goals stats))).
  { rewrite Hg. simpl.
    repeat constructor;
      [exists 50%Z | exists 75%Z]; (split; [lia | reflexivity]). }
  split; [exact Hw |].
  apply Hwhole; [exact Hw |]. rewrite Hg. reflexivity.
Defined.

(** *** Trends *)

Lemma analyzeTrends_lookup (cutoffDate : Z) (id : string) (t : Trend)
    (goals : list (string * Goals.Goal)) :
  forall acc : gmap string Trend,
    NoDup (List.map fst goals) ->
    fold_left
      (fun trends g =>
         match trendOf (snd g) cutoffDate with
         | Some t => <[ fst g := t ]> trends
         | None => trends
         end) goals acc !! id = Some t
    <-> (exists goal, In (id, goal) goals
                      /\ trendOf goal cutoffDate = Some t)
        \/ ((forall goal, In (id, goal) goals ->
                          trendOf goal cutoffDate = None)
            /\ acc !! id = Some t).
Proof.
  induction goals as [| [i g] rest IH]; intros acc Hnd.
  - simpl. split.
    + intros H. right. split; [intros goal [] | exact H].
    + intros [(goal & [] & _) | [_ H]]. exact H.
  - apply NoDup_cons in Hnd as [Hi Hrest].
    simpl fold_left. rewrite (IH _ Hrest). clear IH.
    assert (Hfresh : i = id -> forall goal, ~ In (id, goal) rest).
    { intros -> goal Hin. apply Hi. apply list_elem_of_In.
      apply (in_map fst) in Hin. exact Hin. }
    simpl In. split.
    + intros [(goal & Hin & Ht) | [Hnone Hacc]].
      * left. exists goal. split; [right; exact Hin | exact Ht].
      * destruct (trendOf g cutoffDate) as [t0 |] eqn:Hg.
        -- destruct (decide (i = id)) as [-> | Hne].
           ++ rewrite lookup_insert_eq in Hacc. injection Hacc as ->.
              left. exists g. split; [left; reflexivity | exact Hg].
           ++ rewrite lookup_insert_ne in Hacc by exact Hne.
              right. split; [| exact Hacc].
              intros goal [Heq | Hin]; [congruence | apply Hnone; exact Hin].
        -- right. split; [| exact Hacc].
           intros goal [Heq | Hin]; [| apply Hnone; exact Hin].
           injection Heq as _ <-. exact Hg.
    + intros [(goal & [Heq | Hin] & Ht) | [Hnone Hacc]].
      * injection Heq as -> ->. right. split.
        -- intros goal' Hin. exfalso. exact (Hfresh eq_refl goal' Hin).
        -- rewrite Ht. apply lookup_insert_eq.
      * left. exists goal. split; assumption.
      * right. split; [intros goal Hin; apply Hnone; right; exact Hin |].
        destruct (trendOf g cutoffDate) as [t0 |] eqn:Hg; [| exact Hacc].
        destruct (decide (i = id)) as [-> | Hne].
        -- rewrite (Hnone g (or_introl eq_refl)) in Hg. discriminate.
        -- rewrite lookup_insert_ne by exact Hne. exact Hacc.
Qed.

Definition recent (cutoffDate : Z) (goal : Goals.Goal)
    : list Goals.ProgressEntry :=
  List.filter (fun e => cutoffDate <=? Goals.pe_date e)
    (Goals.progressHistory goal).

(** X10. For goals with pairwise distinct identifiers, [analyzeTrends]
    has a trend under an identifier exactly when the goal with that
    identifier has at least two history entries on or after the cut-off
    date; entries before the cut-off never count, and a goal with fewer
    than two recent entries has no key in the result. *)
Theorem X10_analyzeTrends (goals : list (string * Goals.Goal))
    (cutoffDate : Z) (id : string) :
  NoDup (List.map fst goals) ->
  (forall t, analyzeTrends goals cutoffDate !! id = Some t <->
             exists goal, In (id, goal) goals
                          /\ trendOf goal cutoffDate = Some t)
  /\ (forall goal, In (id, goal) goals ->
        (is_Some (analyzeTrends goals cutoffDate !! id)
         <-> (2 <= length (recent cutoffDate goal))%nat)).
Proof.
  intros Hnd.
  assert (Hmain : forall t,
    analyzeTrends goals cutoffDate !! id = Some t <->
    exists goal, In (id, goal) goals /\ trendOf goal cutoffDate = Some t).
  { intros t. unfold analyzeTrends.
    rewrite (analyzeTrends_lookup cutoffDate id t goals ∅ Hnd).
    split; [| intros H; left; exact H].
    intros [H | [_ H]]; [exact H |].
    rewrite lookup_empty in H. discriminate. }
  split; [exact Hmain |].
  intros goal Hin.
  assert (Hunique : forall goal', In (id, goal') goals -> goal' = goal).
  { clear Hmain. induction goals as [| [i g] rest IH]; [contradiction |].
    apply NoDup_cons in Hnd as [Hi Hrest].
    intros goal' Hin'.
    assert (Hno : forall x, i = id -> ~ In (id, x) rest).
    { intros x -> Hx. apply Hi. apply list_elem_of_In.
      apply (in_map fst) in Hx. exact Hx. }
    destruct Hin as [Heq | Hin], Hin' as [Heq' | Hin'].
    - congruence.
    - injection Heq as -> _. exfalso. exact (Hno goal' eq_refl Hin').
    - injection Heq' as -> _. exfalso. exact (Hno goal eq_refl Hin).
    - apply (IH Hrest Hin goal' Hin'). }
  assert (Htrend : is_Some (trendOf goal cutoffDate)
                   <-> (2 <= length (recent cutoffDate goal))%nat).
  { unfold trendOf, recent. cbv zeta.
    destruct (List.filter _ (Goals.progressHistory goal)) as [| a [| b l]];
      simpl; split; intros H; try lia;
      try (destruct H as [x H]; discriminate H); eexists; reflexivity. }
  rewrite <- Htrend. split.
  - intros [t Ht]. apply Hmain in Ht. destruct Ht as (goal' & Hin' & Ht).
    rewrite <- (Hunique goal' Hin'). exists t. exact Ht.
  - intros [t Ht]. exists t. apply Hmain. exists goal. split; assumption.
Qed.

Definition trendGoal (history : list Goals.ProgressEntry) : Goals.Goal :=
  {| Goals.userId := "u1"; Goals.title := "goal";
     Goals.description := None; Goals.category := Goals.personal;
     Goals.type := Goals.short_term; Goals.status := Goals.active;
     Goals.progress := 0; Goals.targetDate := None; Goals.startDate := 0;
     Goals.completedDate := None; Goals.milestones := [];
     Goals.tags := []; Goals.priority := Goals.medium;
     Goals.progressHistory := history; Goals.checkIns := [] |}.

Definition trendGoals : list (string * Goals.Goal) :=
  [ ("g1", trendGoal [ entry 5 10; entry 20 30; entry 30 40 ]);
    ("g2", trendGoal [ entry 5 10; entry 20 30 ]) ].

Example trends_sample :
  analyzeTrends trendGoals 10 !! "g1"
  = Some {| direction := "improving"; change := (40 - 30)%Q;
            consistency := "insufficient_data" |}
  /\ analyzeTrends trendGoals 10 !! "g2" = None.
Proof. split; vm_compute; reflexivity. Qed.

Lemma X10_witness :
  NoDup (List.map fst trendGoals)
  /\ In ("g1", trendGoal [ entry 5 10; entry 20 30; entry 30 40 ]) trendGoals
  /\ (is_Some (analyzeTrends trendGoals 10 !! "g1")
      <-> (2 <= length
                  (recent 10
                     (trendGoal [ entry 5 10; entry 20 30; entry 30 40 ])))%nat).
Proof.
  assert (Hnd : NoDup (List.map fst trendGoals)).
  { apply (bool_decide_unpack _). vm_compute. exact I. }
  split; [exact Hnd |]. split; [left; reflexivity |].
  apply (proj2 (X10_analyzeTrends trendGoals 10 "g1" Hnd)).
  left. reflexivity.
Defined.

End TrendsProofs.

(** ** Error handling: translation order and copies *)

Module ErrorHandlerMore.
Import Http ErrorHandler ErrorHandlerProofs.

(** The translation rules read as one if / else-if chain. *)
Definition firstMatch (e : ErrorObject) : option ErrorObject :=
  if nameIs "CastError" e then Some (handleCastErrorDB e)
  else if JS.strictEq (prop e "code") (JS.Num 11000)
  then handleDuplicateFieldsDB e
  else if nameIs "ValidationError" e then handleValidationErrorDB e
  else if nameIs "JsonWebTokenError" e then Some handleJWTError
  else if nameIs "TokenExpiredError" e then Some handleJWTExpiredError
  else if nameIs "MongoNetworkError" e || nameIs "MongoTimeoutError" e
  then handleDBConnectionError e
  else if JS.strictEq (prop e "type") (JS.Str "RateLimitError")
  then Some (handleRateLimitError e)
  else if JS.truthy (prop e "response")
          && JS.truthy (JS.member (prop e "response") "status")
  then Some (handleOpenAIError e)
  else Some e.

(** X11. The eight independent [if] lines of the production branch act
    as an if / else-if chain: the first rule whose condition holds decides
    the result and no later rule changes it, so an error matching several
    rules is handled by the earliest one. *)
Theorem X11_translate_first_match (e : ErrorObject) :
  translate e = firstMatch e.
Proof.
  unfold translate, firstMatch. cbv zeta.
  rewrite rule_Some.
  destruct (nameIs "CastError" e).
  { unfold handleCastErrorDB. settle_rules. reflexivity. }
  rewrite rule_Some. cbv beta.
  destruct (JS.strictEq (prop e "code") (JS.Num 11000)).
  { destruct (handleDuplicateFieldsDB e) as [e' |] eqn:Hd.
    - apply handleDuplicateFieldsDB_AppError in Hd. destruct Hd as [m ->].
      settle_rules. reflexivity.
    - settle_rules. reflexivity. }
  rewrite rule_Some.
  destruct (nameIs "ValidationError" e).
  { destruct (handleValidationErrorDB e) as [e' |] eqn:Hd.
    - apply handleValidationErrorDB_AppError in Hd. destruct Hd as [m ->].
      settle_rules. reflexivity.
    - settle_rules. reflexivity. }
  rewrite rule_Some.
  destruct (nameIs "JsonWebTokenError" e).
  { unfold handleJWTError. settle_rules. reflexivity. }
  rewrite rule_Some.
  destruct (nameIs "TokenExpiredError" e).
  { unfold handleJWTExpiredError. settle_rules. reflexivity. }
  rewrite rule_Some. cbv beta.
  destruct (nameIs "MongoNetworkError" e || nameIs "MongoTimeoutError" e).
  { destruct (handleDBConnectionError e) as [e' |] eqn:Hd.
    - unfold handleDBConnectionError in Hd.
      destruct (log "error"); [| discriminate]. injection Hd as <-.
      settle_rules. reflexivity.
    - settle_rules. reflexivity. }
  rewrite rule_Some. cbv beta.
  destruct (JS.strictEq (prop e "type") (JS.Str "RateLimitError")).
  { unfold handleRateLimitError. settle_rules. reflexivity. }
  rewrite rule_Some. cbv beta.
  destruct (JS.truthy (prop e "response")
            && JS.truthy (JS.member (prop e "response") "status"));
    reflexivity.
Qed.

(** A cast error that also carries a duplicate-key code is answered as
    a cast error. *)
Example cast_before_duplicate :
  translate
    {| JS.props :=
         [ ("name", JS.Str "CastError"); ("code", JS.Num 11000);
           ("path", JS.Str "_id"); ("value", JS.Str "abc") ];
       JS.ctorMessage := JS.Undefined;
       JS.ctorStack := JS.Undefined;
       JS.protoName := JS.Undefined |}
  = Some (AppError "Invalid _id: abc" 400).
Proof. reflexivity. Qed.

(** *** What the copy keeps *)

Lemma prop_spread (e : ErrorObject) (k : string) :
  prop (spread e) k = JS.get (JS.props e) k.
Proof.
  unfold JS.prop, JS.spread, JS.get. cbn [JS.props JS.ctorMessage
    JS.ctorStack JS.protoName].
  destruct (JS.lookupProp (JS.props e) k); [reflexivity |].
  destruct (String.eqb k "message"); [reflexivity |].
  destruct (String.eqb k "stack"); [reflexivity |].
  destruct (String.eqb k "name"); reflexivity.
Qed.

Lemma prop_copy_default (err : ErrorObject) (k : string) :
  k <> "message" -> k <> "status" -> k <> "statusCode" ->
  prop (copyOf (withDefaults err)) k = JS.get (JS.props err) k.
Proof.
  intros Hm Hs Hc. rewrite prop_copyOf.
  destruct (String.eqb_spec k "message"); [contradiction |].
  apply get_withDefaults; assumption.
Qed.

(** The translation rules see the own enumerable properties only. *)
Lemma fires_copy (err : ErrorObject) :
  fires (copyOf (withDefaults err)) = fires (spread err).
Proof.
  unfold fires, nameIs.
  rewrite !prop_copy_default by discriminate.
  rewrite !prop_spread. reflexivity.
Qed.

Lemma copyOf_eq (e : ErrorObject) :
  copyOf e
  = {| JS.props := JS.set (JS.props e) "message" (prop e "message");
       JS.ctorMessage := JS.Undefined;
       JS.ctorStack := JS.Undefined;
       JS.protoName := JS.Undefined |}.
Proof.
  unfold copyOf, JS.assign, JS.spread.
  cbn [JS.props JS.ctorMessage JS.ctorStack JS.protoName].
  change (String.eqb "message" "message") with true.
  change (String.eqb "message" "stack") with false.
  cbn [andb].
  destruct (JS.lookupProp (JS.props e) "message"); reflexivity.
Qed.

Lemma props_assign (e : ErrorObject) (k : string) (v : JS.value) :
  k <> "message" -> k <> "stack" ->
  JS.props (assign e k v) = JS.set (JS.props e) k v.
Proof.
  intros Hm Hs. unfold JS.assign.
  destruct (String.eqb_spec k "message"); [contradiction |].
  destruct (String.eqb_spec k "stack"); [contradiction |].
  reflexivity.
Qed.

Lemma prop_own (e : ErrorObject) (k : string) :
  k <> "message" -> k <> "stack" -> k <> "name" ->
  prop e k = JS.get (JS.props e) k.
Proof.
  intros Hm Hs Hn. unfold JS.prop, JS.get.
  destruct (JS.lookupProp (JS.props e) k); [reflexivity |].
  destruct (String.eqb_spec k "message"); [contradiction |].
  destruct (String.eqb_spec k "stack"); [contradiction |].
  destruct (String.eqb_spec k "name"); [contradiction |].
  reflexivity.
Qed.

Lemma props_withDefaults (err : ErrorObject) :
  JS.props (withDefaults err)
  = JS.set
      (JS.set (JS.props err) "statusCode"
         (JS.orElse (JS.get (JS.props err) "statusCode") (JS.Num 500)))
      "status"
      (JS.orElse (JS.get (JS.props err) "status") (JS.Str "error")).
Proof.
  unfold withDefaults. cbv zeta.
  rewrite !props_assign by discriminate.
  rewrite prop_assign.
  change (String.eqb "statusCode" "status") with false. cbv iota.
  rewrite !prop_own by discriminate. reflexivity.
Qed.

Lemma copy_depends_on (e1 e2 : ErrorObject) :
  JS.props e1 = JS.props e2 ->
  prop e1 "message" = prop e2 "message" ->
  copyOf (withDefaults e1) = copyOf (withDefaults e2).
Proof.
  intros Hp Hm. rewrite !copyOf_eq, !props_withDefaults.
  rewrite (prop_withDefaults e1 "message"), (prop_withDefaults e2 "message").
  change (String.eqb "status" "message") with false.
  change (String.eqb "statusCode" "message") with false. cbv iota.
  rewrite Hp, Hm. reflexivity.
Qed.

(** X12. Outside development the handler works on the copy
    [{ ...err }] plus [message]: two errors with the same own enumerable
    properties and the same message have the same outcome, whatever their
    inherited [name] and their [stack] are.  So an error whose [name],
    [code], [type], [response] and [isOperational] are not own properties
    is never translated and is not operational for [sendErrorProd]; on an
    API request the handler then calls [logger.error], which throws, and
    sends nothing. *)
Theorem X12_production_reads_own_properties (NODE_ENV : JS.value)
    (req : Request) :
  NODE_ENV <> JS.Str "development" ->
  (forall e1 e2,
      JS.props e1 = JS.props e2 ->
      prop e1 "message" = prop e2 "message" ->
      globalErrorHandler NODE_ENV e1 req = globalErrorHandler NODE_ENV e2 req)
  /\ (forall err,
      isApi req = true ->
      (forall k, In k [ "name"; "code"; "type"; "response"; "isOperational" ] ->
                 JS.lookupProp (JS.props err) k = None) ->
      translate (copyOf (withDefaults err)) = Some (copyOf (withDefaults err))
      /\ prop (copyOf (withDefaults err)) "isOperational" = JS.Undefined
      /\ globalErrorHandler NODE_ENV err req = Thrown).
Proof.
  intros Henv. split.
  - intros e1 e2 Hp Hm.
    rewrite !globalErrorHandler_production by exact Henv.
    rewrite (copy_depends_on e1 e2 Hp Hm). reflexivity.
  - intros err Hapi Hown.
    rewrite globalErrorHandler_production by exact Henv.
    assert (Hget : forall k,
               In k [ "name"; "code"; "type"; "response"; "isOperational" ] ->
               JS.get (JS.props err) k = JS.Undefined).
    { intros k Hk. unfold JS.get. rewrite (Hown k Hk). reflexivity. }
    assert (Hquiet : fires (copyOf (withDefaults err)) = false).
    { rewrite fires_copy. unfold fires, nameIs. rewrite !prop_spread.
      rewrite (Hget "name"), (Hget "code"), (Hget "type"), (Hget "response")
        by (simpl; tauto).
      reflexivity. }
    assert (Hop : prop (copyOf (withDefaults err)) "isOperational"
                  = JS.Undefined).
    { rewrite prop_copy_default by discriminate.
      apply Hget. simpl. tauto. }
    rewrite (translate_quiet _ Hquiet).
    split; [reflexivity |]. split; [exact Hop |].
    unfold sendErrorProd. rewrite Hapi, Hop. reflexivity.
Qed.

(** A cast error whose [name] is inherited from its prototype. *)
Definition inheritedCastError : ErrorObject :=
  {| JS.props :=
       [ ("path", JS.Str "_id"); ("value", JS.Str "abc");
         ("kind", JS.Str "ObjectId") ];
     JS.ctorMessage := JS.Str "Cast to ObjectId failed";
     JS.ctorStack := JS.Str "";
     JS.protoName := JS.Str "CastError" |}.

Lemma X12_witness :
  JS.Str "production" <> JS.Str "development"
  /\ isApi apiRequest = true
  /\ nameIs "CastError" inheritedCastError = true
  /\ translate (copyOf (withDefaults inheritedCastError))
     = Some (copyOf (withDefaults inheritedCastError))
  /\ prop (copyOf (withDefaults inheritedCastError)) "isOperational"
     = JS.Undefined
  /\ globalErrorHandler (JS.Str "production") inheritedCastError apiRequest
     = Thrown.
Proof.
  split; [discriminate |]. split; [reflexivity |]. split; [reflexivity |].
  apply (proj2 (X12_production_reads_own_properties (JS.Str "production")
                  apiRequest ltac:(discriminate)));
    [reflexivity |].
  intros k Hk. simpl in Hk.
  repeat (destruct Hk as [<- | Hk]; [reflexivity |]). destruct Hk.
Defined.

(** X13. In development every error is answered and none is thrown:
    the status code is [err.statusCode], or 500 when that is missing or
    falsy, and the message and the stack are sent as they are, also for
    errors that are not operational.  API requests get JSON with
    [success: false], other requests the [error] view. *)
Theorem X13_development_exposes_error (err : ErrorObject) (req : Request) :
  exists r,
    globalErrorHandler (JS.Str "development") err req = Sent r
    /\ statusOf r = JS.orElse (prop err "statusCode") (JS.Num 500)
    /\ (isApi req = true ->
        exists body,
          r = Json (JS.orElse (prop err "statusCode") (JS.Num 500)) body
          /\ JS.get body "success" = JS.Bool false
          /\ JS.get body "error" = prop err "message"
          /\ JS.get body "stack" = prop err "stack")
    /\ (isApi req = false ->
        exists locals,
          r = Render (JS.orElse (prop err "statusCode") (JS.Num 500))
                "error" locals
          /\ JS.get locals "msg" = prop err "message").
Proof.
  assert (Hcode : prop (withDefaults err) "statusCode"
                  = JS.orElse (prop err "statusCode") (JS.Num 500)).
  { rewrite prop_withDefaults. reflexivity. }
  assert (Hmsg : prop (withDefaults err) "message" = prop err "message").
  { rewrite prop_withDefaults. reflexivity. }
  assert (Hstack : prop (withDefaults err) "stack" = prop err "stack").
  { rewrite prop_withDefaults. reflexivity. }
  exists (sendErrorDev (withDefaults err) req).
  split; [reflexivity |].
  unfold sendErrorDev. rewrite Hcode, Hmsg, Hstack.
  destruct (isApi req).
  - split; [reflexivity |]. split; [| discriminate].
    intros _. eexists. split; [reflexivity |].
    split; [reflexivity |]. split; reflexivity.
  - split; [reflexivity |]. split; [discriminate |].
    intros _. eexists. split; reflexivity.
Qed.

Lemma X13_witness :
  exists body,
    globalErrorHandler (JS.Str "development") programmingError apiRequest
    = Sent (Json (JS.Num 500) body)
    /\ JS.get body "error" = JS.Str "Cannot read properties of undefined".
Proof.
  destruct (X13_development_exposes_error programmingError apiRequest)
    as (r & Hr & _ & Hapi & _).
  destruct (Hapi eq_refl) as (body & -> & _ & Herr & _).
  exists body. split; [exact Hr | exact Herr].
Defined.

(** *** Errors built by the application *)

Lemma production_AppError (NODE_ENV : JS.value) (m : string) (c : Z)
    (req : Request) :
  NODE_ENV <> JS.Str "development" ->
  c <> 0 ->
  globalErrorHandler NODE_ENV (AppError m c) req
  = Sent (if isApi req
          then Json (JS.Num c)
                 ([ ("success", JS.Bool false); ("error", JS.Str m) ]
                  ++ (if c =? 429
                      then [ ("retryAfter", JS.Undefined) ]
                      else []))
          else Render (JS.Num c) "error"
                 [ ("title", JS.Str "Something went wrong!");
                   ("msg", JS.Str m) ]).
Proof.
  intros Henv Hc.
  rewrite globalErrorHandler_production by exact Henv.
  assert (Hquiet : fires (copyOf (withDefaults (AppError m c))) = false).
  { rewrite fires_copy. reflexivity. }
  rewrite (translate_quiet _ Hquiet).
  destruct (untranslated_props (AppError m c)) as (Hop & Hmsg & Hcode).
  assert (Htruthy : JS.orElse (prop (AppError m c) "statusCode") (JS.Num 500)
                    = JS.Num c).
  { change (prop (AppError m c) "statusCode") with (JS.Num c).
    unfold JS.orElse, JS.truthy.
    destruct (Z.eqb_spec c 0); [contradiction | reflexivity]. }
  unfold sendErrorProd.
  rewrite Hop, Hmsg, Hcode, Htruthy.
  rewrite (prop_copy_default _ "retryAfter") by discriminate.
  destruct (isApi req); reflexivity.
Qed.

(** X14. Outside development an [AppError] reaches the client as it
    was built: the status code and the message are the constructor's
    arguments, for API requests as JSON and otherwise in the [error]
    view, and no translation rule touches it.  The 404 error of
    [handleNotFound] is answered with status 404 and the URL in the
    message. *)
Theorem X14_AppError_reaches_client (NODE_ENV : JS.value) (req : Request) :
  NODE_ENV <> JS.Str "development" ->
  (forall m c,
      c <> 0 -> c <> 429 ->
      translate (copyOf (withDefaults (AppError m c)))
      = Some (copyOf (withDefaults (AppError m c)))
      /\ globalErrorHandler NODE_ENV (AppError m c) req
         = Sent (if isApi req
                 then Json (JS.Num c)
                        [ ("success", JS.Bool false); ("error", JS.Str m) ]
                 else Render (JS.Num c) "error"
                        [ ("title", JS.Str "Something went wrong!");
                          ("msg", JS.Str m) ]))
  /\ (isApi req = true ->
      globalErrorHandler NODE_ENV (handleNotFound req) req
      = Sent (Json (JS.Num 404)
                [ ("success", JS.Bool false);
                  ("error",
                   JS.Str ("Can't find " +:+ originalUrl req
                           +:+ " on this server!")) ])).
Proof.
  intros Henv. split.
  - intros m c Hc Hlimit. split.
    + apply translate_quiet. rewrite fires_copy. reflexivity.
    + rewrite (production_AppError NODE_ENV m c req Henv Hc).
      destruct (Z.eqb_spec c 429); [contradiction | reflexivity].
  - intros Hapi. unfold handleNotFound.
    rewrite production_AppError by (exact Henv || discriminate).
    rewrite Hapi. reflexivity.
Qed.

Lemma X14_witness :
  JS.Str "production" <> JS.Str "development"
  /\ 403 <> 0 /\ 403 <> 429
  /\ globalErrorHandler (JS.Str "production") (AppError "Forbidden" 403)
       pageRequest
     = Sent (Render (JS.Num 403) "error"
               [ ("title", JS.Str "Something went wrong!");
                 ("msg", JS.Str "Forbidden") ]).
Proof.
  split; [discriminate |]. split; [lia |]. split; [lia |].
  apply (proj2
           (proj1 (X14_AppError_reaches_client (JS.Str "production")
                     pageRequest ltac:(discriminate))
              "Forbidden" 403 ltac:(lia) ltac:(lia))).
Defined.

End ErrorHandlerMore.

(** ** Authentication and authorisation guards *)

Module AccessProofs.
Import Http Access.

Abbreviation strictEq_Str := ErrorHandlerProofs.strictEq_Str.
Abbreviation get_set := ChatProofs.get_set.

(** The token of an [Authorization] header: the header without a leading
    ['Bearer '], or the whole header. *)
Definition tokenOf (authHeader : string) : string :=
  if String.prefix "Bearer " authHeader
  then String.substring 7 (String.length authHeader - 7) authHeader
  else authHeader.

Lemma substring_all (s : string) :
  String.substring 0 (String.length s) s = s.
Proof. induction s as [| c s IH]; simpl; [| rewrite IH]; reflexivity. Qed.

Lemma tokenOf_bearer (t : string) : tokenOf ("Bearer " +:+ t) = t.
Proof.
  unfold tokenOf. destruct t as [| c t]; [reflexivity |].
  change (String.prefix "Bearer " ("Bearer " +:+ String c t)) with true.
  cbv iota.
  change (String.substring 7 (String.length ("Bearer " +:+ String c t) - 7)
            ("Bearer " +:+ String c t))
    with (String.substring 0 (String.length (String c t)) (String c t)).
  apply substring_all.
Qed.

Lemma strictEq_Str_false (v : JS.value) (s : string) :
  JS.strictEq v (JS.Str s) = false <-> v <> JS.Str s.
Proof.
  rewrite <- strictEq_Str. destruct (JS.strictEq v (JS.Str s)); split;
    congruence.
Qed.

(** What holds when [auth] calls [next()]. *)
Lemma auth_next (env : Auth.Env) (authHeader : option string) (now : Z)
    (user : JS.value) (token : string) :
  Auth.auth env authHeader now = Next (user, token) ->
  exists header decoded fields metrics updatedAt,
    authHeader = Some header
    /\ token = tokenOf header
    /\ token <> ""
    /\ Auth.verify env token = Ok decoded
    /\ Auth.findById env (JS.member decoded "userId") = Ok (JS.Obj fields)
    /\ JS.get fields "status" <> JS.Str "suspended"
    /\ JS.get fields "status" <> JS.Str "deleted"
    /\ JS.get fields "metrics" = JS.Obj metrics
    /\ Auth.save env
         (JS.Obj (JS.set fields "metrics"
                    (JS.Obj (JS.set metrics "lastActive" (JS.Num now)))))
       = Ok updatedAt
    /\ user
       = JS.Obj (JS.set
                   (JS.set fields "metrics"
                      (JS.Obj (JS.set metrics "lastActive" (JS.Num now))))
                   "updatedAt" updatedAt).
Proof.
  unfold Auth.auth. intros H.
  destruct authHeader as [header |]; [| discriminate H].
  destruct header as [| c s]; [discriminate H |].
  remember (String c s) as header eqn:Hheader.
  cbv zeta in H. fold (tokenOf header) in H.
  destruct (String.eqb_spec (tokenOf header) "") as [| Hne];
    [discriminate H |].
  destruct (Auth.verify env (tokenOf header)) as [decoded | error] eqn:Hv;
    [| discriminate H].
  destruct (Auth.findById env (JS.member decoded "userId"))
    as [found | error] eqn:Hf; [| discriminate H].
  destruct (negb (JS.truthy found)); [discriminate H |].
  destruct (JS.strictEq (JS.member found "status") (JS.Str "suspended")
            || JS.strictEq (JS.member found "status") (JS.Str "deleted"))
    eqn:Hstatus; [discriminate H |].
  apply orb_false_elim in Hstatus. destruct Hstatus as [Hs Hd].
  apply strictEq_Str_false in Hs, Hd.
  destruct found as [| | b | z | str | items | fields | name];
    try discriminate H.
  destruct (JS.member (JS.Obj fields) "metrics")
    as [| | b | z | str | items | metrics | name] eqn:Hm; try discriminate H.
  destruct (Auth.save env _) as [updatedAt | error] eqn:Hsave;
    [| discriminate H].
  injection H as <- <-.
  exists header, decoded, fields, metrics, updatedAt.
  repeat split; try assumption; reflexivity.
Qed.

(** X17. [auth] calls [next()] only for a request with a non-empty
    token (the [Authorization] header, without a leading 'Bearer ') that
    verifies, whose user exists and is neither suspended nor deleted, and
    after that user was saved with [metrics.lastActive] set to the current
    time.  The user attached to the request is the saved document: it has
    that [metrics.lastActive], the [updatedAt] written by the save, and
    every other field as it was found. *)
Theorem X17_auth_next_is_sound (env : Auth.Env)
    (authHeader : option string) (now : Z) (user : JS.value)
    (token : string) :
  Auth.auth env authHeader now = Next (user, token) ->
  exists header decoded found saved updatedAt,
    authHeader = Some header
    /\ token = tokenOf header
    /\ token <> ""
    /\ Auth.verify env token = Ok decoded
    /\ Auth.findById env (JS.member decoded "userId") = Ok found
    /\ JS.truthy found = true
    /\ JS.member found "status" <> JS.Str "suspended"
    /\ JS.member found "status" <> JS.Str "deleted"
    /\ Auth.save env saved = Ok updatedAt
    /\ JS.member (JS.member saved "metrics") "lastActive" = JS.Num now
    /\ (forall k, k <> "metrics" -> JS.member saved k = JS.member found k)
    /\ (forall k, k <> "lastActive" ->
          JS.member (JS.member saved "metrics") k
          = JS.member (JS.member found "metrics") k)
    /\ JS.member user "updatedAt" = updatedAt
    /\ (forall k, k <> "updatedAt" -> JS.member user k = JS.member saved k).
Proof.
  intros H. apply auth_next in H.
  destruct H as (header & decoded & fields & metrics & updatedAt & Hh & Ht
                 & Hne & Hv & Hf & Hs & Hd & Hm & Hsave & Hu).
  exists header, decoded, (JS.Obj fields),
    (JS.Obj (JS.set fields "metrics"
               (JS.Obj (JS.set metrics "lastActive" (JS.Num now))))),
    updatedAt.
  do 9 (split; [first [assumption | reflexivity] |]).
  subst user. cbn [JS.member]. rewrite !get_set.
  change (String.eqb "metrics" "metrics") with true.
  change (String.eqb "updatedAt" "updatedAt") with true. cbv iota.
  cbn [JS.member]. split; [| split; [| split; [| split]]].
  - rewrite get_set. reflexivity.
  - intros k Hk. rewrite get_set.
    destruct (String.eqb_spec "metrics" k); [congruence | reflexivity].
  - intros k Hk. rewrite Hm. cbn [JS.member]. rewrite get_set.
    destruct (String.eqb_spec "lastActive" k); [congruence | reflexivity].
  - reflexivity.
  - intros k Hk. rewrite get_set.
    destruct (String.eqb_spec "updatedAt" k); [congruence | reflexivity].
Qed.

Definition storedUser : JS.value :=
  JS.Obj [ ("_id", JS.Str "u1"); ("role", JS.Str "user");
           ("status", JS.Str "active");
           ("metrics", JS.Obj [ ("totalGoals", JS.Num 2) ]);
           ("updatedAt", JS.Num 500) ].

(** An environment that accepts the token ["abc"] of the stored user and
    in which a save is stamped with the time 1001. *)
Definition sampleEnv : Auth.Env :=
  {| Auth.verify := fun token =>
       if String.eqb token "abc"
       then Ok (JS.Obj [ ("userId", JS.Str "u1") ])
       else Throws ErrorHandlerProofs.jwtError;
     Auth.findById := fun id =>
       Ok (if JS.strictEq id (JS.Str "u1") then storedUser else JS.Null);
     Auth.save := fun _ => Ok (JS.Num 1001) |}.

Definition authenticated : JS.value :=
  JS.Obj [ ("_id", JS.Str "u1"); ("role", JS.Str "user");
           ("status", JS.Str "active");
           ("metrics", JS.Obj [ ("totalGoals", JS.Num 2);
                                ("lastActive", JS.Num 1000) ]);
           ("updatedAt", JS.Num 1001) ].

Lemma sample_auth :
  Auth.auth sampleEnv (Some "Bearer abc") 1000 = Next (authenticated, "abc").
Proof. reflexivity. Qed.

Lemma X17_witness :
  exists header decoded found saved updatedAt,
    Some "Bearer abc" = Some header
    /\ "abc" = tokenOf header
    /\ "abc" <> ""
    /\ Auth.verify sampleEnv "abc" = Ok decoded
    /\ Auth.findById sampleEnv (JS.member decoded "userId") = Ok found
    /\ JS.truthy found = true
    /\ JS.member found "status" <> JS.Str "suspended"
    /\ JS.member found "status" <> JS.Str "deleted"
    /\ Auth.save sampleEnv saved = Ok updatedAt
    /\ JS.member (JS.member saved "metrics") "lastActive" = JS.Num 1000
    /\ (forall k, k <> "metrics" -> JS.member saved k = JS.member found k)
    /\ (forall k, k <> "lastActive" ->
          JS.member (JS.member saved "metrics") k
          = JS.member (JS.member found "metrics") k)
    /\ JS.member authenticated "updatedAt" = updatedAt
    /\ (forall k, k <> "updatedAt" ->
          JS.member authenticated k = JS.member saved k).
Proof.
  exact (X17_auth_next_is_sound sampleEnv (Some "Bearer abc") 1000
           authenticated "abc" sample_auth).
Defined.

(** The save changes what [auth] attaches: the stored [updatedAt] is
    replaced by the stamp of the save. *)
Example auth_rewrites_updatedAt :
  JS.member storedUser "updatedAt" = JS.Num 500
  /\ JS.member authenticated "updatedAt" = JS.Num 1001.
Proof. split; reflexivity. Qed.

(** X18. [optionalAuth] attaches a user only when the token verifies
    and the user exists and is neither suspended nor deleted; it never
    saves.  Whenever [auth] accepts a request, [optionalAuth] attaches the
    same token and the same user, apart from [metrics] and [updatedAt], on
    the same request. *)
Theorem X18_optionalAuth (env : Auth.Env) (authHeader : option string) :
  (forall user token,
      optionalAuth env authHeader = Some (user, token) ->
      exists header decoded,
        authHeader = Some header
        /\ token = tokenOf header
        /\ token <> ""
        /\ Auth.verify env token = Ok decoded
        /\ Auth.findById env (JS.member decoded "userId") = Ok user
        /\ JS.truthy user = true
        /\ JS.member user "status" <> JS.Str "suspended"
        /\ JS.member user "status" <> JS.Str "deleted")
  /\ (forall now user token,
      Auth.auth env authHeader now = Next (user, token) ->
      exists found,
        optionalAuth env authHeader = Some (found, token)
        /\ forall k, k <> "metrics" -> k <> "updatedAt" ->
                     JS.member user k = JS.member found k).
Proof.
  split.
  - intros user token H. unfold optionalAuth in H.
    destruct authHeader as [header |]; [| discriminate H].
    destruct header as [| c s]; [discriminate H |].
    remember (String c s) as header eqn:Hheader.
    cbv zeta in H. fold (tokenOf header) in H.
    destruct (String.eqb_spec (tokenOf header) "") as [| Hne];
      [discriminate H |].
    destruct (Auth.verify env (tokenOf header)) as [decoded | error] eqn:Hv;
      [| discriminate H].
    destruct (Auth.findById env (JS.member decoded "userId"))
      as [found | error] eqn:Hf; [| discriminate H].
    destruct (JS.truthy found) eqn:Htruthy; [| discriminate H].
    destruct (JS.strictEq (JS.member found "status") (JS.Str "suspended"))
      eqn:Hs; [discriminate H |].
    destruct (JS.strictEq (JS.member found "status") (JS.Str "deleted"))
      eqn:Hd; [discriminate H |].
    apply strictEq_Str_false in Hs, Hd.
    injection H as <- <-.
    exists header, decoded. repeat split; assumption.
  - intros now user token H. apply auth_next in H.
    destruct H as (header & decoded & fields & metrics & updatedAt & -> & Ht
                   & Hne & Hv & Hf & Hs & Hd & Hm & Hsave & Hu).
    exists (JS.Obj fields). split.
    + unfold optionalAuth.
      destruct header as [| c s]; [exfalso; apply Hne; exact Ht |].
      remember (String c s) as header eqn:Hheader.
      cbv zeta. fold (tokenOf header). rewrite <- Ht.
      destruct (String.eqb_spec token ""); [contradiction |].
      rewrite Hv, Hf. cbn [JS.truthy JS.member andb].
      apply strictEq_Str_false in Hs, Hd. rewrite Hs, Hd. reflexivity.
    + intros k Hk Hk'. subst user. cbn [JS.member]. rewrite !get_set.
      destruct (String.eqb_spec "updatedAt" k); [congruence |].
      destruct (String.eqb_spec "metrics" k); [congruence | reflexivity].
Qed.

Lemma X18_witness :
  exists found,
    optionalAuth sampleEnv (Some "Bearer abc") = Some (found, "abc")
    /\ forall k, k <> "metrics" -> k <> "updatedAt" ->
                 JS.member authenticated k = JS.member found k.
Proof.
  exact (proj2 (X18_optionalAuth sampleEnv (Some "Bearer abc")) 1000
           authenticated "abc" sample_auth).
Defined.

Lemma status_failure code message :
  statusOf (Auth.failure code message) = JS.Num code.
Proof. reflexivity. Qed.

(** X19. [requireRole(roles)] lets a request through exactly when a
    user is attached and the user's role is one of [roles]; without a user
    the answer is 401 and with another role 403, so an empty list of roles
    lets nobody through.  [requireAdmin] lets through exactly the requests
    that [requireRole(['admin'])] lets through. *)
Theorem X19_role_guards (roles : list string) (user : JS.value) :
  (requireRole roles user = Next tt
   <-> JS.truthy user = true
       /\ exists r, In r roles /\ JS.member user "role" = JS.Str r)
  /\ (forall r, requireRole roles user = Respond r ->
        (JS.truthy user = false /\ statusOf r = JS.Num 401)
        \/ (JS.truthy user = true /\ statusOf r = JS.Num 403))
  /\ (requireAdmin user = Next tt <-> requireRole [ "admin" ] user = Next tt)
  /\ (forall r, requireAdmin user = Respond r ->
        (JS.truthy user = false /\ statusOf r = JS.Num 401)
        \/ (JS.truthy user = true /\ statusOf r = JS.Num 403)).
Proof.
  unfold requireRole, requireAdmin.
  destruct (JS.truthy user); cbn [negb].
  - split; [| split; [| split]].
    + destruct (existsb _ roles) eqn:He; cbn [negb].
      * split; [| reflexivity]. intros _. split; [reflexivity |].
        apply existsb_exists in He. destruct He as (r & Hin & Hr).
        exists r. split; [exact Hin |]. apply strictEq_Str. exact Hr.
      * split; [discriminate |]. intros [_ (r & Hin & Hr)].
        assert (Ht : existsb
                       (fun r => JS.strictEq (JS.member user "role")
                                   (JS.Str r)) roles = true).
        { apply existsb_exists. exists r. split; [exact Hin |].
          apply strictEq_Str. exact Hr. }
        congruence.
    + intros r. destruct (existsb _ roles); cbn [negb]; [discriminate |].
      intros H. injection H as <-. right. split; reflexivity.
    + cbn [existsb]. rewrite orb_false_r.
      destruct (JS.strictEq (JS.member user "role") (JS.Str "admin"));
        cbn [negb]; split; intros H; first [reflexivity | discriminate H].
    + intros r.
      destruct (JS.strictEq (JS.member user "role") (JS.Str "admin"));
        cbn [negb]; [discriminate |].
      intros H. injection H as <-. right. split; reflexivity.
  - split; [| split; [| split]].
    + split; [discriminate | intros [H _]; discriminate H].
    + intros r H. injection H as <-. left. split; reflexivity.
    + split; discriminate.
    + intros r H. injection H as <-. left. split; reflexivity.
Qed.

Lemma X19_witness :
  requireRole [ "coach"; "user" ] storedUser = Next tt.
Proof.
  apply (proj1 (X19_role_guards [ "coach"; "user" ] storedUser)).
  split; [reflexivity |]. exists "user".
  split; [simpl; tauto | reflexivity].
Defined.

Lemma inherited_truthy (names : list string) (k : string) :
  k = "__proto__" \/ In k names ->
  JS.truthy (JS.inherited names k) = true
  /\ forall s, JS.strictEq (JS.inherited names k) (JS.Str s) = false.
Proof.
  intros Hk. unfold JS.inherited.
  destruct (String.eqb_spec k "__proto__"); [split; reflexivity |].
  destruct Hk as [Hk | Hk]; [contradiction |].
  assert (He : existsb (String.eqb k) names = true).
  { apply existsb_exists. exists k. split; [exact Hk |].
    apply String.eqb_refl. }
  rewrite He. split; reflexivity.
Qed.

(** X20. [requireOwnership]: an administrator passes whatever the
    request names.  For any other user with a string [_id], a request
    whose [params.userId] is set passes exactly when that parameter is the
    user's own identifier, whatever the body and the query say.  A request
    that names no user identifier at all (none in the parameters, none
    read from the body under the field name, none in the query) passes
    unchecked; the read from the body also finds what the body inherits,
    so a field name such as [constructor] that the body does not hold
    itself is answered with 403. *)
Theorem X20_requireOwnership (resourceUserIdField : string)
    (req : OwnershipRequest) :
  JS.truthy (user req) = true ->
  (JS.member (user req) "role" = JS.Str "admin" ->
   requireOwnership resourceUserIdField req = Next tt)
  /\ (forall id,
      JS.member (user req) "role" <> JS.Str "admin" ->
      JS.member (user req) "_id" = JS.Str id ->
      JS.truthy (JS.get (params req) "userId") = true ->
      (requireOwnership resourceUserIdField req = Next tt
       <-> JS.get (params req) "userId" = JS.Str id))
  /\ (forall fields,
      JS.member (user req) "role" <> JS.Str "admin" ->
      JS.truthy (JS.get (params req) "userId") = false ->
      body req = JS.Obj fields ->
      JS.truthy (JS.index (JS.Obj fields) resourceUserIdField) = false ->
      JS.truthy (JS.get (query req) "userId") = false ->
      requireOwnership resourceUserIdField req = Next tt)
  /\ (forall fields id,
      JS.member (user req) "role" <> JS.Str "admin" ->
      JS.member (user req) "_id" = JS.Str id ->
      JS.truthy (JS.get (params req) "userId") = false ->
      body req = JS.Obj fields ->
      JS.lookupProp fields resourceUserIdField = None ->
      resourceUserIdField = "__proto__"
      \/ In resourceUserIdField JS.objectPrototype ->
      requireOwnership resourceUserIdField req
      = Respond (Auth.failure 403
                   "Access denied. You can only access your own resources.")).
Proof.
  intros Huser. unfold requireOwnership. cbv zeta. rewrite Huser.
  cbn [negb]. split; [| split; [| split]].
  - intros Hrole. rewrite Hrole. reflexivity.
  - intros id Hrole Hid Hparam.
    apply strictEq_Str_false in Hrole. rewrite Hrole, Hparam, Hparam, Hid.
    cbn [JS.toString].
    destruct (JS.strictEq (JS.get (params req) "userId") (JS.Str id))
      eqn:Heq; cbn [negb].
    + apply strictEq_Str in Heq. split; [intros _; exact Heq | reflexivity].
    + apply strictEq_Str_false in Heq. split; [discriminate | contradiction].
  - intros fields Hrole Hparam Hbody Hfield Hquery.
    apply strictEq_Str_false in Hrole. rewrite Hrole, Hparam, Hbody.
    unfold JS.orElse. rewrite Hfield, Hquery. reflexivity.
  - intros fields id Hrole Hid Hparam Hbody Hown Hname.
    apply strictEq_Str_false in Hrole. rewrite Hrole, Hparam, Hbody, Hid.
    destruct (inherited_truthy JS.objectPrototype resourceUserIdField Hname)
      as [Htruthy Hneq].
    unfold JS.index. rewrite Hown. unfold JS.orElse. rewrite Htruthy, Htruthy.
    cbn [JS.toString]. rewrite Hneq. reflexivity.
Qed.

Definition foreignRequest : OwnershipRequest :=
  {| user := storedUser;
     params := [ ("userId", JS.Str "u2") ];
     body := JS.Obj [ ("userId", JS.Str "u1") ];
     query := [] |}.

Lemma X20_witness :
  JS.truthy (user foreignRequest) = true
  /\ JS.member (user foreignRequest) "role" <> JS.Str "admin"
  /\ JS.member (user foreignRequest) "_id" = JS.Str "u1"
  /\ JS.truthy (JS.get (params foreignRequest) "userId") = true
  /\ (requireOwnership "userId" foreignRequest = Next tt
      <-> JS.get (params foreignRequest) "userId" = JS.Str "u1").
Proof.
  split; [reflexivity |]. split; [discriminate |].
  split; [reflexivity |]. split; [reflexivity |].
  apply (proj1 (proj2 (X20_requireOwnership "userId" foreignRequest eq_refl))
           "u1"); [discriminate | reflexivity | reflexivity].
Defined.

(** The owner's own request, checked against the field [constructor]. *)
Example inherited_field_is_refused :
  requireOwnership "constructor"
    {| user := storedUser;
       params := [];
       body := JS.Obj [ ("userId", JS.Str "u1") ];
       query := [] |}
  = Respond (Auth.failure 403
               "Access denied. You can only access your own resources.").
Proof. reflexivity. Qed.

End AccessProofs.

(** ** The stateless guards of middleware/security.js *)

Module GuardsProofs.
Import Http Guards.

(** *** Substrings *)

Lemma prefix_nil (s : string) : String.prefix "" s = true.
Proof. destruct s; reflexivity. Qed.

Lemma prefix_cons (a b : Ascii.ascii) (t s : string) :
  String.prefix (String a t) (String b s)
  = if Ascii.ascii_dec a b then String.prefix t s else false.
Proof. reflexivity. Qed.

Lemma prefix_spec (t s : string) :
  String.prefix t s = true <-> exists post, s = t +:+ post.
Proof.
  revert s. induction t as [| a t IH]; intros s.
  - rewrite prefix_nil. split; [| reflexivity].
    intros _. exists s. reflexivity.
  - destruct s as [| b s].
    + split; [discriminate | intros [post H]; discriminate H].
    + rewrite prefix_cons. destruct (Ascii.ascii_dec a b) as [-> | Hne].
      * rewrite IH. split; intros [post H]; exists post.
        -- rewrite H. reflexivity.
        -- change (String b t +:+ post) with (String b (t +:+ post)) in H.
           congruence.
      * split; [discriminate |]. intros [post H].
        change (String a t +:+ post) with (String a (t +:+ post)) in H.
        congruence.
Qed.

Lemma includes_unfold (t s : string) :
  includes t s
  = String.prefix t s
    || match s with
       | EmptyString => false
       | String _ s' => includes t s'
       end.
Proof. destruct s; reflexivity. Qed.

(** [s.includes(t)] holds exactly when [t] occurs in [s]. *)
Lemma includes_spec (t s : string) :
  includes t s = true <-> exists pre post, s = pre +:+ t +:+ post.
Proof.
  split.
  - induction s as [| c s IH]; rewrite includes_unfold; intros H;
      apply orb_true_iff in H; destruct H as [H | H].
    + apply prefix_spec in H. destruct H as [post H].
      exists "", post. exact H.
    + discriminate H.
    + apply prefix_spec in H. destruct H as [post H].
      exists "", post. exact H.
    + destruct (IH H) as (pre & post & ->).
      exists (String c pre), post. reflexivity.
  - intros (pre & post & ->). induction pre as [| c pre IH].
    + rewrite includes_unfold. apply orb_true_iff. left.
      apply prefix_spec. exists post. reflexivity.
    + change (String c pre +:+ t +:+ post)
        with (String c (pre +:+ t +:+ post)).
      rewrite includes_unfold, IH. apply orb_true_r.
Qed.

(** *** Comma-separated lists *)

(** [l.join(sep)] for strings. *)
Fixpoint joinWith (sep : Ascii.ascii) (l : list string) : string :=
  match l with
  | [] => ""
  | [ s ] => s
  | s :: rest => s +:+ String sep (joinWith sep rest)
  end.

Fixpoint free (sep : Ascii.ascii) (s : string) : bool :=
  match s with
  | EmptyString => true
  | String c s' => negb (Ascii.eqb c sep) && free sep s'
  end.

Lemma split_free (sep : Ascii.ascii) (s : string) :
  free sep s = true -> split sep s = [ s ].
Proof.
  induction s as [| c s IH]; [reflexivity |].
  cbn [free split]. intros H. apply andb_true_iff in H.
  destruct H as [Hc Hs]. apply negb_true_iff in Hc.
  rewrite Hc, (IH Hs). reflexivity.
Qed.

Lemma split_app (sep : Ascii.ascii) (s rest : string) :
  free sep s = true ->
  split sep (s +:+ String sep rest) = s :: split sep rest.
Proof.
  induction s as [| c s IH].
  - intros _. change ("" +:+ String sep rest) with (String sep rest).
    cbn [split]. rewrite Ascii.eqb_refl. reflexivity.
  - cbn [free]. intros H. apply andb_true_iff in H.
    destruct H as [Hc Hs]. apply negb_true_iff in Hc.
    change (String c s +:+ String sep rest)
      with (String c (s +:+ String sep rest)).
    cbn [split]. rewrite Hc, (IH Hs). reflexivity.
Qed.

(** Splitting the joined list gives the list back. *)
Lemma split_joinWith (sep : Ascii.ascii) (l : list string) :
  l <> [] ->
  Forall (fun s => free sep s = true) l ->
  split sep (joinWith sep l) = l.
Proof.
  intros Hne Hl. induction Hl as [| s l Hs Hl IH]; [contradiction |].
  destruct l as [| s' l].
  - apply split_free. exact Hs.
  - change (joinWith sep (s :: s' :: l))
      with (s +:+ String sep (joinWith sep (s' :: l))).
    rewrite (split_app sep s _ Hs), IH by discriminate. reflexivity.
Qed.

Lemma split_not_nil (sep : Ascii.ascii) (s : string) : split sep s <> [].
Proof.
  destruct s as [| c s]; cbn [split]; [discriminate |].
  destruct (Ascii.eqb c sep); [discriminate |].
  destruct (split sep s); discriminate.
Qed.

Lemma existsb_eqb (a : string) (l : list string) :
  existsb (String.eqb a) l = true <-> In a l.
Proof.
  rewrite existsb_exists. split.
  - intros (x & Hin & Heq). apply String.eqb_eq in Heq. subst x. exact Hin.
  - intros Hin. exists a. split; [exact Hin | apply String.eqb_refl].
Qed.

Lemma existsb_eqb_false (a : string) (l : list string) :
  existsb (String.eqb a) l = false <-> ~ In a l.
Proof.
  rewrite <- existsb_eqb. destruct (existsb (String.eqb a) l); split;
    congruence.
Qed.

Lemma positive_length {A} (l : list A) :
  l <> [] -> Nat.ltb 0 (length l) = true.
Proof. destruct l; [contradiction | reflexivity]. Qed.

(** X21. [ipWhitelist]: an empty list lets every request through.
    With a non-empty list a request passes exactly when its client
    address is in the list, where the client address is [req.ip] and the
    connection's remote address only when [req.ip] is missing or empty; a
    request with neither is answered with 403. *)
Theorem X21_ipWhitelist (allowedIPs : list string) :
  (forall ip remoteAddress,
      allowedIPs = [] -> ipWhitelist allowedIPs ip remoteAddress = Next tt)
  /\ (forall a remoteAddress,
      allowedIPs <> [] -> a <> "" ->
      (ipWhitelist allowedIPs (Some a) remoteAddress = Next tt
       <-> In a allowedIPs)
      /\ (~ In a allowedIPs ->
          ipWhitelist allowedIPs (Some a) remoteAddress
          = Respond (denied 403 "Access denied from this IP address.")))
  /\ (forall ip a,
      allowedIPs <> [] -> nonEmpty ip = None ->
      (ipWhitelist allowedIPs ip (Some a) = Next tt <-> In a allowedIPs))
  /\ (forall ip,
      allowedIPs <> [] -> nonEmpty ip = None ->
      ipWhitelist allowedIPs ip None
      = Respond (denied 403 "Access denied from this IP address.")).
Proof.
  unfold ipWhitelist. cbv zeta. split; [| split; [| split]].
  - intros ip remoteAddress ->. reflexivity.
  - intros a remoteAddress Hne Ha. rewrite (positive_length _ Hne).
    assert (Hip : nonEmpty (Some a) = Some a).
    { destruct a; [contradiction | reflexivity]. }
    rewrite Hip. cbn [andb].
    destruct (existsb (String.eqb a) allowedIPs) eqn:He; cbn [negb].
    + apply existsb_eqb in He. split; [| contradiction].
      split; [intros _; exact He | reflexivity].
    + apply existsb_eqb_false in He. split; [| reflexivity].
      split; [discriminate | contradiction].
  - intros ip a Hne Hip. rewrite (positive_length _ Hne), Hip. cbn [andb].
    destruct (existsb (String.eqb a) allowedIPs) eqn:He; cbn [negb].
    + apply existsb_eqb in He. split; [intros _; exact He | reflexivity].
    + apply existsb_eqb_false in He. split; [discriminate | contradiction].
  - intros ip Hne Hip. rewrite (positive_length _ Hne), Hip. reflexivity.
Qed.

Lemma X21_witness :
  [ "10.0.0.1"; "10.0.0.2" ] <> [] /\ "10.0.0.9" <> ""
  /\ ~ In "10.0.0.9" [ "10.0.0.1"; "10.0.0.2" ]
  /\ ipWhitelist [ "10.0.0.1"; "10.0.0.2" ] (Some "10.0.0.9")
       (Some "10.0.0.1")
     = Respond (denied 403 "Access denied from this IP address.").
Proof.
  assert (Hout : ~ In "10.0.0.9" [ "10.0.0.1"; "10.0.0.2" ]).
  { simpl. intros [H | [H | []]]; discriminate H. }
  split; [discriminate |]. split; [discriminate |]. split; [exact Hout |].
  apply (proj2
           (proj1 (proj2 (X21_ipWhitelist [ "10.0.0.1"; "10.0.0.2" ]))
              "10.0.0.9" (Some "10.0.0.1") ltac:(discriminate)
              ltac:(discriminate))).
  exact Hout.
Defined.

(** X22. [validateApiKey]: while [VALID_API_KEYS] is unset or empty
    every request passes, with or without a key.  When it holds the keys
    of a non-empty list joined by commas, a request passes exactly when
    its [x-api-key] header is one of the keys, and a request without the
    header is answered with 401. *)
Theorem X22_validateApiKey :
  (forall VALID_API_KEYS apiKey,
      nonEmpty VALID_API_KEYS = None ->
      validateApiKey VALID_API_KEYS apiKey = Next tt)
  /\ (forall keys apiKey,
      Forall (fun k => free comma k = true) keys ->
      joinWith comma keys <> "" ->
      (validateApiKey (Some (joinWith comma keys)) apiKey = Next tt
       <-> exists k, apiKey = Some k /\ In k keys)
      /\ validateApiKey (Some (joinWith comma keys)) None
         = Respond (denied 401 "Invalid API key.")).
Proof.
  unfold validateApiKey. cbv zeta. split.
  - intros VALID_API_KEYS apiKey ->. reflexivity.
  - intros keys apiKey Hfree Hne.
    assert (Hkeys : keys <> []).
    { intros ->. apply Hne. reflexivity. }
    assert (Hset : nonEmpty (Some (joinWith comma keys))
                   = Some (joinWith comma keys)).
    { destruct (joinWith comma keys); [contradiction | reflexivity]. }
    rewrite Hset, (split_joinWith comma keys Hkeys Hfree).
    rewrite (positive_length _ Hkeys). cbn [andb negb].
    split; [| reflexivity].
    destruct apiKey as [k |]; cbn [negb].
    + destruct (existsb (String.eqb k) keys) eqn:He; cbn [negb].
      * apply existsb_eqb in He. split; [| reflexivity].
        intros _. exists k. split; [reflexivity | exact He].
      * apply existsb_eqb_false in He. split; [discriminate |].
        intros (k' & Hk & Hin). injection Hk as <-. contradiction.
    + split; [discriminate |]. intros (k & Hk & _). discriminate Hk.
Qed.

Lemma X22_witness :
  Forall (fun k => free comma k = true) [ "alpha"; "beta" ]
  /\ joinWith comma [ "alpha"; "beta" ] = "alpha,beta"
  /\ (validateApiKey (Some "alpha,beta") (Some "beta") = Next tt
      <-> exists k, Some "beta" = Some k /\ In k [ "alpha"; "beta" ]).
Proof.
  assert (Hfree : Forall (fun k => free comma k = true) [ "alpha"; "beta" ]).
  { repeat constructor. }
  split; [exact Hfree |]. split; [reflexivity |].
  apply (proj1
           (proj2 X22_validateApiKey [ "alpha"; "beta" ] (Some "beta") Hfree
              ltac:(discriminate))).
Defined.

(** X23. [validateContentType]: [GET] and [DELETE] requests always
    pass.  Any other request passes exactly when its [Content-Type]
    header is present, not empty and contains one of the allowed types as
    a substring; otherwise it is answered with 415. *)
Theorem X23_validateContentType (allowedTypes : list string)
    (method : string) (contentType : option string) :
  (validateContentType allowedTypes method contentType = Next tt
   <-> method = "GET" \/ method = "DELETE"
       \/ exists c type pre post,
            contentType = Some c /\ c <> "" /\ In type allowedTypes
            /\ c = pre +:+ type +:+ post)
  /\ (forall r,
      validateContentType allowedTypes method contentType = Respond r ->
      r = denied 415 "Unsupported content type.").
Proof.
  unfold validateContentType.
  destruct (String.eqb_spec method "GET") as [-> | Hget].
  { split; [| discriminate]. split; [tauto | reflexivity]. }
  destruct (String.eqb_spec method "DELETE") as [-> | Hdelete].
  { split; [| discriminate]. split; [tauto | reflexivity]. }
  cbn [negb andb].
  assert (Hnone : forall P : Prop,
             (method = "GET" \/ method = "DELETE" \/ P) -> P).
  { intros P [H | [H | H]]; [contradiction | contradiction | exact H]. }
  destruct contentType as [[| a c] |]; cbn [nonEmpty].
  - split; [| intros r H; injection H as <-; reflexivity].
    split; [discriminate |]. intros H. apply Hnone in H.
    destruct H as (c & type & pre & post & Hc & Hne & _).
    injection Hc as <-. contradiction.
  - destruct (existsb (fun type => includes type (String a c)) allowedTypes)
      eqn:He; cbn [negb].
    + split; [| discriminate]. split; [| reflexivity].
      intros _. right. right. apply existsb_exists in He.
      destruct He as (type & Hin & Hinc). apply includes_spec in Hinc.
      destruct Hinc as (pre & post & Heq).
      exists (String a c), type, pre, post.
      split; [reflexivity |]. split; [discriminate |].
      split; [exact Hin | exact Heq].
    + split; [| intros r H; injection H as <-; reflexivity].
      split; [discriminate |]. intros H. apply Hnone in H.
      destruct H as (c' & type & pre & post & Hc & _ & Hin & Heq).
      injection Hc as <-.
      assert (Ht : existsb (fun type => includes type (String a c))
                     allowedTypes = true).
      { apply existsb_exists. exists type. split; [exact Hin |].
        apply includes_spec. exists pre, post. exact Heq. }
      congruence.
  - split; [| intros r H; injection H as <-; reflexivity].
    split; [discriminate |]. intros H. apply Hnone in H.
    destruct H as (c & type & pre & post & Hc & _). discriminate Hc.
Qed.

(** A content type that only mentions the allowed type passes. *)
Lemma X23_witness :
  validateContentType defaultTypes "POST"
    (Some "text/plain; note=application/json") = Next tt.
Proof.
  apply (proj1 (X23_validateContentType defaultTypes "POST"
                  (Some "text/plain; note=application/json"))).
  right. right.
  exists "text/plain; note=application/json", "application/json",
    "text/plain; note=", "".
  split; [reflexivity |]. split; [discriminate |].
  split; [left; reflexivity | reflexivity].
Defined.

(** X24. The CORS origin check: a request without an [Origin] always
    passes.  While [ALLOWED_ORIGINS] is unset or empty exactly the two
    localhost origins pass; once it holds a comma-separated list exactly
    the listed origins pass, so the localhost defaults no longer do
    unless they are listed. *)
Theorem X24_corsOrigin :
  (forall ALLOWED_ORIGINS origin,
      nonEmpty origin = None -> corsOrigin ALLOWED_ORIGINS origin = Allowed)
  /\ (forall ALLOWED_ORIGINS o,
      nonEmpty ALLOWED_ORIGINS = None -> o <> "" ->
      (corsOrigin ALLOWED_ORIGINS (Some o) = Allowed
       <-> o = "http://localhost:3000" \/ o = "http://localhost:3001"))
  /\ (forall origins o,
      Forall (fun s => free comma s = true) origins ->
      joinWith comma origins <> "" -> o <> "" ->
      (corsOrigin (Some (joinWith comma origins)) (Some o) = Allowed
       <-> In o origins)
      /\ (~ In o origins ->
          corsOrigin (Some (joinWith comma origins)) (Some o)
          = NotAllowed "Not allowed by CORS")).
Proof.
  unfold corsOrigin. cbv zeta. split; [| split].
  - intros ALLOWED_ORIGINS origin ->. reflexivity.
  - intros ALLOWED_ORIGINS o -> Ho.
    assert (Hset : nonEmpty (Some o) = Some o).
    { destruct o; [contradiction | reflexivity]. }
    rewrite Hset.
    destruct (existsb (String.eqb o) _) eqn:He.
    + apply existsb_eqb in He. split; [| reflexivity].
      intros _. simpl in He.
      destruct He as [<- | [<- | []]]; [left | right]; reflexivity.
    + apply existsb_eqb_false in He. split; [discriminate |].
      intros [-> | ->]; exfalso; apply He; simpl; tauto.
  - intros origins o Hfree Hne Ho.
    assert (Horigins : origins <> []).
    { intros ->. apply Hne. reflexivity. }
    assert (Hset : nonEmpty (Some (joinWith comma origins))
                   = Some (joinWith comma origins)).
    { destruct (joinWith comma origins); [contradiction | reflexivity]. }
    assert (Hsome : nonEmpty (Some o) = Some o).
    { destruct o; [contradiction | reflexivity]. }
    rewrite Hset, Hsome, (split_joinWith comma origins Horigins Hfree).
    destruct (existsb (String.eqb o) origins) eqn:He.
    + apply existsb_eqb in He. split; [| contradiction].
      split; [intros _; exact He | reflexivity].
    + apply existsb_eqb_false in He. split; [| reflexivity].
      split; [discriminate | contradiction].
Qed.

Lemma X24_witness :
  Forall (fun s => free comma s = true) [ "https://app.example.com" ]
  /\ joinWith comma [ "https://app.example.com" ] <> ""
  /\ "http://localhost:3000" <> ""
  /\ ~ In "http://localhost:3000" [ "https://app.example.com" ]
  /\ corsOrigin (Some "https://app.example.com")
       (Some "http://localhost:3000")
     = NotAllowed "Not allowed by CORS".
Proof.
  assert (Hfree : Forall (fun s => free comma s = true)
                    [ "https://app.example.com" ]).
  { repeat constructor. }
  assert (Hout : ~ In "http://localhost:3000" [ "https://app.example.com" ]).
  { simpl. intros [H | []]. discriminate H. }
  split; [exact Hfree |]. split; [discriminate |]. split; [discriminate |].
  split; [exact Hout |].
  apply (proj2
           (proj2 (proj2 X24_corsOrigin) [ "https://app.example.com" ]
              "http://localhost:3000" Hfree ltac:(discriminate)
              ltac:(discriminate))).
  exact Hout.
Defined.

End GuardsProofs.

(** ** Brute force protection: isolation, counters and rejections *)

Module SecurityMore.
Import Http Security SecurityProofs.

(** The key an event belongs to. *)
Definition keyOfEvent (ev : Event) : string :=
  match ev with
  | Arrive req _ => keyOf req
  | Finish l _ => l_key l
  end.

Lemma other_key_neutral (key : string) (ev : Event) :
  keyOfEvent ev <> key -> neutral key ev.
Proof. destruct ev as [req now | l statusCode]; simpl; [trivial | tauto]. Qed.

Lemma step_arrive o st req now :
  fst (step o st (Arrive req now)) = fst (bruteForceProtection st req now).
Proof.
  unfold step. destruct (bruteForceProtection st req now). reflexivity.
Qed.

Lemma other_key_step o st key ev :
  keyOfEvent ev <> key ->
  attempts (fst (step o st ev)) !! key = attempts st !! key
  /\ blocked (fst (step o st ev)) !! key = blocked st !! key.
Proof.
  intros Hne. split.
  - apply neutral_step. apply other_key_neutral. exact Hne.
  - destruct ev as [req now | l statusCode].
    + rewrite step_arrive. apply protect_other. exact Hne.
    + apply onFinish_blocked_other. exact Hne.
Qed.

Lemma answer_depends_on_block st1 st2 req now :
  blocked st1 !! keyOf req = blocked st2 !! keyOf req ->
  snd (bruteForceProtection st1 req now)
  = snd (bruteForceProtection st2 req now).
Proof.
  unfold bruteForceProtection. cbv zeta. intros ->.
  destruct (blocked st2 !! keyOf req) as [b |]; [| reflexivity].
  destruct (now <? until b); reflexivity.
Qed.

(** X25. Keys are independent: requests and responses that belong to
    other keys change neither the failure counter nor the block of a key,
    so a request of that key is answered as if they had not happened.  No
    client can lock out, or unlock, another address or account. *)
Theorem X25_keys_are_independent (o : Options) (key : string)
    (evs : list Event) (st : State) :
  Forall (fun ev => keyOfEvent ev <> key) evs ->
  attempts (stateAfter o st evs) !! key = attempts st !! key
  /\ blocked (stateAfter o st evs) !! key = blocked st !! key
  /\ forall req now,
       keyOf req = key ->
       snd (bruteForceProtection (stateAfter o st evs) req now)
       = snd (bruteForceProtection st req now).
Proof.
  intros Hevs.
  assert (H : attempts (stateAfter o st evs) !! key = attempts st !! key
              /\ blocked (stateAfter o st evs) !! key = blocked st !! key).
  { revert st. induction Hevs as [| ev evs Hev Hevs IH]; intros st.
    - split; reflexivity.
    - rewrite stateAfter_cons.
      destruct (IH (fst (step o st ev))) as [Ha Hb].
      destruct (other_key_step o st key ev Hev) as [Ha' Hb'].
      split; congruence. }
  destruct H as [Ha Hb]. split; [exact Ha |]. split; [exact Hb |].
  intros req now Hkey. apply answer_depends_on_block.
  rewrite Hkey. exact Hb.
Qed.

Definition otherRequest : Req :=
  {| ip := "10.0.0.8"; email := Some "eve@example.com"; username := None |}.

Definition otherTraffic : list Event :=
  [ Arrive otherRequest 10;
    Finish {| l_key := keyOf otherRequest; l_now := 10 |} 401;
    Arrive otherRequest 20;
    Finish {| l_key := keyOf otherRequest; l_now := 20 |} 401 ].

Lemma X25_witness :
  Forall (fun ev => keyOfEvent ev <> loginKey) otherTraffic
  /\ attempts (stateAfter noOptions initial otherTraffic) !! loginKey
     = attempts initial !! loginKey.
Proof.
  assert (H : Forall (fun ev => keyOfEvent ev <> loginKey) otherTraffic).
  { repeat constructor; discriminate. }
  split; [exact H |].
  apply (proj1 (X25_keys_are_independent noOptions loginKey otherTraffic
                  initial H)).
Defined.

(** *** Counting failures *)

(** 1 for a finished response of [key] with status 401 or 403. *)
Definition failure (key : string) (ev : Event) : Z :=
  match ev with
  | Arrive _ _ => 0
  | Finish l statusCode =>
      if String.eqb (l_key l) key && failed statusCode then 1 else 0
  end.

Fixpoint failuresOf (key : string) (evs : list Event) : Z :=
  match evs with
  | [] => 0
  | ev :: evs' => failure key ev + failuresOf key evs'
  end.

(** The invariant of the two maps at a key, after [n] failures. *)
Definition counted (o : Options) (key : string) (st : State) (n : Z)
    : Prop :=
  (forall info, attempts st !! key = Some info ->
                1 <= count info < maxAttempts o /\ count info <= n)
  /\ (forall b, blocked st !! key = Some b ->
                maxAttempts o <= n /\ 1 <= n).

Lemma failure_range key ev : 0 <= failure key ev <= 1.
Proof.
  destruct ev as [req now | l statusCode]; simpl; [lia |].
  destruct (String.eqb (l_key l) key && failed statusCode); lia.
Qed.

Lemma counted_step o key st n ev :
  0 <= n ->
  counted o key st n ->
  counted o key (fst (step o st ev)) (n + failure key ev).
Proof.
  intros Hn [Hatt Hblk]. unfold counted.
  destruct ev as [req now | [k t] statusCode].
  - rewrite step_arrive. simpl failure. rewrite Z.add_0_r. split.
    + intros info. rewrite protect_attempts. apply Hatt.
    + intros b. unfold bruteForceProtection. cbv zeta.
      destruct (blocked st !! keyOf req) as [b0 |] eqn:Hb0;
        [| apply Hblk].
      destruct (now <? until b0); [apply Hblk |]. cbn [fst blocked].
      destruct (decide (keyOf req = key)) as [-> | Hne].
      * rewrite lookup_delete_eq. discriminate.
      * rewrite lookup_delete_ne by exact Hne. apply Hblk.
  - simpl fst. simpl failure.
    destruct (failed statusCode) eqn:Hfailed.
    + rewrite (onFinish_failed o st k t statusCode Hfailed). cbv zeta.
      destruct (String.eqb_spec k key) as [-> | Hne]; cbn [andb].
      * set (info0 := default {| count := 0; firstAttempt := t |}
                        (attempts st !! key)).
        assert (H0 : 0 <= count info0 <= n
                     /\ (count info0 = 0 \/ count info0 < maxAttempts o)).
        { subst info0. destruct (attempts st !! key) as [i |] eqn:Hi.
          - destruct (Hatt i eq_refl) as [H1 H2].
            unfold default. cbn [from_option id]. lia.
          - unfold default. cbn [from_option count]. lia. }
        set (info := if windowMs o <? t - firstAttempt info0
                     then {| count := 1; firstAttempt := t |}
                     else {| count := count info0 + 1;
                             firstAttempt := firstAttempt info0 |}).
        assert (H1 : 1 <= count info <= n + 1).
        { subst info. destruct (windowMs o <? t - firstAttempt info0);
            simpl; lia. }
        destruct (maxAttempts o <=? count info) eqn:Hmax;
          cbn [attempts blocked].
        -- apply Z.leb_le in Hmax. split.
           ++ intros i. rewrite lookup_delete_eq. discriminate.
           ++ intros b _. lia.
        -- apply Z.leb_gt in Hmax. split.
           ++ intros i. rewrite lookup_insert_eq. intros Hi.
              injection Hi as <-. lia.
           ++ intros b Hb. destruct (Hblk b Hb). lia.
      * rewrite Z.add_0_r.
        destruct (maxAttempts o <=? _); cbn [attempts blocked]; split.
        -- intros i. rewrite lookup_delete_ne, lookup_insert_ne by exact Hne.
           apply Hatt.
        -- intros b. rewrite lookup_insert_ne by exact Hne. apply Hblk.
        -- intros i. rewrite lookup_insert_ne by exact Hne. apply Hatt.
        -- apply Hblk.
    + rewrite andb_false_r, Z.add_0_r. unfold onFinish. cbv zeta.
      unfold failed in Hfailed. rewrite Hfailed.
      destruct ((200 <=? statusCode) && (statusCode <? 300));
        [| split; assumption].
      cbn [attempts blocked]. split; [| exact Hblk].
      intros i Hi. apply lookup_delete_Some in Hi. destruct Hi as [_ Hi].
      apply Hatt. exact Hi.
Qed.

Lemma failuresOf_nonneg key evs : 0 <= failuresOf key evs.
Proof.
  induction evs as [| ev evs IH]; simpl; [lia |].
  pose proof (failure_range key ev). lia.
Qed.

Lemma counted_run o key evs :
  forall st n,
    0 <= n ->
    counted o key st n ->
    counted o key (stateAfter o st evs) (n + failuresOf key evs).
Proof.
  induction evs as [| ev evs IH]; intros st n Hn Hst.
  - simpl failuresOf. rewrite Z.add_0_r. exact Hst.
  - rewrite stateAfter_cons. simpl failuresOf. rewrite Z.add_assoc.
    pose proof (failure_range key ev).
    apply IH; [lia |]. apply counted_step; assumption.
Qed.

(** X26. Whatever requests and responses the middleware has seen
    since it was created: a stored failure counter of a key is at least 1,
    below [maxAttempts] and at most the number of 401 and 403 responses
    recorded for that key; and a key is blocked only if at least
    [maxAttempts], and at least one, such responses were recorded for it.
    No key is blocked without its own failed attempts. *)
Theorem X26_no_block_without_failures (o : Options) (key : string)
    (evs : list Event) :
  (forall info,
      attempts (stateAfter o initial evs) !! key = Some info ->
      1 <= count info < maxAttempts o
      /\ count info <= failuresOf key evs)
  /\ (forall b,
      blocked (stateAfter o initial evs) !! key = Some b ->
      maxAttempts o <= failuresOf key evs /\ 1 <= failuresOf key evs)
  /\ (failuresOf key evs < maxAttempts o ->
      forall req now,
        keyOf req = key ->
        exists l,
          snd (bruteForceProtection (stateAfter o initial evs) req now)
          = Next l).
Proof.
  assert (H : counted o key (stateAfter o initial evs)
                (0 + failuresOf key evs)).
  { apply counted_run; [lia |]. split; intros x Hx;
      simpl in Hx; rewrite lookup_empty in Hx; discriminate Hx. }
  rewrite Z.add_0_l in H. destruct H as [Hatt Hblk].
  split; [exact Hatt |]. split; [exact Hblk |].
  intros Hfew req now Hkey. unfold bruteForceProtection. cbv zeta.
  rewrite Hkey.
  destruct (blocked (stateAfter o initial evs) !! key) as [b |] eqn:Hb.
  - destruct (Hblk b eq_refl). lia.
  - eexists. reflexivity.
Qed.

Definition fourFailures : list Round :=
  [ failedLogin 0; failedLogin 1000; failedLogin 2000; failedLogin 3000 ].

Lemma X26_witness :
  failuresOf loginKey (trace loginKey fourFailures) < maxAttempts noOptions
  /\ keyOf loginRequest = loginKey
  /\ exists l,
       snd (bruteForceProtection
              (stateAfter noOptions initial (trace loginKey fourFailures))
              loginRequest 4000)
       = Next l.
Proof.
  split; [reflexivity |]. split; [reflexivity |].
  apply (proj2 (proj2 (X26_no_block_without_failures noOptions loginKey
                         (trace loginKey fourFailures))));
    reflexivity.
Defined.

Lemma ceil_div_seconds (a : Z) :
  0 < a ->
  1 <= Math.ceil_div a 1000
  /\ 1000 * (Math.ceil_div a 1000 - 1) < a <= 1000 * Math.ceil_div a 1000.
Proof.
  intros Ha. unfold Math.ceil_div.
  pose proof (Z.mul_div_le (- a) 1000 ltac:(lia)).
  pose proof (Z.mul_succ_div_gt (- a) 1000 ltac:(lia)).
  lia.
Qed.

(** X27. A request is rejected only while its key is blocked, that
    is before the block's [until]; the rejection changes nothing in the
    two maps, so rejected requests neither count as failures nor extend
    the block, and [retryAfter] is the remaining time in whole seconds,
    rounded up, hence at least 1.  A request that is let through leaves
    its key unblocked and its listener carries the key and the arrival
    time. *)
Theorem X27_rejections (st : State) (req : Req) (now : Z) :
  (forall r,
      snd (bruteForceProtection st req now) = Respond r ->
      exists u,
        blocked st !! keyOf req = Some {| until := u |}
        /\ now < u
        /\ fst (bruteForceProtection st req now) = st
        /\ r = tooMany (Math.ceil_div (u - now) 1000)
        /\ 1 <= Math.ceil_div (u - now) 1000
        /\ 1000 * (Math.ceil_div (u - now) 1000 - 1) < u - now
           <= 1000 * Math.ceil_div (u - now) 1000)
  /\ (forall l,
      snd (bruteForceProtection st req now) = Next l ->
      l = {| l_key := keyOf req; l_now := now |}
      /\ blocked (fst (bruteForceProtection st req now)) !! keyOf req = None
      /\ attempts (fst (bruteForceProtection st req now)) = attempts st
      /\ forall b, blocked st !! keyOf req = Some b -> until b <= now).
Proof.
  unfold bruteForceProtection. cbv zeta.
  destruct (blocked st !! keyOf req) as [[u] |] eqn:Hb.
  - cbn [until]. destruct (now <? u) eqn:Hlt; simpl.
    + apply Z.ltb_lt in Hlt. split; [| discriminate].
      intros r Hr. injection Hr as <-. exists u.
      destruct (ceil_div_seconds (u - now) ltac:(lia)) as [H1 H2].
      repeat split; try assumption; try reflexivity; lia.
    + apply Z.ltb_ge in Hlt. split; [discriminate |].
      intros l Hl. injection Hl as <-.
      split; [reflexivity |]. split; [apply lookup_delete_eq |].
      split; [reflexivity |]. intros b Hb'. injection Hb' as <-. exact Hlt.
  - simpl. split; [discriminate |].
    intros l Hl. injection Hl as <-.
    split; [reflexivity |]. split; [exact Hb |].
    split; [reflexivity | discriminate].
Qed.

Lemma X27_witness :
  exists u,
    blocked (stateAfter noOptions initial (trace loginKey fiveFailures))
      !! keyOf loginRequest = Some {| until := u |}
    /\ 5000 < u
    /\ fst (bruteForceProtection
              (stateAfter noOptions initial (trace loginKey fiveFailures))
              loginRequest 5000)
       = stateAfter noOptions initial (trace loginKey fiveFailures)
    /\ tooMany 1799 = tooMany (Math.ceil_div (u - 5000) 1000)
    /\ 1 <= Math.ceil_div (u - 5000) 1000
    /\ 1000 * (Math.ceil_div (u - 5000) 1000 - 1) < u - 5000
       <= 1000 * Math.ceil_div (u - 5000) 1000.
Proof.
  apply (proj1 (X27_rejections
                  (stateAfter noOptions initial (trace loginKey fiveFailures))
                  loginRequest 5000)).
  reflexivity.
Defined.

End SecurityMore.

(** ** Validators and schema enums *)

Module EnumsProofs.
Import Enums.

Ltac split_choices H :=
  unfold isValidGoalCategory, isValidGoalType, isValidCoachingStyle, isIn,
    statusFilter, priorityChoices in H;
  cbv zeta in H; cbn [existsb] in H;
  repeat (apply orb_true_iff in H; destruct H as [H | H]);
  try discriminate H; apply String.eqb_eq in H; subst.

(** X28. The validators of the request layer accept exactly the
    strings of the schema enums: [isValidGoalCategory], [isValidGoalType]
    and [isValidCoachingStyle] hold for a string exactly when it is a
    category, a goal type or a coaching style of the models, and the
    [status] and [priority] lists given to [isIn] are the schema's
    statuses and priorities.  Distinct enum values have distinct
    strings. *)
Theorem X28_validators_match_schema :
  (forall s, isValidGoalCategory s = true <-> exists c, categoryName c = s)
  /\ (forall s, isValidGoalType s = true <-> exists t, typeName t = s)
  /\ (forall s, isValidCoachingStyle s = true
                <-> exists c, coachingStyleName c = s)
  /\ (forall s, isIn statusFilter s = true <-> exists st, statusName st = s)
  /\ (forall s, isIn priorityChoices s = true
                <-> exists p, priorityName p = s)
  /\ (forall c c', categoryName c = categoryName c' -> c = c')
  /\ (forall st st', statusName st = statusName st' -> st = st').
Proof.
  split; [| split; [| split; [| split; [| split; [| split]]]]].
  - intros s. split.
    + intros H. split_choices H;
        [ exists Goals.fitness | exists Goals.career | exists Goals.personal
        | exists Goals.learning | exists Goals.relationships
        | exists Goals.finance | exists Goals.health ]; reflexivity.
    + intros [c <-]. destruct c; reflexivity.
  - intros s. split.
    + intros H. split_choices H;
        [ exists Goals.short_term | exists Goals.long_term ]; reflexivity.
    + intros [t <-]. destruct t; reflexivity.
  - intros s. split.
    + intros H. split_choices H;
        [ exists supportive | exists direct | exists analytical ];
        reflexivity.
    + intros [c <-]. destruct c; reflexivity.
  - intros s. split.
    + intros H. split_choices H;
        [ exists Goals.active | exists Goals.paused | exists Goals.completed
        | exists Goals.archived ]; reflexivity.
    + intros [st <-]. destruct st; reflexivity.
  - intros s. split.
    + intros H. split_choices H;
        [ exists Goals.low | exists Goals.medium | exists Goals.high ];
        reflexivity.
    + intros [p <-]. destruct p; reflexivity.
  - intros c c' H. destruct c, c'; first [reflexivity | discriminate H].
  - intros st st' H. destruct st, st'; first [reflexivity | discriminate H].
Qed.

End EnumsProofs.

(** ** Progress data for the coaching context *)

Module ChatDataProofs.
Import ChatData.

Section SortPermutation.
Context {A : Type} (compareFn : A -> A -> Z).

Lemma insertSorted_Permutation (x : A) (l : list A) :
  Permutation (GoalAnalysis.insertSorted compareFn x l) (x :: l).
Proof.
  induction l as [| y l IH]; simpl; [reflexivity |].
  destruct (compareFn x y <=? 0); [reflexivity |].
  rewrite IH. apply perm_swap.
Qed.

Lemma sort_Permutation (l : list A) :
  Permutation (GoalAnalysis.sort compareFn l) l.
Proof.
  induction l as [| x l IH]; simpl; [reflexivity |].
  rewrite insertSorted_Permutation, IH. reflexivity.
Qed.
End SortPermutation.

Lemma sorted_app_inv {A} (R : A -> A -> Prop) (l1 l2 : list A) :
  StronglySorted R (l1 ++ l2) ->
  StronglySorted R l1
  /\ forall a b, In a l1 -> In b l2 -> R a b.
Proof.
  induction l1 as [| x l1 IH]; simpl; intros H.
  - split; [constructor | intros a b []].
  - apply StronglySorted_inv in H. destruct H as [Hs Hx].
    destruct (IH Hs) as [H1 H2]. split.
    + constructor; [exact H1 |].
      apply Forall_app in Hx. destruct Hx as [Hx _]. exact Hx.
    + intros a b [<- | Ha] Hb.
      * rewrite List.Forall_forall in Hx. apply Hx.
        apply in_or_app. right. exact Hb.
      * apply H2; assumption.
Qed.

(** The data before sorting and cutting. *)
Lemma in_collect (goals : list (string * Goals.Goal)) (d : ProgressDatum) :
  In d (collect goals)
  <-> exists id goal entry,
        In (id, goal) goals
        /\ In entry (Goals.progressHistory goal)
        /\ d = {| goalId := id;
                  goalTitle := Goals.title goal;
                  date := Goals.pe_date entry;
                  progress := Goals.pe_progress entry;
                  category := Goals.category goal |}.
Proof.
  unfold collect. rewrite in_flat_map. split.
  - intros ([id goal] & Hg & Hd). apply in_map_iff in Hd.
    destruct Hd as (entry & <- & He). exists id, goal, entry.
    split; [exact Hg |]. split; [exact He | reflexivity].
  - intros (id & goal & entry & Hg & He & ->). exists (id, goal).
    split; [exact Hg |]. apply in_map_iff. exists entry.
    split; [reflexivity | exact He].
Qed.

(** X29. [getProgressData] returns at most 50 data, newest first;
    each one stems from a history entry of one of the user's goals and
    carries that goal's identifier, title and category; and the data left
    out are the oldest: together with the returned ones they are the
    entries of all goals, and none of them is newer than a returned one.
    With 50 entries or fewer nothing is left out. *)
Theorem X29_getProgressData (goals : list (string * Goals.Goal)) :
  length (getProgressData goals)
  = Nat.min 50 (length (collect goals))
  /\ StronglySorted (fun a b => date b <= date a) (getProgressData goals)
  /\ (forall d, In d (getProgressData goals) ->
        exists id goal entry,
          In (id, goal) goals
          /\ In entry (Goals.progressHistory goal)
          /\ d = {| goalId := id;
                    goalTitle := Goals.title goal;
                    date := Goals.pe_date entry;
                    progress := Goals.pe_progress entry;
                    category := Goals.category goal |})
  /\ (exists rest,
        Permutation (collect goals) (getProgressData goals ++ rest)
        /\ (forall d d', In d (getProgressData goals) -> In d' rest ->
                         date d' <= date d)
        /\ ((length (collect goals) <= 50)%nat -> rest = [])).
Proof.
  unfold getProgressData.
  set (sorted := GoalAnalysis.sort (fun a b => date b - date a)
                   (collect goals)).
  assert (Hperm : Permutation sorted (collect goals))
    by apply sort_Permutation.
  assert (Hsorted : StronglySorted (fun a b => date b <= date a) sorted)
    by apply (GoalAnalysisProofs.sort_sorted date).
  assert (Hlen : length sorted = length (collect goals))
    by (apply Permutation_length; exact Hperm).
  rewrite <- (firstn_skipn 50 sorted) in Hsorted.
  apply sorted_app_inv in Hsorted. destruct Hsorted as [Hfirst Hcross].
  split; [| split; [| split]].
  - rewrite length_take, Hlen. reflexivity.
  - exact Hfirst.
  - intros d Hd. apply in_collect.
    apply (Permutation_in d Hperm).
    rewrite <- (firstn_skipn 50 sorted). apply in_or_app. left. exact Hd.
  - exists (skipn 50 sorted). split; [| split].
    + rewrite firstn_skipn. symmetry. exact Hperm.
    + intros d d' Hd Hd'. apply (Hcross d d' Hd Hd').
    + intros Hsmall. apply skipn_all2. lia.
Qed.

End ChatDataProofs.

(** ** Chat messages: what a request leaves behind *)

Module ChatMore.
Import Http Chat.

Ltac stored :=
  right; eexists; split; [reflexivity |]; repeat split.

Definition conversationOf (conversation : option string) (now : Z)
    : option string :=
  if nonEmpty conversation then conversation
  else Some ("conv_" +:+ pretty now).

(** X30. [POST /api/chat/message]: a successful request appends
    exactly two messages, the user's and then the coach's, both owned by
    the user and both in the same conversation, which is the given one or,
    when none is given, [conv_] followed by the current time.  A failed
    request leaves the collection as it was only if it failed before the
    user's message was saved; after that the user's message stays stored
    without a reply, since nothing is rolled back. *)
Theorem X30_postMessage (env : Env) (uid message : string)
    (conversation : option string) (now : Z) (coll : Collection) :
  match postMessage env uid message conversation now coll with
  | (ChatOk userMessage aiMessage conv, coll') =>
      coll' = coll ++ [ userMessage; aiMessage ]
      /\ conv = conversationOf conversation now
      /\ conversationId userMessage = conv
      /\ conversationId aiMessage = conv
      /\ userId userMessage = uid /\ userId aiMessage = uid
      /\ type userMessage = user /\ type aiMessage = ai
      /\ content userMessage = message
      /\ _id userMessage = userMessageId env
      /\ _id aiMessage = aiMessageId env
      /\ saveUserMessage env = Ok tt /\ saveAiMessage env = Ok tt
  | (ChatFailed500, coll') =>
      (coll' = coll
       /\ ((exists error, userEmbedding env = Throws error)
           \/ (exists error, saveUserMessage env = Throws error)))
      \/ (exists userMessage,
            coll' = coll ++ [ userMessage ]
            /\ saveUserMessage env = Ok tt
            /\ userId userMessage = uid
            /\ type userMessage = user
            /\ content userMessage = message
            /\ conversationId userMessage = conversationOf conversation now)
  end.
Proof.
  unfold postMessage, insert. cbv zeta. fold (conversationOf conversation now).
  destruct (userEmbedding env) as [emb | e1];
    [| left; split; [reflexivity | left; eexists; reflexivity]].
  destruct (saveUserMessage env) as [[] | e2];
    [| left; split; [reflexivity | right; eexists; reflexivity]].
  destruct (loadContext env) as [[] | e3]; [| stored].
  destruct (coachingResponse env) as [[aiContent aiMetadata] | e4];
    [| stored].
  destruct (aiEmbedding env) as [aiEmb | e5]; [| stored].
  destruct aiEmb as [e |].
  - destruct (storeConversation env) as [[] | e6]; [| stored].
    destruct (saveAiMessage env) as [[] | e7]; [| stored].
    rewrite <- app_assoc. repeat split.
  - destruct (saveAiMessage env) as [[] | e7]; [| stored].
    rewrite <- app_assoc. repeat split.
Qed.

End ChatMore.
